(** * Autosubmit -> TimescaleDB synchronisation: a shallow embedding

    The development follows [src/workers/workers/autosubmit_sync_worker.py],
    [src/workers/base_worker.py], [src/workers/worker_manager.py],
    [src/config/timescaledb.py] and [src/data/db_init/materialized_views.py];
    then the readers of what the worker writes: [src/cache/memory_cache.py],
    [src/data/controllers/popular_models_ctrl_db.py],
    [src/domain/controllers/tr_popular_models_aggregated.py],
    [src/api/routes/v1/metrics/popular_models.py],
    [src/middleware/exception_handlers.py], and [src/logging/setup.py].

    Python strings are [string], Python ints are [Z], the sets and the
    dictionary of one synchronisation are [gset] and [gmap], the insertion
    ordered dictionary [models_data] and the database tables are lists.
    Exceptions are values of [exn] carried by [result]. The ids of the
    source are ints and those of the store are strs, as their tables
    declare them. *)

From Stdlib Require Import ZArith Ascii String List Lia Bool.
From stdpp Require Import base decidable countable gmap strings list pretty.

#[local] Set Warnings "-clear-no-such-hyp".

Local Open Scope string_scope.
Local Open Scope list_scope.
Local Open Scope Z_scope.

(** ** Model names: [_clean_model_name] *)

Module Names.

(** [str.rstrip("/")]: every trailing slash goes, nothing else. *)
Fixpoint rstrip_slash (s : string) : string :=
  match s with
  | EmptyString => EmptyString
  | String c r =>
      match rstrip_slash r with
      | EmptyString => if Ascii.eqb c "/" then EmptyString else String c EmptyString
      | r' => String c r'
      end
  end.

(** [s.startswith("'")] *)
Definition startswith_quote (s : string) : bool :=
  match s with
  | String c _ => Ascii.eqb c "'"
  | EmptyString => false
  end.

(** [s.endswith("'")] *)
Fixpoint endswith_quote (s : string) : bool :=
  match s with
  | EmptyString => false
  | String c EmptyString => Ascii.eqb c "'"
  | String _ r => endswith_quote r
  end.

(** [s[:-1]] *)
Fixpoint drop_last (s : string) : string :=
  match s with
  | EmptyString => EmptyString
  | String _ EmptyString => EmptyString
  | String c r => String c (drop_last r)
  end.

(** [s[1:-1]] *)
Definition slice_1_m1 (s : string) : string :=
  match s with
  | EmptyString => EmptyString
  | String _ r => drop_last r
  end.

(** The emptiness test [if not model_name] *)
Definition falsy (s : string) : bool :=
  match s with EmptyString => true | _ => false end.

Definition _clean_model_name (model_name : string) : string :=
  if falsy model_name then model_name
  else
    let model_name := rstrip_slash model_name in
    if startswith_quote model_name && endswith_quote model_name
    then slice_1_m1 model_name
    else model_name.

(** A string is wrapped when it both starts and ends with a single quote. *)
Definition wrapped (s : string) : bool :=
  startswith_quote s && endswith_quote s.

Fixpoint endswith_slash (s : string) : bool :=
  match s with
  | EmptyString => false
  | String c EmptyString => Ascii.eqb c "/"
  | String _ r => endswith_slash r
  end.

End Names.

(** ** Naive [datetime] values *)

Module Clock.

Record datetime := mk_datetime {
  year : nat; month : nat; day : nat;
  hour : nat; minute : nat; second : nat; microsecond : nat }.

#[export] Instance datetime_eq_dec : EqDecision datetime.
Proof. solve_decision. Defined.

Definition datetime_fields (d : datetime) : list nat :=
  [year d; month d; day d; hour d; minute d; second d; microsecond d].

Definition datetime_of_fields (l : list nat) : option datetime :=
  match l with
  | [y; mo; d; h; mi; s; us] => Some (mk_datetime y mo d h mi s us)
  | _ => None
  end.

#[export] Instance datetime_countable : Countable datetime.
Proof.
  apply (inj_countable datetime_fields datetime_of_fields).
  intros []; reflexivity.
Defined.

(** Python compares naive datetimes field by field, the year first. *)
Fixpoint lex_compare (a b : list nat) : comparison :=
  match a, b with
  | [], [] => Eq
  | [], _ :: _ => Lt
  | _ :: _, [] => Gt
  | x :: a', y :: b' =>
      match Nat.compare x y with
      | Eq => lex_compare a' b'
      | c => c
      end
  end.

Definition dt_compare (a b : datetime) : comparison :=
  lex_compare (datetime_fields a) (datetime_fields b).

Definition dt_ltb (a b : datetime) : bool :=
  match dt_compare a b with Lt => true | _ => false end.

(** [a < b] on datetimes *)
Definition dt_lt (a b : datetime) : Prop := dt_ltb a b = true.

(** [d.replace(hour=0, minute=0, second=0, microsecond=0)] *)
Definition replace_midnight (d : datetime) : datetime :=
  mk_datetime (year d) (month d) (day d) 0 0 0 0.

(** [datetime(y, m, d)] *)
Definition date (y m d : nat) : datetime := mk_datetime y m d 0 0 0 0.

(** The digit a character stands for. *)
Definition digit_of (c : ascii) : option nat :=
  let n := nat_of_ascii c in
  if (48 <=? n)%nat && (n <=? 57)%nat then Some (n - 48)%nat else None.

Definition is_leap (y : nat) : bool :=
  ((y mod 4 =? 0)%nat && negb (y mod 100 =? 0)%nat) || (y mod 400 =? 0)%nat.

Definition days_in_month (y m : nat) : nat :=
  match m with
  | 2 => if is_leap y then 29 else 28
  | 4 | 6 | 9 | 11 => 30
  | _ => 31
  end%nat.

(** [datetime.fromisoformat] on a text of the form [YYYY-MM-DD]; [None]
    stands for ValueError. Texts of other forms are not read by this
    function: it serves the scenarios, whose texts are dates of this form
    or no dates at all. *)
Definition fromisoformat_date (s : string) : option datetime :=
  match s with
  | String y1 (String y2 (String y3 (String y4 (String "-"
      (String m1 (String m2 (String "-" (String d1 (String d2 EmptyString))))))))) =>
      match digit_of y1, digit_of y2, digit_of y3, digit_of y4,
            digit_of m1, digit_of m2, digit_of d1, digit_of d2 with
      | Some a, Some b, Some c, Some d, Some e, Some f, Some g, Some h =>
          let y := (1000 * a + 100 * b + 10 * c + d)%nat in
          let m := (10 * e + f)%nat in
          let d := (10 * g + h)%nat in
          if (1 <=? y)%nat && (1 <=? m)%nat && (m <=? 12)%nat &&
             (1 <=? d)%nat && (d <=? days_in_month y m)%nat
          then Some (date y m d) else None
      | _, _, _, _, _, _, _, _ => None
      end
  | _ => None
  end.

End Clock.

(** ** Exceptions and the analytics store *)

Module Store.
Import Clock.

Inductive exn :=
  | IntegrityError      (* unique violation raised by PostgreSQL *)
  | OperationalError    (* the database call failed: connection lost, ... *)
  | DatabaseException   (* raised by [refresh_materialized_views] *)
  | AttributeError.     (* [None] has no attribute [replace] *)

Inductive result (A : Type) :=
  | Ok (a : A)
  | Raise (e : exn).
Arguments Ok {A} a.
Arguments Raise {A} e.

#[export] Instance exn_eq_dec : EqDecision exn.
Proof. solve_decision. Defined.
#[export] Instance result_eq_dec {A} `{EqDecision A} : EqDecision (result A).
Proof. solve_decision. Defined.

(** Table [experiments]: primary key [id], [name] unique. *)
Record ExperimentTimeDB := mk_experiment {
  e_id : string; e_name : string; e_model : string; e_created_time : datetime }.

(** Table [metric_models_popularity]: primary key [(time, model)]. *)
Record ModelPopularityTimeDB := mk_popularity {
  p_time : datetime; p_model : string; p_count : Z; p_total_count : Z;
  p_extracted_time : datetime }.

#[export] Instance experiment_eq_dec : EqDecision ExperimentTimeDB.
Proof. solve_decision. Defined.
#[export] Instance popularity_eq_dec : EqDecision ModelPopularityTimeDB.
Proof. solve_decision. Defined.

(** Rows are kept in the order of their insertion. *)
Record timescaledb := mk_db {
  experiments : list ExperimentTimeDB;
  metric_models_popularity : list ModelPopularityTimeDB }.

Definition empty_db : timescaledb := mk_db [] [].

(** What the environment decides: which call of a synchronisation on the
    analytics session fails, whether the source database can be read,
    which call of [refresh_materialized_views] fails, what the pattern and
    [datetime.fromisoformat] of the interpreter read in a text of the
    column [created] ([None] when they raise ValueError), and what
    [datetime.now()] returns when it is called for the row of a given rank
    in the result of the source query. *)
Record env := mk_env {
  db_fails : nat -> bool;
  source_fails : bool;
  refresh_fails : nat -> bool;
  isoformat : string -> option datetime;
  clock : nat -> datetime }.

(** Nothing fails; the texts are dates [YYYY-MM-DD]; the clock stands at
    2024-05-01 12:00:00. *)
Definition healthy : env :=
  mk_env (fun _ => false) false (fun _ => false) fromisoformat_date
    (fun _ => mk_datetime 2024 5 1 12 0 0 0).

(** A session: the committed tables, the tables as the open transaction
    sees them, and the number of calls made so far. *)
Record session := mk_session {
  committed : timescaledb;
  pending : timescaledb;
  calls : nat }.

(** Code that uses a session: the session survives an exception. *)
Definition M (A : Type) : Type := session -> result A * session.

Definition ret {A} (a : A) : M A := fun s => (Ok a, s).
Definition bind {A B} (m : M A) (f : A -> M B) : M B :=
  fun s => match m s with
           | (Ok a, s') => f a s'
           | (Raise e, s') => (Raise e, s')
           end.

Notation "x <- m ;; k" := (bind m (fun x => k))
  (at level 100, m at next level, right associativity).

(** One call to the server through [session.execute] or [session.commit]. *)
Definition roundtrip (E : env) : M unit :=
  fun s =>
    let s' := mk_session (committed s) (pending s) (S (calls s)) in
    if db_fails E (calls s) then (Raise OperationalError, s') else (Ok tt, s').

Definition read {A} (E : env) (q : timescaledb -> A) : M A :=
  _ <- roundtrip E ;; fun s => (Ok (q (pending s)), s).

Definition write (E : env) (f : timescaledb -> result timescaledb) : M unit :=
  _ <- roundtrip E ;;
  fun s => match f (pending s) with
           | Ok db => (Ok tt, mk_session (committed s) db (calls s))
           | Raise e => (Raise e, s)
           end.

(** [session.flush()]: the rows went through [session.execute], the unit of
    work is empty. *)
Definition session_flush : M unit := ret tt.

Definition session_commit (E : env) : M unit :=
  _ <- roundtrip E ;;
  fun s => (Ok tt, mk_session (pending s) (pending s) (calls s)).

Definition session_rollback (s : session) : session :=
  mk_session (committed s) (committed s) (calls s).

(** A computation that leaves the committed tables alone, whatever it
    returns or raises. *)
Definition keeps_committed {A} (m : M A) : Prop :=
  forall s r s', m s = (r, s') -> committed s' = committed s.

(** *** Queries *)

(** The values met as ids: the [int] of [details.exp_id] and the [str] of
    [experiments.id]. An [int] and a [str] are never equal in Python. *)
Inductive id_value :=
  | IntId (n : Z)
  | StrId (s : string).

#[export] Instance id_value_eq_dec : EqDecision id_value.
Proof. solve_decision. Defined.

#[export] Instance id_value_countable : Countable id_value.
Proof.
  apply (inj_countable'
           (fun v => match v with IntId n => inl n | StrId s => inr s end)
           (fun x => match x with inl n => IntId n | inr s => StrId s end)).
  intros []; reflexivity.
Defined.

(** The text PostgreSQL stores when an integer is given for the column
    [id], which is a character column: its decimal form. *)
Definition id_text (n : Z) : string := pretty n.

(** [select(ExperimentTimeDB.id)] collected into a set *)
Definition select_experiment_ids (db : timescaledb) : gset id_value :=
  list_to_set (StrId <$> (e_id <$> experiments db)).

(** The primary key of a row of [metric_models_popularity] *)
Definition popularity_key (r : ModelPopularityTimeDB) : datetime * string :=
  (p_time r, p_model r).

(** [select(ModelPopularityTimeDB.time, ModelPopularityTimeDB.model)]
    collected into a set *)
Definition select_popularity_keys (db : timescaledb) : gset (datetime * string) :=
  list_to_set (popularity_key <$> metric_models_popularity db).

(** First row of [ORDER BY extracted_time DESC]; rows with the same
    [extracted_time] keep the order of the table. *)
Fixpoint first_by_extracted_desc (rows : list ModelPopularityTimeDB)
  : option ModelPopularityTimeDB :=
  match rows with
  | [] => None
  | r :: rest =>
      match first_by_extracted_desc rest with
      | None => Some r
      | Some best =>
          if dt_ltb (p_extracted_time r) (p_extracted_time best)
          then Some best else Some r
      end
  end.

Definition rows_of_model (model_name : string)
  (rows : list ModelPopularityTimeDB) : list ModelPopularityTimeDB :=
  filter (fun r => p_model r = model_name) rows.

(** [latest_record_query ... .first()] *)
Definition latest_record_query (model_name : string) (db : timescaledb)
  : option ModelPopularityTimeDB :=
  first_by_extracted_desc (rows_of_model model_name (metric_models_popularity db)).

Definition sum_Z (l : list Z) : Z := foldr Z.add 0 l.

(** [SUM(count)] over the rows of a model *)
Definition sum_count (model_name : string) (rows : list ModelPopularityTimeDB) : Z :=
  sum_Z (p_count <$> rows_of_model model_name rows).

(** [historical_sum_query ... .first()]: one group, or no row at all. *)
Definition historical_sum_query (model_name : string) (db : timescaledb)
  : option (string * Z) :=
  match rows_of_model model_name (metric_models_popularity db) with
  | [] => None
  | _ => Some (model_name, sum_count model_name (metric_models_popularity db))
  end.

(** *** Inserts *)

(** [insert(ExperimentTimeDB).values(rows).on_conflict_do_nothing(["id"])]:
    a row whose [id] is taken is skipped; a taken [name] is not covered by
    the conflict target and violates the unique constraint. *)
Fixpoint insert_experiments (rows : list ExperimentTimeDB)
  (tbl : list ExperimentTimeDB) : result (list ExperimentTimeDB) :=
  match rows with
  | [] => Ok tbl
  | r :: rest =>
      if bool_decide (e_id r ∈ e_id <$> tbl) then insert_experiments rest tbl
      else if bool_decide (e_name r ∈ e_name <$> tbl) then Raise IntegrityError
      else insert_experiments rest (tbl ++ [r])
  end.

(** [insert(ModelPopularityTimeDB).values(rows)
      .on_conflict_do_nothing(["time", "model"])] *)
Fixpoint insert_popularity (rows : list ModelPopularityTimeDB)
  (tbl : list ModelPopularityTimeDB) : list ModelPopularityTimeDB :=
  match rows with
  | [] => tbl
  | r :: rest =>
      if bool_decide (popularity_key r ∈ popularity_key <$> tbl)
      then insert_popularity rest tbl
      else insert_popularity rest (tbl ++ [r])
  end.

Definition stmt_insert_experiments (rows : list ExperimentTimeDB)
  (db : timescaledb) : result timescaledb :=
  match insert_experiments rows (experiments db) with
  | Ok tbl => Ok (mk_db tbl (metric_models_popularity db))
  | Raise e => Raise e
  end.

Definition stmt_insert_popularity (rows : list ModelPopularityTimeDB)
  (db : timescaledb) : result timescaledb :=
  Ok (mk_db (experiments db) (insert_popularity rows (metric_models_popularity db))).

(** *** The materialized view [mv_latest_popular_models] *)

Record mv_row := mk_mv_row {
  mv_model : string; mv_count : Z; mv_total_count : option Z;
  mv_last_updated : option datetime }.

Definition dt_max (a b : datetime) : datetime := if dt_ltb a b then b else a.

(** [MAX] over a column: no value over no row. *)
Definition max_datetime (l : list datetime) : option datetime :=
  match l with
  | [] => None
  | d :: rest => Some (foldr dt_max d rest)
  end.

(** The models of the table, each once, in the order of first appearance. *)
Definition models_of (rows : list ModelPopularityTimeDB) : list string :=
  remove_dups (p_model <$> rows).

(** [latest_records ... rn = 1]: among the rows of the model at its greatest
    [time], the first by [extracted_time] descending. *)
Definition latest_by_time (model_name : string)
  (rows : list ModelPopularityTimeDB) : option ModelPopularityTimeDB :=
  let mine := rows_of_model model_name rows in
  match max_datetime (p_time <$> mine) with
  | None => None
  | Some latest_time =>
      first_by_extracted_desc (filter (fun x => p_time x = latest_time) mine)
  end.

Definition popular_models_view (rows : list ModelPopularityTimeDB) : list mv_row :=
  (fun m =>
     let mine := rows_of_model m rows in
     mk_mv_row m (sum_count m rows)
       (p_total_count <$> latest_by_time m rows)
       (max_datetime (p_extracted_time <$> mine)))
  <$> models_of rows.

End Store.

(** ** The synchronisation worker *)

Module Sync.
Import Names Clock Store.

Inductive level := DEBUG | INFO | WARNING | ERROR.

(** What a synchronisation acts on besides the source: the analytics store,
    the materialized view ([None] until it is first created), the number
    of calls of [refresh_materialized_views] and the log. The log keeps the
    messages of level INFO and above, without the values formatted into
    them. *)
Record world := mk_world {
  tsdb : timescaledb;
  mv : option (list mv_row);
  refreshes : nat;
  log : list (level * string) }.

Definition say (l : level) (msg : string) (W : world) : world :=
  mk_world (tsdb W) (mv W) (refreshes W) (log W ++ [(l, msg)]).

Definition set_tsdb (db : timescaledb) (W : world) : world :=
  mk_world db (mv W) (refreshes W) (log W).

(** [refresh_materialized_views]: a session of its own; the view is created
    when missing and recomputed from the committed table. *)
Definition refresh_materialized_views (E : env) (W : world) : result unit * world :=
  let W1 :=
    say INFO "Refreshing materialized views"
      (mk_world (tsdb W) (mv W) (S (refreshes W)) (log W)) in
  if refresh_fails E (refreshes W)
  then (Raise DatabaseException, say ERROR "Failed to refresh materialized views." W1)
  else (Ok tt,
        say INFO "Materialized views refreshed successfully"
          (mk_world (tsdb W1)
             (Some (popular_models_view (metric_models_popularity (tsdb W1))))
             (refreshes W1) (log W1))).

(** A row of [details] joined with [experiment.name]: [exp_id] is an
    [int], [created] a text. *)
Record detail_row := mk_detail {
  d_exp_id : Z; d_user : string; d_created : string; d_model : string;
  d_branch : string; d_hpc : string; d_name : string }.

(** The property [ExperimentDetailDB.credated] of the row of rank [n]:
    [None] for an empty text, the datetime read in the text, and the clock
    when reading it raises ValueError. *)
Definition d_credated (E : env) (n : nat) (detail : detail_row) : option datetime :=
  if falsy (d_created detail) then None
  else
    match isoformat E (d_created detail) with
    | Some dt => Some dt
    | None => Some (clock E n)
    end.

(** The dictionary [exp_data]; [credated] may hold [None]. *)
Record exp_data := mk_exp_data {
  exp_id : Z; user : string; model : string; branch : string;
  hpc : string; credated : option datetime; name : string }.

(** An element of [models_data[key]["experiments"]] *)
Record exp_entry := mk_entry {
  x_id : Z; x_name : string; x_created_time : datetime }.

(** A value of [models_data] *)
Record model_info := mk_info {
  mi_model : string; mi_time : datetime; mi_count : Z;
  mi_experiments : list exp_entry }.

Record AutosubmitSyncWorker := mk_worker {
  interval_seconds : Z;
  is_running : bool;
  shared_timestamp : option datetime;
  invalid_model_values : list string;
  current_time : datetime }.

(** [AutosubmitSyncWorker.__init__]; [now] is what [datetime.now()] reads,
    [sync_interval] is [AUTOSUBMIT_SYNC_INTERVAL]. The dictionary
    [_experiment_names] is never read and is left out. *)
Definition AutosubmitSyncWorker_init (sync_interval : Z) (now : datetime)
  (current_time : option datetime) : AutosubmitSyncWorker :=
  mk_worker sync_interval false None ["NA"; "Blabla"; "blabla"]
    (match current_time with None => now | Some t => t end).

(** [BaseWorker.set_timestamp] *)
Definition set_timestamp (timestamp : datetime) (w : AutosubmitSyncWorker)
  : AutosubmitSyncWorker :=
  mk_worker (interval_seconds w) (is_running w) (Some timestamp)
    (invalid_model_values w) (current_time w).

(** [_extract_autosubmit_experiments]: the [WHERE NOT model IN (...)] filter
    runs in the source database, the cleaning on its result. *)
Definition _extract_autosubmit_experiments (w : AutosubmitSyncWorker)
  (E : env) (src : list detail_row) : result (list exp_data) :=
  if source_fails E then Raise OperationalError
  else Ok (imap (fun n detail =>
                   let clean_model := _clean_model_name (d_model detail) in
                   mk_exp_data (d_exp_id detail) (d_user detail) clean_model
                     (d_branch detail) (d_hpc detail) (d_credated E n detail)
                     (d_name detail))
             (filter (fun detail => d_model detail ∉ invalid_model_values w) src)).

(** *** [models_data], a dictionary in insertion order *)

Definition key := (datetime * string)%type.
Definition dict := list (key * model_info).

Definition dict_contains (k : key) (d : dict) : bool :=
  bool_decide (k ∈ fst <$> d).

(** [d[k] = v] *)
Fixpoint dict_set (k : key) (v : model_info) (d : dict) : dict :=
  match d with
  | [] => [(k, v)]
  | (k', v') :: rest =>
      if bool_decide (k' = k) then (k', v) :: rest
      else (k', v') :: dict_set k v rest
  end.

(** In-place update of [d[k]] *)
Fixpoint dict_alter (f : model_info -> model_info) (k : key) (d : dict) : dict :=
  match d with
  | [] => []
  | (k', v') :: rest =>
      if bool_decide (k' = k) then (k', f v') :: rest
      else (k', v') :: dict_alter f k rest
  end.

(** The body of [for exp in experiments]; [exp["credated"].replace] raises
    AttributeError on [None]. *)
Definition process_one (models_data : dict) (exp : exp_data) : result dict :=
  let model_name := model exp in
  match credated exp with
  | None => Raise AttributeError
  | Some created =>
      let creation_date := replace_midnight created in
      let key := (creation_date, model_name) in
      let models_data :=
        if negb (dict_contains key models_data)
        then dict_set key (mk_info model_name creation_date 0 []) models_data
        else models_data in
      let models_data :=
        dict_alter (fun info =>
          mk_info (mi_model info) (mi_time info) (mi_count info)
            (mi_experiments info ++ [mk_entry (exp_id exp) (name exp) created]))
          key models_data in
      Ok (dict_alter (fun info =>
            mk_info (mi_model info) (mi_time info) (mi_count info + 1)
              (mi_experiments info))
            key models_data)
  end.

Fixpoint process_from (models_data : dict) (experiments : list exp_data)
  : result dict :=
  match experiments with
  | [] => Ok models_data
  | exp :: rest =>
      match process_one models_data exp with
      | Ok models_data => process_from models_data rest
      | Raise e => Raise e
      end
  end.

Definition _process_experiments (experiments : list exp_data) : result dict :=
  process_from [] experiments.

(** *** [_update_timescaledb] *)

(** [range(0, n, step)] *)
Definition range_step (n step : nat) : list nat :=
  (fun k => k * step)%nat <$> seq 0 (Nat.div (n + step - 1) step).

(** [l[i : i + batch_size]] for [i] in [range(0, len(l), batch_size)] *)
Definition batches {A} (batch_size : nat) (l : list A) : list (list A) :=
  (fun i => take batch_size (drop i l)) <$> range_step (length l) batch_size.

(** The variables the loop over [models_data.items()] updates. The set of
    ids starts with the strs read from the store and gains the ints of the
    experiments inserted. *)
Record locals := mk_locals {
  existing_experiment_ids : gset id_value;
  models_historical_count : gmap string Z;
  new_model_popularity_entries : list ModelPopularityTimeDB }.

(** The body of [if model_name not in models_historical_count]. *)
Definition load_historical_count (E : env) (model_name : string)
  (hist : gmap string Z) : M (gmap string Z) :=
  latest_record_result <- read E (latest_record_query model_name) ;;
  match latest_record_result with
  | Some latest_record => ret (<[model_name := p_total_count latest_record]> hist)
  | None =>
      result <- read E (historical_sum_query model_name) ;;
      ret (<[model_name := match result with Some r => snd r | None => 0 end]> hist)
  end.

(** The loop over the batches of [new_experiments]; the server stores the
    int given for [id] as its text. *)
Fixpoint insert_experiment_batches (E : env) (model_name : string)
  (bs : list (list exp_entry)) (ids : gset id_value) : M (gset id_value) :=
  match bs with
  | [] => ret ids
  | batch :: rest =>
      let values :=
        (fun exp_data =>
           mk_experiment (id_text (x_id exp_data)) (x_name exp_data) model_name
             (x_created_time exp_data)) <$> batch in
      _ <- write E (stmt_insert_experiments values) ;;
      insert_experiment_batches E model_name rest
        (foldl (fun ids exp_data => ids ∪ {[IntId (x_id exp_data)]}) ids batch)
  end.

(** One iteration of [for (date_key, model_name), model_info in ...]. *)
Definition update_group (E : env) (current_time : datetime)
  (existing_popularity_entries : gset key)
  (st : locals) (item : key * model_info) : M locals :=
  let date_key := fst (fst item) in
  let model_name := snd (fst item) in
  let model_info := snd item in
  let new_experiments :=
    filter (fun exp => IntId (x_id exp) ∉ existing_experiment_ids st)
      (mi_experiments model_info) in
  let new_exp_count := Z.of_nat (length new_experiments) in
  if new_exp_count =? 0 then ret st
  else
    hist <- match models_historical_count st !! model_name with
            | Some _ => ret (models_historical_count st)
            | None => load_historical_count E model_name (models_historical_count st)
            end ;;
    let total_count := hist !!! model_name + new_exp_count in
    let hist := <[model_name := total_count]> hist in
    let model_popularity_key := (date_key, model_name) in
    let entries :=
      if bool_decide (model_popularity_key ∉ existing_popularity_entries)
      then new_model_popularity_entries st ++
             [mk_popularity date_key model_name new_exp_count total_count current_time]
      else new_model_popularity_entries st in
    ids <- insert_experiment_batches E model_name (batches 100 new_experiments)
             (existing_experiment_ids st) ;;
    ret (mk_locals ids hist entries).

Fixpoint update_groups (E : env) (current_time : datetime)
  (existing_popularity_entries : gset key)
  (items : dict) (st : locals) : M locals :=
  match items with
  | [] => ret st
  | item :: rest =>
      st' <- update_group E current_time existing_popularity_entries st item ;;
      update_groups E current_time existing_popularity_entries rest st'
  end.

(** The loop over the batches of [new_model_popularity_entries]. *)
Fixpoint insert_popularity_batches (E : env)
  (bs : list (list ModelPopularityTimeDB)) : M unit :=
  match bs with
  | [] => ret tt
  | batch :: rest =>
      _ <- write E (stmt_insert_popularity batch) ;;
      insert_popularity_batches E rest
  end.

(** The statements of the [with] block before its last [try]. *)
Definition update_statements (E : env) (models_data : dict)
  (current_time : datetime) : M unit :=
  existing_experiment_ids <- read E select_experiment_ids ;;
  existing_popularity_entries <- read E select_popularity_keys ;;
  st <- update_groups E current_time existing_popularity_entries models_data
          (mk_locals existing_experiment_ids ∅ []) ;;
  insert_popularity_batches E (batches 100 (new_model_popularity_entries st)).

(** [_update_timescaledb]: the session of [get_db_session] opens on the
    committed tables; whatever is raised inside the [with] block rolls the
    session back and is raised again; the store keeps what the session has
    committed. The commit [get_db_session] issues when the block is left
    finds no transaction open and calls nothing. *)
Definition _update_timescaledb (E : env) (models_data : dict)
  (current_time : datetime) (W : world) : result unit * world :=
  let s0 := mk_session (tsdb W) (tsdb W) 0 in
  match update_statements E models_data current_time s0 with
  | (Raise e, s) =>
      let s := session_rollback s in
      (Raise e, say ERROR "Session rollback due to error" (set_tsdb (committed s) W))
  | (Ok _, s) =>
      match (_ <- session_flush ;; session_commit E) s with
      | (Raise e, s) =>
          let W := say ERROR "Error committing changes to database" W in
          let s := session_rollback s in
          let s := session_rollback s in
          (Raise e, say ERROR "Session rollback due to error" (set_tsdb (committed s) W))
      | (Ok _, s) =>
          let W := set_tsdb (committed s) W in
          let W :=
            match refresh_materialized_views E W with
            | (Ok _, W) => say INFO "Successfully refreshed materialized views" W
            | (Raise view_err, W) =>
                say WARNING "Failed to refresh materialized views" W
            end in
          (Ok tt, say INFO "Successfully updated model-date combinations" W)
      end
  end.

(** The last message of [_extract_autosubmit_experiments] *)
Definition extracted (W : world) : world :=
  say INFO "Extracted valid experiments from Autosubmit database" W.

(** [execute_task] *)
Definition execute_task (w : AutosubmitSyncWorker) (E : env)
  (src : list detail_row) (W : world) : result unit * world :=
  let W := say INFO "Starting synchronization of Autosubmit data to TimescaleDB" W in
  let current_time := current_time w in
  let attempt :=
    match _extract_autosubmit_experiments w E src with
    | Raise e => (Raise e, say ERROR "Autosubmit session error" W)
    | Ok experiments =>
        let W := extracted W in
        match experiments with
        | [] => (Ok tt, say INFO "No valid experiments found in Autosubmit database" W)
        | _ =>
            match _process_experiments experiments with
            | Raise e => (Raise e, W)
            | Ok models_data =>
                let W :=
                  match _update_timescaledb E models_data current_time W with
                  | (Ok _, W) => W
                  | (Raise db_err, W) => say ERROR "Error during database update" W
                  end in
                match refresh_materialized_views E W with
                | (Raise e, W) => (Raise e, W)
                | (Ok _, W) => (Ok tt, say INFO "Successfully synchronized experiments" W)
                end
            end
        end
    end in
  match attempt with
  | (Raise e, W) => (Raise e, say ERROR "Error during Autosubmit data synchronization" W)
  | done => done
  end.

(** The world in which [execute_task] calls [_update_timescaledb]: the one
    it started in, with two more lines in the log. *)
Definition at_write (W : world) : world :=
  extracted (say INFO "Starting synchronization of Autosubmit data to TimescaleDB" W).

(** A worker over its life: synchronisations, and calls of [set_timestamp]
    by the manager. *)
Inductive action :=
  | Cycle (E : env) (src : list detail_row)
  | SetTimestamp (timestamp : datetime).

Definition act (st : AutosubmitSyncWorker * world) (a : action)
  : AutosubmitSyncWorker * world :=
  match a with
  | Cycle E src => (fst st, snd (execute_task (fst st) E src (snd st)))
  | SetTimestamp t => (set_timestamp t (fst st), snd st)
  end.

Definition run (st : AutosubmitSyncWorker * world) (actions : list action)
  : AutosubmitSyncWorker * world :=
  fold_left act actions st.

Definition empty_world : world := mk_world empty_db None 0 [].

End Sync.

(** ** The loop of [_update_timescaledb], read as a function *)

Module Laws.
Import Clock Store Sync.

(** What [load_historical_count] stores for a model: the [total_count] of
    the first latest record, else the sum over history, else 0. *)
Definition prior_cumulative (model_name : string)
  (rows : list ModelPopularityTimeDB) : Z :=
  match latest_record_query model_name (mk_db [] rows) with
  | Some latest_record => p_total_count latest_record
  | None =>
      match historical_sum_query model_name (mk_db [] rows) with
      | Some r => snd r
      | None => 0
      end
  end.

Definition new_experiments_of (ids : gset id_value) (info : model_info)
  : list exp_entry :=
  filter (fun exp => IntId (x_id exp) ∉ ids) (mi_experiments info).

(** The row of [experiments] made from an entry of a group. *)
Definition experiment_row (model_name : string) (x : exp_entry) : ExperimentTimeDB :=
  mk_experiment (id_text (x_id x)) (x_name x) model_name (x_created_time x).

(** What one iteration does to the variables of the loop when nothing is
    raised; [rows] is the popularity table the session sees. *)
Definition group_effect (rows : list ModelPopularityTimeDB)
  (existing_popularity_entries : gset key) (current_time : datetime)
  (st : locals) (item : key * model_info) : locals :=
  let model_name := snd (fst item) in
  let new_experiments := new_experiments_of (existing_experiment_ids st) (snd item) in
  let new_exp_count := Z.of_nat (length new_experiments) in
  if new_exp_count =? 0 then st
  else
    let prior :=
      match models_historical_count st !! model_name with
      | Some v => v
      | None => prior_cumulative model_name rows
      end in
    let total_count := prior + new_exp_count in
    mk_locals
      (existing_experiment_ids st ∪ list_to_set (IntId <$> (x_id <$> new_experiments)))
      (<[model_name := total_count]> (models_historical_count st))
      (new_model_popularity_entries st ++
       if bool_decide (fst item ∉ existing_popularity_entries)
       then [mk_popularity (fst (fst item)) model_name new_exp_count total_count
               current_time]
       else []).

(** The rows a cycle may add to [experiments]: made from an entry of one
    of the groups. *)
Definition from_groups (items : dict) (r : ExperimentTimeDB) : Prop :=
  exists item x, item ∈ items /\ x ∈ mi_experiments (snd item) /\
    r = experiment_row (snd (fst item)) x.

(** The variables at the end of the loop when the session opened on [db]. *)
Definition final_locals (db : timescaledb) (models_data : dict)
  (current_time : datetime) : locals :=
  fold_left
    (group_effect (metric_models_popularity db) (select_popularity_keys db) current_time)
    models_data (mk_locals (select_experiment_ids db) ∅ []).

(** The key under which [_process_experiments] files an experiment, when
    the experiment has a date. *)
Definition key_of (exp : exp_data) : option key :=
  (fun created => (replace_midnight created, model exp)) <$> credated exp.

(** The entry [_process_experiments] makes of an experiment that has a
    date. *)
Definition entry_of (exp : exp_data) : option exp_entry :=
  mk_entry (exp_id exp) (name exp) <$> credated exp.

(** The dictionary holds nothing but what the experiments put there. *)
Definition filed (experiments : list exp_data) (d : dict) : Prop :=
  NoDup (fst <$> d) /\
  (forall item, item ∈ d ->
     exists exp, exp ∈ experiments /\ key_of exp = Some (fst item)) /\
  (forall item x, item ∈ d -> x ∈ mi_experiments (snd item) ->
     exists exp, exp ∈ experiments /\ entry_of exp = Some x /\
       key_of exp = Some (fst item)).

(** The rows of a model that no other row of the model follows in
    [extracted_time]. *)
Definition latest (model_name : string) (rows : list ModelPopularityTimeDB)
  (b : ModelPopularityTimeDB) : Prop :=
  b ∈ rows /\ p_model b = model_name /\
  forall b', b' ∈ rows -> p_model b' = model_name ->
    ~ dt_lt (p_extracted_time b) (p_extracted_time b').


(** Monotonicity for a model. *)
Definition monotone (model_name : string) (rows : list ModelPopularityTimeDB) : Prop :=
  forall a b, a ∈ rows -> b ∈ rows ->
    p_model a = model_name -> p_model b = model_name ->
    dt_lt (p_extracted_time a) (p_extracted_time b) ->
    p_total_count a <= p_total_count b.

(** The historical count of a model and the entries collected for it, in
    the course of the loop: no entry before the model is first met; then
    every entry of the model lies above what was read from the table and
    not above the count the loop holds. *)
Definition chain (model_name : string) (prior : Z) (st : locals) : Prop :=
  match models_historical_count st !! model_name with
  | None => rows_of_model model_name (new_model_popularity_entries st) = []
  | Some h =>
      prior <= h /\
      forall b, b ∈ rows_of_model model_name (new_model_popularity_entries st) ->
        prior < p_total_count b <= h
  end.


(** The ids of the table [experiments]. *)
Definition ids_of (db : timescaledb) : list string := e_id <$> experiments db.

(** The extraction of the cycle went through and, if it found anything,
    every experiment had a date and the write was committed. *)
Definition synced (w : AutosubmitSyncWorker) (E : env) (src : list detail_row)
  (W : world) : Prop :=
  exists experiments,
    _extract_autosubmit_experiments w E src = Ok experiments /\
    (experiments <> [] ->
     exists models_data,
       _process_experiments experiments = Ok models_data /\
       fst (_update_timescaledb E models_data (current_time w) (at_write W)) = Ok tt).


End Laws.

(** ** The worker loop and the worker manager *)

Module Scheduler.
Import Store Sync.

(** Where the coroutine [BaseWorker.start] stands: created and not yet
    run, awaiting [execute_task], awaiting [asyncio.sleep], returned. *)
Inductive phase := Idle | Running | Sleeping | Stopped.

(** A worker together with the task that runs its [start]. What
    [execute_task] raises is an [Exception], which [except Exception]
    catches. The field [shared_timestamp] plays no part in the loop. *)
Record task := mk_task {
  t_interval_seconds : Z;
  t_is_running : bool;
  t_phase : phase;
  t_cycles : nat;          (* calls of [execute_task] so far *)
  t_sleeps : list Z;       (* arguments of [asyncio.sleep], the latest first *)
  t_log : list (level * string) }.

(** [asyncio.create_task(worker.start())] on a fresh worker *)
Definition create_task (interval_seconds : Z) : task :=
  mk_task interval_seconds false Idle 0 [] [].

Inductive event :=
  | Started                     (* the event loop enters [start] *)
  | Returned (r : result unit)  (* [execute_task] returned or raised *)
  | Woke                        (* [asyncio.sleep] is over *)
  | Stop.                       (* [BaseWorker.stop] is called *)

#[export] Instance event_eq_dec : EqDecision event.
Proof. solve_decision. Defined.

(** [while self.is_running:] up to the next [await] *)
Definition loop_head (t : task) : task :=
  if t_is_running t
  then mk_task (t_interval_seconds t) (t_is_running t) Running (S (t_cycles t))
         (t_sleeps t) (t_log t ++ [(INFO, "Executing task")])
  else mk_task (t_interval_seconds t) (t_is_running t) Stopped (t_cycles t)
         (t_sleeps t) (t_log t).

(** The code of [start] and [stop] between two [await]s; an event the
    coroutine is not waiting for leaves it where it is. *)
Definition step (t : task) (ev : event) : task :=
  match ev, t_phase t with
  | Started, Idle =>
      loop_head (mk_task (t_interval_seconds t) true Idle (t_cycles t)
                   (t_sleeps t) (t_log t ++ [(INFO, "Starting worker")]))
  | Returned r, Running =>
      let entry :=
        match r with
        | Ok _ => (INFO, "task completed successfully")
        | Raise _ => (ERROR, "Error executing task")
        end in
      mk_task (t_interval_seconds t) (t_is_running t) Sleeping (t_cycles t)
        (t_interval_seconds t :: t_sleeps t) (t_log t ++ [entry])
  | Woke, Sleeping => loop_head t
  | Stop, _ =>
      mk_task (t_interval_seconds t) false (t_phase t) (t_cycles t)
        (t_sleeps t) (t_log t ++ [(INFO, "Stopping worker")])
  | _, _ => t
  end.

Definition steps (t : task) (evs : list event) : task := fold_left step evs t.

(** [task.done()] *)
Definition done (t : task) : bool :=
  match t_phase t with Stopped => true | _ => false end.

(** Where [WorkerManager.stop_workers] stands: not called, awaiting
    [asyncio.gather] on the tasks of the given names, returned. When it is
    called again this is where the latest call stands: the tasks an earlier
    call awaits and the latest does not are done, so the calls in flight
    come back together. *)
Inductive shutdown := NotCalled | Gathering (pending_tasks : list string) | Finished.

Record WorkerManager := mk_manager {
  tasks : list (string * task);
  stopping : shutdown }.

Inductive manager_event :=
  | OnTask (name : string) (ev : event)
  | StopWorkers      (* [stop_workers] is called and runs to its [await] *)
  | GatherResumes.   (* the event loop looks at the awaited [gather] *)

Definition on_task (name : string) (ev : event) (ts : list (string * task))
  : list (string * task) :=
  (fun nt => if bool_decide (fst nt = name) then (fst nt, step (snd nt) ev) else nt)
  <$> ts.

Definition all_done (names : list string) (ts : list (string * task)) : bool :=
  forallb (fun nt => implb (bool_decide (fst nt ∈ names)) (done (snd nt))) ts.

(** Every call of [stop_workers] calls [stop] on each worker whose task is
    not done, then awaits the tasks that are not done. *)
Definition manager_step (m : WorkerManager) (ev : manager_event) : WorkerManager :=
  match ev, stopping m with
  | OnTask name ev, _ => mk_manager (on_task name ev (tasks m)) (stopping m)
  | StopWorkers, _ =>
      let ts :=
        (fun nt => if done (snd nt) then nt else (fst nt, step (snd nt) Stop))
        <$> tasks m in
      let pending_tasks := fst <$> filter (fun nt => done (snd nt) = false) ts in
      mk_manager ts
        (match pending_tasks with [] => Finished | _ => Gathering pending_tasks end)
  | GatherResumes, Gathering pending_tasks =>
      if all_done pending_tasks (tasks m) then mk_manager (tasks m) Finished else m
  | _, _ => m
  end.

Definition manager_steps (m : WorkerManager) (evs : list manager_event)
  : WorkerManager := fold_left manager_step evs m.

(** A started task that nobody stopped is still running its loop. *)
Definition alive (t : task) : Prop :=
  t_phase t = Idle \/ (t_is_running t = true /\ t_phase t <> Stopped).


End Scheduler.

(** ** Scenarios *)

Module Scenarios.
Import Clock Store Sync.

(** A worker constructed on 2024-05-01. *)
Definition worker : AutosubmitSyncWorker :=
  AutosubmitSyncWorker_init 3600 (date 2024 5 1) None.

Definition src_A : list detail_row :=
  [ mk_detail 1 "alice" "2023-01-01" "EC-Earth/" "main" "marenostrum" "a001";
    mk_detail 2 "bob" "2023-01-01" "'EC-Earth'" "main" "marenostrum" "a002" ].

Definition src_B : list detail_row :=
  src_A ++
  [ mk_detail 3 "carol" "2023-01-02" "EC-Earth" "main" "marenostrum" "a003" ].

(** Scenario B with one more experiment, on a third day. *)
Definition src_D : list detail_row :=
  src_B ++
  [ mk_detail 4 "dave" "2023-01-03" "EC-Earth" "main" "marenostrum" "a004" ].

Definition bucket_A (extracted : datetime) : ModelPopularityTimeDB :=
  mk_popularity (date 2023 1 1) "EC-Earth" 2 2 extracted.



(** The call of the session that inserts the popularity rows of [src_A]
    fails: the ids, the keys, the latest record and the sum have been read
    and the experiments inserted. *)
Definition popularity_insert_fails : env :=
  mk_env (fun n => Nat.eqb n 5) false (fun _ => false) (isoformat healthy)
    (clock healthy).

(** The source database cannot be read. *)
Definition source_down : env :=
  mk_env (fun _ => false) true (fun _ => false) (isoformat healthy) (clock healthy).

(** A source whose only model, once cleaned, is one of the invalid values. *)
Definition src_NA : list detail_row :=
  [ mk_detail 9 "dave" "2023-03-01" "NA/" "main" "marenostrum" "a009" ].

(** A source with an invalid model next to a valid one. *)
Definition src_C : list detail_row :=
  [ mk_detail 7 "erin" "2023-03-01" "NA" "main" "marenostrum" "a007";
    mk_detail 8 "frank" "2023-03-01" "EC-Earth/" "main" "marenostrum" "a008" ].

(** Workers constructed a month later, and a day earlier, than [worker]. *)
Definition worker_later : AutosubmitSyncWorker :=
  AutosubmitSyncWorker_init 3600 (date 2024 6 1) None.

Definition worker_earlier : AutosubmitSyncWorker :=
  AutosubmitSyncWorker_init 3600 (date 2024 4 30) None.

(** One experiment on 2023-01-01; then a second one on the same day and a
    third on the next day. *)
Definition src_one : list detail_row :=
  [ mk_detail 1 "alice" "2023-01-01" "EC-Earth" "main" "marenostrum" "a001" ].


(** One experiment on 2023-01-01, then one more on the next day. *)
Definition src_next_day : list detail_row :=
  src_one ++
  [ mk_detail 3 "carol" "2023-01-02" "EC-Earth" "main" "marenostrum" "a003" ].

(** Experiments on three days, then one more on a fourth. *)
Definition src_three_days : list detail_row :=
  [ mk_detail 1 "alice" "2023-01-01" "EC-Earth" "main" "marenostrum" "a001";
    mk_detail 2 "bob" "2023-01-02" "EC-Earth" "main" "marenostrum" "a002";
    mk_detail 3 "carol" "2023-01-03" "EC-Earth" "main" "marenostrum" "a003" ].

(** One experiment, of a fourth day; and one of the second day. *)
Definition src_fourth_day : list detail_row :=
  [ mk_detail 4 "dave" "2023-01-04" "EC-Earth" "main" "marenostrum" "a004" ].




(** An experiment without a text of creation next to one that has it. *)
Definition src_undated : list detail_row :=
  [ mk_detail 1 "alice" "2023-01-01" "EC-Earth" "main" "marenostrum" "a001";
    mk_detail 2 "bob" EmptyString "EC-Earth" "main" "marenostrum" "a002" ].

(** The store after one synchronisation of [src], from [W]. *)
Definition after (w : AutosubmitSyncWorker) (E : env) (src : list detail_row)
  (W : world) : world := snd (execute_task w E src W).

End Scenarios.

(** ** Constraints of the store and the shape of [models_data] *)

Module Integrity.
Import Clock Store Sync Laws.

(** The primary keys and the unique constraint of the two tables. *)
Definition well_keyed (db : timescaledb) : Prop :=
  NoDup (e_id <$> experiments db) /\
  NoDup (e_name <$> experiments db) /\
  NoDup (popularity_key <$> metric_models_popularity db).

(** The experiments of a list that [_process_experiments] files under a key. *)
Definition members (k : key) (experiments : list exp_data) : list exp_data :=
  filter (fun exp => key_of exp = Some k) experiments.

(** [models_data] after the experiments [seen], which all had a date. *)
Definition grouped (seen : list exp_data) (d : dict) : Prop :=
  NoDup (fst <$> d) /\
  (forall exp, exp ∈ seen -> exists k, key_of exp = Some k /\ k ∈ fst <$> d) /\
  (forall item : key * model_info, item ∈ d ->
     mi_model (snd item) = snd (fst item) /\
     mi_time (snd item) = fst (fst item) /\
     mi_experiments (snd item) = omap entry_of (members (fst item) seen) /\
     mi_count (snd item) = Z.of_nat (length (mi_experiments (snd item))) /\
     mi_experiments (snd item) <> []) /\
  sum_Z ((fun item : key * model_info => mi_count (snd item)) <$> d)
  = Z.of_nat (length seen).

(** The source gives every name to one id only. *)
Definition one_id_per_name (experiments : list exp_data) : Prop :=
  forall a b, a ∈ experiments -> b ∈ experiments ->
    name a = name b -> exp_id a = exp_id b.

(** A name the table and the source share goes with the same id in both. *)
Definition table_agrees (tbl : list ExperimentTimeDB) (experiments : list exp_data)
  : Prop :=
  forall r a, r ∈ tbl -> a ∈ experiments -> e_name r = name a ->
    e_id r = id_text (exp_id a).

Definition names_agree (db : timescaledb) (experiments : list exp_data) : Prop :=
  one_id_per_name experiments /\ table_agrees (Store.experiments db) experiments.

(** The entries made from the experiments of a source. *)
Definition sourced (experiments : list exp_data) (x : exp_entry) : Prop :=
  exists a, a ∈ experiments /\ entry_of a = Some x.

(** The experiments of a model in the table [experiments], and the
    agreement of the two tables on a model: the counts of its popularity
    rows add up to the number of its experiments. *)
Definition count_model (model_name : string) (tbl : list ExperimentTimeDB) : Z :=
  Z.of_nat (length (filter (fun r => e_model r = model_name) tbl)).

Definition counted (model_name : string) (db : timescaledb) : Prop :=
  sum_count model_name (metric_models_popularity db)
  = count_model model_name (Store.experiments db).

(** No call of the session fails. *)
Definition db_up (E : env) : Prop := forall n, db_fails E n = false.

(** A computation on the session that raises nothing but what [P] allows. *)
Definition raises_only {A} (P : exn -> Prop) (m : M A) : Prop :=
  forall s e s', m s = (Raise e, s') -> P e.

End Integrity.

(** ** Runs of the worker loop *)

Module Pace.
Import Store Sync Scheduler.

(** What the loop of [start] keeps between two events: every sleep lasts
    [interval_seconds], and there is one sleep for each cycle that has
    returned. *)
Definition paced (interval : Z) (t : task) : Prop :=
  t_interval_seconds t = interval /\
  Forall (fun seconds => seconds = interval) (t_sleeps t) /\
  match t_phase t with
  | Idle => t_cycles t = 0%nat /\ t_sleeps t = []
  | Running => t_cycles t = S (length (t_sleeps t))
  | Sleeping | Stopped => t_cycles t = length (t_sleeps t)
  end.

(** For every task, the return of its current cycle and the end of its
    current sleep. *)
Definition drain (results : string -> result unit) (ts : list (string * task))
  : list manager_event :=
  concat ((fun nt : string * task =>
             [OnTask (fst nt) (Returned (results (fst nt))); OnTask (fst nt) Woke])
          <$> ts).

(** The events of a schedule that reach the tasks of a name. *)
Fixpoint events_of (name : string) (mevs : list manager_event) : list event :=
  match mevs with
  | [] => []
  | OnTask n ev :: rest =>
      if bool_decide (n = name) then ev :: events_of name rest else events_of name rest
  | _ :: rest => events_of name rest
  end.

(** [stop_workers] awaits the task of a name that is still in its loop. *)
Definition waiting_for (name : string) (m : WorkerManager) : Prop :=
  (exists pending_tasks, stopping m = Gathering pending_tasks /\ name ∈ pending_tasks) /\
  exists t, (name, t) ∈ tasks m /\ alive t.

(** A task that has returned, or that has been started and told to stop. *)
Definition quiet (t : task) : Prop :=
  done t = true \/ (t_is_running t = false /\ t_phase t <> Idle).

End Pace.

(** ** The in-memory cache of the API *)

Module Cache.
Import Store.

(** A value of [_stats] *)
Record key_stats := mk_key_stats { hits : Z; misses : Z }.

(** A value of [get_stats()["keys"]]; the float [hit_rate] is left out. *)
Record key_report := mk_key_report {
  r_hits : Z; r_misses : Z; r_total_requests : Z }.

(** What [get_stats] returns, without [memory_usage] (read from the
    interpreter by [sys.getsizeof]) and the float [hit_rate]. *)
Record stats_report := mk_stats_report {
  total_entries : Z; expired_entries : Z; active_entries : Z;
  total_hits : Z; total_misses : Z; keys : gmap string key_report }.

Section Clocked.

(** The floats [time.time()] returns, with [t + seconds] and [a < b] as the
    interpreter computes them, and the cached values. *)
Context {time V : Type}.
Variable plus : time -> Z -> time.
Variable before : time -> time -> bool.

Record MemoryCache := mk_cache {
  _cache : gmap string (V * time);
  _default_ttl : Z;
  _stats : gmap string key_stats }.

(** [MemoryCache.__init__] *)
Definition MemoryCache_init (default_ttl : Z) : MemoryCache :=
  mk_cache ∅ default_ttl ∅.

Definition hit (s : key_stats) : key_stats := mk_key_stats (hits s + 1) (misses s).
Definition miss (s : key_stats) : key_stats := mk_key_stats (hits s) (misses s + 1).

(** [if key not in self._stats: self._stats[key] = {"hits": 0, "misses": 0}]
    followed by the increment of one of the two counters *)
Definition track (bump : key_stats -> key_stats) (key : string)
  (stats : gmap string key_stats) : gmap string key_stats :=
  let stats :=
    match stats !! key with
    | None => <[key := mk_key_stats 0 0]> stats
    | Some _ => stats
    end in
  alter bump key stats.

(** [MemoryCache.get]; [now] is what [time.time()] reads. *)
Definition get (now : time) (key : string) (c : MemoryCache)
  : option V * MemoryCache :=
  match _cache c !! key with
  | None => (None, mk_cache (_cache c) (_default_ttl c) (track miss key (_stats c)))
  | Some (value, expiry) =>
      if before expiry now
      then (None,
            mk_cache (delete key (_cache c)) (_default_ttl c) (track miss key (_stats c)))
      else (Some value, mk_cache (_cache c) (_default_ttl c) (track hit key (_stats c)))
  end.

(** [MemoryCache.set] *)
Definition set (now : time) (key : string) (value : V) (ttl : option Z)
  (c : MemoryCache) : MemoryCache :=
  let expiry :=
    plus now (match ttl with Some seconds => seconds | None => _default_ttl c end) in
  mk_cache (<[key := (value, expiry)]> (_cache c)) (_default_ttl c) (_stats c).

(** [MemoryCache.clear] *)
Definition clear (c : MemoryCache) : MemoryCache :=
  mk_cache ∅ (_default_ttl c) (_stats c).

(** [MemoryCache.clean_expired] *)
Definition clean_expired (now : time) (c : MemoryCache) : Z * MemoryCache :=
  let expired_keys :=
    fst <$> filter (fun item : string * (V * time) => before (snd (snd item)) now = true)
              (map_to_list (_cache c)) in
  (Z.of_nat (length expired_keys),
   mk_cache (foldl (fun entries key => delete key entries) (_cache c) expired_keys)
     (_default_ttl c) (_stats c)).

(** [MemoryCache.get_stats] *)
Definition get_stats (now : time) (c : MemoryCache) : stats_report :=
  let total := Z.of_nat (size (_cache c)) in
  let expired :=
    Z.of_nat (length (filter (fun entry : V * time => before (snd entry) now = true)
                        (snd <$> map_to_list (_cache c)))) in
  let values := snd <$> map_to_list (_stats c) in
  let total_hits := sum_Z (hits <$> values) in
  let total_misses := sum_Z (misses <$> values) in
  mk_stats_report total expired (total - expired) total_hits total_misses
    ((fun stats => mk_key_report (hits stats) (misses stats) (hits stats + misses stats))
     <$> _stats c).

(** [MemoryCache.delete] *)
Definition delete (key : string) (c : MemoryCache) : bool * MemoryCache :=
  match _cache c !! key with
  | Some _ => (false, mk_cache (base.delete key (_cache c)) (_default_ttl c) (_stats c))
  | None => (true, c)
  end.

(** The calls of [get] the statistics hold for a key. *)
Definition requests (stats : gmap string key_stats) (key : string) : Z :=
  match stats !! key with Some s => hits s + misses s | None => 0 end.

(** The calls a cache receives over its life. *)
Inductive call :=
  | Get (now : time) (key : string)
  | Set_ (now : time) (key : string) (value : V) (ttl : option Z)
  | Delete (key : string)
  | Clear
  | CleanExpired (now : time).

Definition serve (c : MemoryCache) (op : call) : MemoryCache :=
  match op with
  | Get now key => snd (get now key c)
  | Set_ now key value ttl => set now key value ttl c
  | Delete key => snd (delete key c)
  | Clear => clear c
  | CleanExpired now => snd (clean_expired now c)
  end.

Definition serve_all (c : MemoryCache) (ops : list call) : MemoryCache :=
  fold_left serve ops c.

(** The number of calls of [get], for one key and in all. *)
Fixpoint gets_of (key : string) (ops : list call) : Z :=
  match ops with
  | [] => 0
  | Get _ k :: rest => (if bool_decide (k = key) then 1 else 0) + gets_of key rest
  | _ :: rest => gets_of key rest
  end.

Fixpoint gets (ops : list call) : Z :=
  match ops with
  | [] => 0
  | Get _ _ :: rest => 1 + gets rest
  | _ :: rest => gets rest
  end.

End Clocked.

End Cache.

(** ** The registry of the worker manager *)

Module Registry.
Import Clock Store Sync Scheduler.

(** What [get_worker] gives: the worker, or the [KeyError] it raises. *)
Inductive found (A : Type) :=
  | Found (a : A)
  | KeyError (message : string).
Arguments Found {A} a.
Arguments KeyError {A} message.

(** [d[name] = a] on a dictionary in insertion order *)
Fixpoint assign {A} (name : string) (a : A) (d : list (string * A)) : list (string * A) :=
  match d with
  | [] => [(name, a)]
  | (n, x) :: rest =>
      if bool_decide (n = name) then (n, a) :: rest else (n, x) :: assign name a rest
  end.

(** [d[name]] *)
Fixpoint item {A} (name : string) (d : list (string * A)) : option A :=
  match d with
  | [] => None
  | (n, x) :: rest => if bool_decide (n = name) then Some x else item name rest
  end.

(** [WorkerManager]: the workers, the tasks made for them, the timestamp
    of the last start, and the log. *)
Record WorkerManager := mk_registry {
  workers : list (string * AutosubmitSyncWorker);
  tasks : gmap string task;
  current_timestamp : option datetime;
  log : list (level * string) }.

(** [WorkerManager.__init__] *)
Definition WorkerManager_init : WorkerManager := mk_registry [] ∅ None [].

(** [name in self.workers] *)
Definition registered (name : string) (m : WorkerManager) : bool :=
  bool_decide (name ∈ fst <$> workers m).

Definition register_worker (name : string) (worker : AutosubmitSyncWorker)
  (m : WorkerManager) : WorkerManager :=
  let log :=
    if registered name m
    then log m ++ [(WARNING, "Worker already registered, replacing")]
    else log m in
  mk_registry (assign name worker (workers m)) (tasks m) (current_timestamp m)
    (log ++ [(INFO, "Registered worker")]).

(** [register_default_workers]; [now] is what [datetime.now()] reads in the
    constructor of the worker. *)
Definition register_default_workers (sync_interval : Z) (now : datetime)
  (m : WorkerManager) : WorkerManager :=
  register_worker "autosubmit_sync" (AutosubmitSyncWorker_init sync_interval now None) m.

Definition get_worker_names (m : WorkerManager) : list string := fst <$> workers m.

Definition get_worker (name : string) (m : WorkerManager) : found AutosubmitSyncWorker :=
  if negb (registered name m) then KeyError "Worker not found"
  else match item name (workers m) with
       | Some worker => Found worker
       | None => KeyError name
       end.

(** [name not in self.tasks or self.tasks[name].done()] *)
Definition startable (name : string) (ts : gmap string task) : bool :=
  match ts !! name with
  | None => true
  | Some t => done t
  end.

(** One iteration of the loop of [start_workers]: the workers met so far,
    the tasks and the log. *)
Definition start_one (shared_timestamp : datetime)
  (st : list (string * AutosubmitSyncWorker) * gmap string task * list (level * string))
  (entry : string * AutosubmitSyncWorker)
  : list (string * AutosubmitSyncWorker) * gmap string task * list (level * string) :=
  let '(met, ts, lg) := st in
  let name := fst entry in
  let worker := snd entry in
  if startable name ts
  then (met ++ [(name, set_timestamp shared_timestamp worker)],
        <[name := create_task (interval_seconds worker)]> ts,
        lg ++ [(INFO, "Started worker")])
  else (met ++ [(name, worker)], ts, lg).

(** [start_workers]; [now] is what [datetime.now()] reads in
    [_generate_shared_timestamp]. *)
Definition start_workers (now : datetime) (m : WorkerManager) : WorkerManager :=
  let lg := log m ++ [(INFO, "Starting all workers")] in
  let shared_timestamp := now in
  let lg := lg ++ [(INFO, "Generated shared timestamp for all workers")] in
  let '(met, ts, lg) :=
    fold_left (start_one shared_timestamp) (workers m) ([], tasks m, lg) in
  mk_registry met ts (Some shared_timestamp) lg.

End Registry.

(** ** The read path: popular models, aggregated *)

Module Api.
Import Clock Store Sync Cache.

(** [datetime.date] values and [datetime.date()] *)
Definition date_value := (nat * nat * nat)%type.
Definition date_of (d : datetime) : date_value := (year d, month d, day d).

(** The domain classes [Experiment] and [Model]; the field [model] of an
    experiment is never set on this path. *)
Record Experiment := mk_Experiment {
  ex_id : string; ex_name : string; ex_created_time : datetime }.

Record Model := mk_Model {
  m_name : string; m_count : Z; m_experiments : list Experiment;
  m_last_extracted : date_value }.

(** The response schemas *)
Record PopularModelResponse := mk_popular_model {
  pr_name : string; pr_total_count : Z; pr_experiments : list string }.

Record AggregatedPopularModelsResponse := mk_aggregated {
  ar_last_extracted : date_value; ar_models : list PopularModelResponse }.

(** What reaches the [except] of the route, and what leaves it. Messages are
    ASCII. *)
Inductive request_error :=
  | DatabaseException (message : string)
  | IndexError (message : string)
  | ServiceUnavailableException (message : string).

(** [l[:limit]] *)
Definition slice_to {A} (limit : Z) (l : list A) : list A :=
  if 0 <=? limit then take (Z.to_nat limit) l
  else take (length l - Z.to_nat (- limit)) l.

(** [str.lower] on ASCII *)
Definition lower_ascii (c : ascii) : ascii :=
  let n := nat_of_ascii c in
  if (Nat.leb 65 n && Nat.leb n 90)%bool then ascii_of_nat (n + 32) else c.

Fixpoint lower (s : string) : string :=
  match s with
  | EmptyString => EmptyString
  | String c r => String (lower_ascii c) (lower r)
  end.

(** [needle in s] *)
Definition contains (needle s : string) : bool :=
  match String.index 0 needle s with Some _ => true | None => false end.

(** [ORDER BY total_count DESC]; the order of rows with the same total is
    the database's choice. *)
Fixpoint insert_desc (x : string * Z) (l : list (string * Z)) : list (string * Z) :=
  match l with
  | [] => [x]
  | y :: rest => if snd y <? snd x then x :: y :: rest else y :: insert_desc x rest
  end.

Definition order_by_total_desc (l : list (string * Z)) : list (string * Z) :=
  foldr insert_desc [] l.

(** [SELECT model, SUM(count) ... GROUP BY model] on the view *)
Definition group_by_model (view : list mv_row) : list (string * Z) :=
  (fun m => (m, sum_Z (mv_count <$> filter (fun r => mv_model r = m) view)))
  <$> remove_dups (mv_model <$> view).

(** [SELECT MAX(last_updated)]: NULLs are skipped. *)
Definition max_last_updated (view : list mv_row) : option datetime :=
  max_datetime (omap mv_last_updated view).

(** An action of the worker that leaves the view alone: a call of
    [set_timestamp], or a cycle that cannot read the source or finds no
    valid experiment in it. *)
Definition finds_nothing (w : AutosubmitSyncWorker) (a : action) : Prop :=
  match a with
  | Cycle E src =>
      source_fails E = true \/ forall d, d ∈ src -> d_model d ∈ invalid_model_values w
  | SetTimestamp _ => True
  end.

(** What a call gives: its value, or the exception it raises. *)
Inductive outcome (E A : Type) :=
  | Done (a : A)
  | Raised (e : E).
Arguments Done {E A} a.
Arguments Raised {E A} e.

(** Totals in descending order *)
Fixpoint descending (l : list (string * Z)) : Prop :=
  match l with
  | [] => True
  | x :: rest => Forall (fun y => snd y <= snd x) rest /\ descending rest
  end.

(** The domain experiments of a model, as [_get_experiments] builds them. *)
Definition experiments_of (model_name : string) (db : timescaledb) : list Experiment :=
  (fun db_exp => mk_Experiment (e_id db_exp) (e_name db_exp) (e_created_time db_exp))
  <$> filter (fun r => e_model r = model_name) (experiments db).

Section Request.

(** What the driver raises, which call of the session it fails (the
    commit that closes the session included), and what it raises on a view
    that is missing or has never been refreshed. *)
Context {driver_error : Type}.
Variable fails : nat -> option driver_error.
Variable unpopulated : driver_error.

Inductive controller_error :=
  | DriverError (e : driver_error)
  | ValidationError.

(** [await session.execute(query)] as the [n]-th call of the session *)
Definition execute {A} (n : nat) (rows : option A) : outcome controller_error A :=
  match fails n with
  | Some e => Raised (DriverError e)
  | None =>
      match rows with
      | Some rows => Done rows
      | None => Raised (DriverError unpopulated)
      end
  end.

(** [PopularModelsCtrlDB._get_all_models] *)
Definition _get_all_models (n : nat) (W : world)
  : outcome controller_error (list (string * Z)) :=
  execute n ((fun view => order_by_total_desc (group_by_model view)) <$> mv W).

(** [PopularModelsCtrlDB._get_experiments] *)
Definition _get_experiments (n : nat) (W : world) (model_name : string)
  : outcome controller_error (list Experiment) :=
  match execute n (Some (filter (fun r => e_model r = model_name)
                           (experiments (tsdb W)))) with
  | Raised e => Raised e
  | Done db_experiments =>
      Done ((fun db_exp =>
               mk_Experiment (e_id db_exp) (e_name db_exp) (e_created_time db_exp))
            <$> db_experiments)
  end.

(** The loop over [models_data]; [Model(...)] validates [count >= 0]. *)
Fixpoint domain_models (n : nat) (W : world) (last_updated : date_value)
  (models_data : list (string * Z)) : outcome controller_error (list Model) :=
  match models_data with
  | [] =>
      match fails n with          (* the commit of [get_async_db_session] *)
      | Some e => Raised (DriverError e)
      | None => Done []
      end
  | (model_name, total_count) :: rest =>
      match _get_experiments n W model_name with
      | Raised e => Raised e
      | Done experiments =>
          if total_count <? 0 then Raised ValidationError
          else
            match domain_models (S n) W last_updated rest with
            | Raised e => Raised e
            | Done models =>
                Done (mk_Model model_name total_count experiments last_updated :: models)
            end
      end
  end.

(** [PopularModelsCtrlDB.get_aggregated_popular_models]; [today] is what
    [date.today()] reads. *)
Definition get_aggregated_popular_models (today : date_value) (W : world)
  : outcome controller_error (list Model) :=
  match execute 0 (max_last_updated <$> mv W) with
  | Raised e => Raised e
  | Done last_updated_date =>
      let last_updated :=
        match last_updated_date with
        | Some d => date_of d
        | None => today
        end in
      match _get_all_models 1 W with
      | Raised e => Raised e
      | Done models_data => domain_models 2 W last_updated models_data
      end
  end.

(** [TrPopularModelsAggregated.execute] *)
Definition TrPopularModelsAggregated_execute (today : date_value) (W : world)
  : outcome request_error (list Model) :=
  match get_aggregated_popular_models today W with
  | Done result => Done result
  | Raised e =>
      Raised (DatabaseException
                "Error while fetching aggregated popular models from the database")
  end.

(** [PopularModelResponse.from_domain] *)
Definition from_domain (domain_model : Model) : PopularModelResponse :=
  mk_popular_model (m_name domain_model) (m_count domain_model)
    (ex_name <$> m_experiments domain_model).

(** [AggregatedPopularModelsResponse.initialize] *)
Definition initialize (models : list Model)
  : outcome request_error AggregatedPopularModelsResponse :=
  match models with
  | [] => Raised (IndexError "list index out of range")
  | first :: _ => Done (mk_aggregated (m_last_extracted first) (from_domain <$> models))
  end.

(** The [except] of the route: none of the exceptions that reach it is a
    [ConnectionError]. *)
Definition str (e : request_error) : string :=
  match e with
  | DatabaseException message | IndexError message
  | ServiceUnavailableException message => message
  end.

Definition on_exception (e : request_error) : request_error :=
  if contains "timeout" (lower (str e))
  then ServiceUnavailableException "Service temporarily unavailable"
  else e.

(** The floats of the cache's clock. *)
Context {time : Type}.
Variable plus : time -> Z -> time.
Variable before : time -> time -> bool.

(** The route [GET /aggregated], with [app.state.cache] set as [lifespan]
    leaves it; [now] and [later] are the two readings of [time.time()], in
    [cache.get] and in [cache.set]. The log of the request is left out. *)
Definition get_aggregated_popular_models_route (now later : time)
  (today : date_value) (limit : option Z) (W : world)
  (cache : @MemoryCache time AggregatedPopularModelsResponse)
  : outcome request_error AggregatedPopularModelsResponse
    * @MemoryCache time AggregatedPopularModelsResponse :=
  let cache_key := "models:aggregated" in
  let '(cached_result, cache) := get before now cache_key cache in
  match cached_result with
  | Some response =>
      (Done match limit with
            | Some n => mk_aggregated (ar_last_extracted response)
                          (slice_to n (ar_models response))
            | None => response
            end,
       cache)
  | None =>
      match TrPopularModelsAggregated_execute today W with
      | Raised e => (Raised (on_exception e), cache)
      | Done result =>
          let result :=
            match limit with Some n => slice_to n result | None => result end in
          match initialize result with
          | Raised e => (Raised (on_exception e), cache)
          | Done response =>
              (Done response, set plus later cache_key response None cache)
          end
      end
  end.

(** [global_exception_handler]: the status code and the [detail] of the
    response. *)
Definition global_exception_handler (e : request_error) : Z * string :=
  match e with
  | DatabaseException message => (500, message)
  | ServiceUnavailableException message => (503, message)
  | IndexError _ => (500, "An unexpected error occurred")
  end.

End Request.

End Api.

(** ** The filter of duplicate log records *)

Module Logging.

Section Window.

(** The floats of [record.created], and the test
    [current_time - last_time < self.duplicate_window] as the interpreter
    computes it. *)
Context {time : Type}.
Variable within_window : time -> time -> bool.

Record LogRecord := mk_record { levelno : Z; message : string; created : time }.

(** The key under which [DuplicateFilter] remembers a record. *)
Definition log_key (record : LogRecord) : Z * string :=
  (levelno record, message record).

(** [DuplicateFilter.filter] on the dictionary [last_log]: [false] is the 0
    that drops the record, [true] the 1 that keeps it. *)
Definition DuplicateFilter_filter (record : LogRecord) (last_log : gmap (Z * string) time)
  : bool * gmap (Z * string) time :=
  let current_time := created record in
  match last_log !! log_key record with
  | Some last_time =>
      if within_window current_time last_time then (false, last_log)
      else (true, <[log_key record := current_time]> last_log)
  | None => (true, <[log_key record := current_time]> last_log)
  end.

(** A handler with the filter: the dictionary and the records emitted. *)
Definition handle (st : gmap (Z * string) time * list LogRecord) (record : LogRecord)
  : gmap (Z * string) time * list LogRecord :=
  let '(keep, last_log) := DuplicateFilter_filter record (fst st) in
  (last_log, if keep then snd st ++ [record] else snd st).

Definition handle_all (records : list LogRecord)
  : gmap (Z * string) time * list LogRecord :=
  fold_left handle records (∅, []).

(** The dictionary holds, for every key, the time of the last record
    emitted with it. *)
Definition remembers (st : gmap (Z * string) time * list LogRecord) : Prop :=
  forall key,
    fst st !! key
    = created <$> last (List.filter (fun r => bool_decide (log_key r = key)) (snd st)).

End Window.

End Logging.

(** ** The data controller's copy of the cleaning *)

Module Controller.
Import Names.

(** [AutosubmitDataController._clean_model_name]: the cleaning of the
    worker without its test for an empty name. *)
Definition _clean_model_name (model_name : string) : string :=
  let model_name := rstrip_slash model_name in
  if startswith_quote model_name && endswith_quote model_name
  then slice_1_m1 model_name
  else model_name.

End Controller.

(** * Properties *)

(** ** Model names *)

Section NamesFacts.
Import Names.

Lemma rstrip_slash_idem (s : string) :
  rstrip_slash (rstrip_slash s) = rstrip_slash s.
Proof.
  induction s as [|c r IH]; simpl; [reflexivity|].
  destruct (rstrip_slash r) as [|c' r'] eqn:Hr.
  - destruct (Ascii.eqb c "/") eqn:Hc; simpl; [reflexivity|].
    rewrite Hc. reflexivity.
  - simpl in *. rewrite IH. reflexivity.
Qed.

Lemma clean_unwrapped (s : string) :
  wrapped (rstrip_slash s) = false -> _clean_model_name s = rstrip_slash s.
Proof.
  intros Hw. unfold _clean_model_name.
  destruct s as [|c r]; [reflexivity|].
  cbn [falsy]. fold (wrapped (rstrip_slash (String c r))). rewrite Hw.
  reflexivity.
Qed.

Lemma rstrip_slash_length (s : string) :
  (String.length (rstrip_slash s) <= String.length s)%nat.
Proof.
  induction s as [|c r IH]; simpl; [lia|].
  destruct (rstrip_slash r); [destruct (Ascii.eqb c "/")|]; simpl in *; lia.
Qed.

Lemma drop_last_length (s : string) :
  (String.length (drop_last s) <= String.length s)%nat.
Proof.
  induction s as [|c r IH]; simpl; [lia|].
  destruct r; simpl in *; lia.
Qed.

Lemma rstrip_slash_no_slash (s : string) :
  endswith_slash (rstrip_slash s) = false.
Proof.
  induction s as [|c r IH]; simpl; [reflexivity|].
  destruct (rstrip_slash r) as [|c' r'] eqn:Hr.
  - destruct (Ascii.eqb c "/") eqn:Hc; simpl; [reflexivity | exact Hc].
  - exact IH.
Qed.

Lemma rstrip_slash_fixed (s : string) :
  endswith_slash s = false -> rstrip_slash s = s.
Proof.
  induction s as [|c r IH]; simpl; [reflexivity|].
  destruct r as [|c' r'].
  - simpl. intros ->. reflexivity.
  - intros H. rewrite (IH H). reflexivity.
Qed.

(** The names a cleaning leaves alone are those without a trailing slash
    that are not wrapped in single quotes. *)
Lemma clean_fixed_iff (y : string) :
  _clean_model_name y = y <->
  endswith_slash y = false /\ wrapped y = false.
Proof.
  split.
  - intros Hfix. destruct y as [|c r]; [split; reflexivity|].
    unfold _clean_model_name in Hfix. cbn [falsy] in Hfix.
    set (z := rstrip_slash (String c r)) in *.
    assert (Hz : (String.length z <= String.length (String c r))%nat)
      by apply rstrip_slash_length.
    fold (wrapped z) in Hfix.
    destruct (wrapped z) eqn:Hw.
    + exfalso. destruct z as [|c0 r0]; [discriminate Hw|].
      assert (Hlen : String.length (slice_1_m1 (String c0 r0))
                     = String.length (String c r)) by (rewrite Hfix; reflexivity).
      pose proof (drop_last_length r0). simpl in Hlen, Hz. simpl in *. lia.
    + rewrite <- Hfix. split; [apply rstrip_slash_no_slash | exact Hw].
  - intros [Hs Hw]. rewrite clean_unwrapped; rewrite (rstrip_slash_fixed y Hs);
      [reflexivity | exact Hw].
Qed.

(** C5, as the code has it: a second cleaning changes nothing exactly when
    the cleaned name has no trailing slash and is not wrapped in single
    quotes; this is so whenever the name, once its trailing slashes are
    gone, is not wrapped. *)
Theorem clean_model_name_idempotent_unwrapped (x : string) :
  (_clean_model_name (_clean_model_name x) = _clean_model_name x <->
   endswith_slash (_clean_model_name x) = false /\
   wrapped (_clean_model_name x) = false) /\
  (wrapped (rstrip_slash x) = false ->
   _clean_model_name (_clean_model_name x) = _clean_model_name x).
Proof.
  split; [apply clean_fixed_iff|].
  intros Hw. rewrite (clean_unwrapped x Hw).
  rewrite clean_unwrapped; rewrite rstrip_slash_idem; [reflexivity | exact Hw].
Qed.

Lemma clean_model_name_idempotent_unwrapped_witness :
  wrapped (rstrip_slash "EC-Earth///") = false /\
  _clean_model_name (_clean_model_name "EC-Earth///") = _clean_model_name "EC-Earth///".
Proof.
  split; [reflexivity|].
  apply (proj2 (clean_model_name_idempotent_unwrapped "EC-Earth///")). reflexivity.
Defined.

(** C5 as stated fails: the cleaning of ['a/'] strips the quotes and leaves a
    trailing slash, which a second cleaning strips. *)
Lemma clean_model_name_not_idempotent :
  ~ (forall x : string,
       _clean_model_name (_clean_model_name x) = _clean_model_name x).
Proof.
  intros H. specialize (H "'a/'"). vm_compute in H. discriminate H.
Qed.

End NamesFacts.

(** ** The worker loop *)

Section SchedulerFacts.
Import Store Sync Scheduler.

Lemma step_done (t : task) (ev : event) : done t = true -> done (step t ev) = true.
Proof.
  unfold done. destruct (t_phase t) eqn:Hp; try discriminate. intros _.
  destruct ev; unfold step; rewrite Hp; simpl; rewrite ?Hp; reflexivity.
Qed.

Lemma step_alive (t : task) (ev : event) :
  ev <> Stop -> alive t -> alive (step t ev).
Proof.
  intros Hev [Hidle | [Hrun Hp]].
  - destruct ev; unfold step; rewrite Hidle; try (left; assumption).
    + right. unfold loop_head. simpl. split; [reflexivity | discriminate].
    + contradiction.
  - right. destruct ev; unfold step; destruct (t_phase t) eqn:Hph; simpl;
      try (split; [assumption | congruence]); try contradiction;
      try (unfold loop_head; simpl; rewrite ?Hrun; simpl;
           split; [reflexivity | discriminate]);
      try (split; [assumption | discriminate]).
Qed.



(** What a call of [stop_workers] does, wherever an earlier call stands. *)
Lemma stop_workers_step (m : WorkerManager) :
  manager_step m StopWorkers =
  let ts := (fun nt : string * task =>
               if done (snd nt) then nt else (fst nt, step (snd nt) Stop))
            <$> tasks m in
  let pending_tasks := fst <$> filter (fun nt => done (snd nt) = false) ts in
  mk_manager ts
    (match pending_tasks with [] => Finished | _ => Gathering pending_tasks end).
Proof. unfold manager_step. destruct (stopping m); reflexivity. Qed.





End SchedulerFacts.

(** ** Sessions *)

Section SessionFacts.
Import Store.

Lemma bind_inv {A B} (m : M A) (f : A -> M B) s r s' :
  bind m f s = (r, s') ->
  (exists a s1, m s = (Ok a, s1) /\ f a s1 = (r, s')) \/
  (exists e, m s = (Raise e, s') /\ r = Raise e).
Proof.
  unfold bind. destruct (m s) as [[a|e] s1]; intros H.
  - left. exists a, s1. split; [reflexivity | exact H].
  - right. exists e. inversion H; subst. split; reflexivity.
Qed.

Lemma bind_inv_ok {A B} (m : M A) (f : A -> M B) s b s' :
  bind m f s = (Ok b, s') ->
  exists a s1, m s = (Ok a, s1) /\ f a s1 = (Ok b, s').
Proof.
  intros H. apply bind_inv in H as [H | [e [_ H]]]; [exact H | discriminate H].
Qed.

Lemma keeps_ret {A} (a : A) : keeps_committed (ret a).
Proof. intros s r s' H. inversion H; reflexivity. Qed.

Lemma keeps_bind {A B} (m : M A) (f : A -> M B) :
  keeps_committed m -> (forall a, keeps_committed (f a)) ->
  keeps_committed (bind m f).
Proof.
  intros Hm Hf s r s' H. apply bind_inv in H as [[a [s1 [H1 H2]]] | [e [H1 _]]].
  - rewrite (Hf a _ _ _ H2). apply (Hm _ _ _ H1).
  - apply (Hm _ _ _ H1).
Qed.

Lemma keeps_roundtrip E : keeps_committed (roundtrip E).
Proof.
  intros s r s' H. unfold roundtrip in H.
  destruct (db_fails E (calls s)); inversion H; reflexivity.
Qed.

Lemma keeps_read {A} E (q : timescaledb -> A) : keeps_committed (read E q).
Proof.
  apply keeps_bind; [apply keeps_roundtrip|].
  intros _ s r s' H. inversion H; reflexivity.
Qed.

Lemma keeps_write E f : keeps_committed (write E f).
Proof.
  apply keeps_bind; [apply keeps_roundtrip|].
  intros _ s r s' H. destruct (f (pending s)); inversion H; reflexivity.
Qed.

Lemma roundtrip_ok E s s' :
  roundtrip E s = (Ok tt, s') ->
  pending s' = pending s /\ committed s' = committed s.
Proof.
  unfold roundtrip. destruct (db_fails E (calls s)); intros H; inversion H.
  split; reflexivity.
Qed.


Lemma read_ok {A} E (q : timescaledb -> A) s a s' :
  read E q s = (Ok a, s') ->
  a = q (pending s) /\ pending s' = pending s /\ committed s' = committed s.
Proof.
  intros H. apply bind_inv_ok in H as [[] [s1 [H1 H2]]].
  apply roundtrip_ok in H1 as [Hp Hc]. inversion H2; subst.
  rewrite Hp. repeat split. exact Hc.
Qed.


Lemma write_ok E f s s' :
  write E f s = (Ok tt, s') ->
  f (pending s) = Ok (pending s') /\ committed s' = committed s.
Proof.
  intros H. apply bind_inv_ok in H as [[] [s1 [H1 H2]]].
  apply roundtrip_ok in H1 as [Hp Hc].
  destruct (f (pending s1)) as [db|e] eqn:Hf; inversion H2; subst.
  simpl. rewrite <- Hp. split; [exact Hf | exact Hc].
Qed.


End SessionFacts.

(** ** Batches and inserts *)

Section BatchFacts.
Import Store Sync.

Lemma batches_prefix {A} (n : nat) (l : list A) (m : nat) :
  concat ((fun i => take n (drop i l)) <$> ((fun k => k * n)%nat <$> seq 0 m))
  = take (m * n) l.
Proof.
  induction m as [|m IH]; [reflexivity|].
  rewrite seq_S, !fmap_app, concat_app, IH. simpl.
  rewrite app_nil_r, take_take_drop. f_equal. lia.
Qed.

(** The batches of a list, put end to end, are the list. *)
Lemma concat_batches {A} (n : nat) (l : list A) :
  (0 < n)%nat -> concat (batches n l) = l.
Proof.
  intros Hn. unfold batches, range_step. rewrite batches_prefix.
  apply take_ge.
  pose proof (Nat.div_mod_eq (length l + n - 1) n) as Hd.
  pose proof (Nat.mod_upper_bound (length l + n - 1) n ltac:(lia)) as Hm.
  nia.
Qed.

Lemma batches_lookup {A} (n : nat) (l : list A) (i : nat) (b : list A) :
  batches n l !! i = Some b ->
  b = take n (drop (i * n) l) /\ (i < Nat.div (length l + n - 1) n)%nat.
Proof.
  unfold batches, range_step. rewrite !list_lookup_fmap.
  destruct (seq 0 (Nat.div (length l + n - 1) n) !! i) as [k|] eqn:Hk; [|discriminate].
  apply lookup_seq in Hk as [-> Hlt]. cbn. intros [= <-]. split; [reflexivity | exact Hlt].
Qed.

Lemma elem_of_batches {A} (n : nat) (l b : list A) (x : A) :
  b ∈ batches n l -> x ∈ b -> x ∈ l.
Proof.
  intros Hb Hx. apply list_elem_of_lookup in Hb as [i Hi].
  apply batches_lookup in Hi as [-> _].
  apply elem_of_take in Hx as (j & Hj & _). rewrite lookup_drop in Hj.
  apply list_elem_of_lookup. eexists. exact Hj.
Qed.

Lemma NoDup_fmap_eq {A B} (f : A -> B) (l : list A) (x y : A) :
  NoDup (f <$> l) -> x ∈ l -> y ∈ l -> f x = f y -> x = y.
Proof.
  induction l as [|a l IH]; intros Hnd Hx Hy Hf; [apply elem_of_nil in Hx; contradiction|].
  rewrite fmap_cons in Hnd. apply NoDup_cons in Hnd as [Ha Hnd].
  apply elem_of_cons in Hx as [->|Hx]; apply elem_of_cons in Hy as [->|Hy].
  - reflexivity.
  - exfalso. apply Ha. rewrite Hf. apply list_elem_of_fmap. exists y. split; [reflexivity | exact Hy].
  - exfalso. apply Ha. rewrite <- Hf. apply list_elem_of_fmap. exists x. split; [reflexivity | exact Hx].
  - exact (IH Hnd Hx Hy Hf).
Qed.

Lemma insert_experiments_app rows1 rows2 tbl :
  insert_experiments (rows1 ++ rows2) tbl =
  match insert_experiments rows1 tbl with
  | Ok tbl1 => insert_experiments rows2 tbl1
  | Raise e => Raise e
  end.
Proof.
  revert tbl. induction rows1 as [|r rows1 IH]; intros tbl; simpl; [reflexivity|].
  repeat case_bool_decide; try apply IH; reflexivity.
Qed.

(** A successful insert keeps the rows of the table in place and adds, at
    the end, rows among those given; the [id] of every given row is then in
    the table. *)
Lemma insert_experiments_ok rows tbl tbl' :
  insert_experiments rows tbl = Ok tbl' ->
  exists added,
    tbl' = tbl ++ added /\
    (forall r, r ∈ added -> r ∈ rows) /\
    (forall r, r ∈ rows -> e_id r ∈ e_id <$> tbl').
Proof.
  revert tbl. induction rows as [|r rows IH]; intros tbl; simpl.
  - intros H. inversion H; subst. exists []. rewrite app_nil_r.
    split; [reflexivity|]. split; intros r Hr; inversion Hr.
  - case_bool_decide as Hid.
    + intros H. destruct (IH _ H) as [added [-> [Ha Hb]]].
      exists added. split; [reflexivity|]. split.
      * intros x Hx. right. apply Ha, Hx.
      * intros x Hx. apply elem_of_cons in Hx as [->|Hx]; [|apply Hb, Hx].
        rewrite fmap_app. apply elem_of_app. left. exact Hid.
    + case_bool_decide as Hname; [discriminate|].
      intros H. destruct (IH _ H) as [added [-> [Ha Hb]]].
      exists (r :: added). split; [rewrite <- app_assoc; reflexivity|]. split.
      * intros x Hx. apply elem_of_cons in Hx as [->|Hx]; [left|right; apply Ha, Hx].
      * intros x Hx. apply elem_of_cons in Hx as [->|Hx]; [|apply Hb, Hx].
        rewrite !fmap_app. simpl. apply elem_of_app. left.
        apply elem_of_app. right. left.
Qed.

Lemma insert_popularity_app rows1 rows2 tbl :
  insert_popularity (rows1 ++ rows2) tbl =
  insert_popularity rows2 (insert_popularity rows1 tbl).
Proof.
  revert tbl. induction rows1 as [|r rows1 IH]; intros tbl; simpl; [reflexivity|].
  case_bool_decide; apply IH.
Qed.

(** Rows with fresh, pairwise distinct keys are all appended. *)
Lemma insert_popularity_fresh rows tbl :
  NoDup (popularity_key <$> rows) ->
  (forall r, r ∈ rows -> popularity_key r ∉ popularity_key <$> tbl) ->
  insert_popularity rows tbl = tbl ++ rows.
Proof.
  revert tbl. induction rows as [|r rows IH]; intros tbl Hnd Hfresh; simpl.
  - rewrite app_nil_r. reflexivity.
  - rewrite fmap_cons in Hnd. apply NoDup_cons in Hnd as [Hr Hnd].
    rewrite bool_decide_eq_false_2 by (apply (Hfresh r); left).
    rewrite IH; [rewrite <- app_assoc; reflexivity | exact Hnd |].
    intros x Hx. rewrite fmap_app. intros Hin. apply elem_of_app in Hin as [Hin|Hin].
    + apply (Hfresh x); [right; exact Hx | exact Hin].
    + simpl in Hin. apply elem_of_cons in Hin as [Heq|Hin]; [|inversion Hin].
      apply Hr. rewrite <- Heq. apply list_elem_of_fmap. exists x. split; [reflexivity | exact Hx].
Qed.

(** In every case the table keeps its rows and gains some of the given. *)
Lemma insert_popularity_rows rows tbl :
  exists added,
    insert_popularity rows tbl = tbl ++ added /\
    forall r, r ∈ added -> r ∈ rows.
Proof.
  revert tbl. induction rows as [|r rows IH]; intros tbl; simpl.
  - exists []. rewrite app_nil_r. split; [reflexivity|]. intros r Hr. inversion Hr.
  - case_bool_decide.
    + destruct (IH tbl) as [added [-> Ha]]. exists added.
      split; [reflexivity|]. intros x Hx. right. apply Ha, Hx.
    + destruct (IH (tbl ++ [r])) as [added [-> Ha]]. exists (r :: added).
      split; [rewrite <- app_assoc; reflexivity|].
      intros x Hx. apply elem_of_cons in Hx as [->|Hx]; [left | right; apply Ha, Hx].
Qed.

End BatchFacts.

(** ** The loop over the groups *)

Section LoopFacts.
Import Clock Store Sync Laws.

Lemma foldl_add_ids (batch : list exp_entry) (ids : gset id_value) :
  foldl (fun ids exp_data => ids ∪ {[IntId (x_id exp_data)]}) ids batch
  = ids ∪ list_to_set (IntId <$> (x_id <$> batch)).
Proof.
  revert ids. induction batch as [|x batch IH]; intros ids; simpl.
  - set_solver.
  - rewrite IH. set_solver.
Qed.

Lemma load_historical_count_ok E model_name hist s h s' :
  load_historical_count E model_name hist s = (Ok h, s') ->
  h = <[model_name := prior_cumulative model_name (metric_models_popularity (pending s))]> hist
  /\ pending s' = pending s /\ committed s' = committed s.
Proof.
  unfold load_historical_count. intros H.
  apply bind_inv_ok in H as [latest_record_result [s1 [H1 H2]]].
  apply read_ok in H1 as [-> [Hp1 Hc1]].
  unfold prior_cumulative.
  change (latest_record_query model_name (mk_db [] (metric_models_popularity (pending s))))
    with (latest_record_query model_name (pending s)).
  destruct (latest_record_query model_name (pending s)) as [r|].
  - inversion H2; subst. repeat split; assumption.
  - apply bind_inv_ok in H2 as [result [s2 [H2 H3]]].
    apply read_ok in H2 as [-> [Hp2 Hc2]]. inversion H3; subst.
    rewrite Hp1.
    change (historical_sum_query model_name (mk_db [] (metric_models_popularity (pending s))))
      with (historical_sum_query model_name (pending s)).
    repeat split; congruence.
Qed.

Lemma insert_experiment_batches_ok E model_name bs ids s ids' s' :
  insert_experiment_batches E model_name bs ids s = (Ok ids', s') ->
  ids' = ids ∪ list_to_set (IntId <$> (x_id <$> concat bs)) /\
  metric_models_popularity (pending s') = metric_models_popularity (pending s) /\
  committed s' = committed s /\
  insert_experiments (experiment_row model_name <$> concat bs) (experiments (pending s))
  = Ok (experiments (pending s')).
Proof.
  revert ids s. induction bs as [|batch rest IH]; intros ids s H; simpl in H.
  - inversion H; subst. simpl. repeat split. set_solver.
  - apply bind_inv_ok in H as [[] [s1 [H1 H2]]].
    apply write_ok in H1 as [Hw Hc1].
    unfold stmt_insert_experiments in Hw.
    destruct (insert_experiments _ (experiments (pending s))) as [tbl|] eqn:Hins;
      [|discriminate Hw].
    inversion Hw as [Hdb]. clear Hw.
    destruct (IH _ _ H2) as [-> [Hpop [Hc Hexp]]].
    rewrite <- Hdb in Hpop, Hexp. simpl in Hpop, Hexp.
    rewrite foldl_add_ids. simpl. rewrite !fmap_app, list_to_set_app_L.
    repeat split.
    + set_solver.
    + exact Hpop.
    + congruence.
    + rewrite insert_experiments_app. unfold experiment_row at 1.
      rewrite Hins. exact Hexp.
Qed.

(** An iteration that raises nothing does to the variables what
    [group_effect] says, leaves the popularity table alone and inserts the
    new experiments of the group. *)
Lemma update_group_ok E current_time keys st item s st' s' :
  update_group E current_time keys st item s = (Ok st', s') ->
  st' = group_effect (metric_models_popularity (pending s)) keys current_time st item /\
  metric_models_popularity (pending s') = metric_models_popularity (pending s) /\
  committed s' = committed s /\
  insert_experiments
    (experiment_row (snd (fst item)) <$>
       new_experiments_of (existing_experiment_ids st) (snd item))
    (experiments (pending s))
  = Ok (experiments (pending s')).
Proof.
  destruct item as [[date_key model_name] model_info].
  unfold update_group, group_effect. cbn [fst snd].
  fold (new_experiments_of (existing_experiment_ids st) model_info).
  set (new_experiments := new_experiments_of (existing_experiment_ids st) model_info).
  destruct (Z.of_nat (length new_experiments) =? 0) eqn:Hcount.
  - intros H. inversion H; subst.
    assert (new_experiments = []) as ->.
    { destruct new_experiments; [reflexivity|]. simpl in Hcount. lia. }
    repeat split.
  - intros H. apply bind_inv_ok in H as [hist [s1 [H1 H2]]].
    apply bind_inv_ok in H2 as [ids [s2 [H2 H3]]].
    inversion H3; subst. clear H3.
    apply insert_experiment_batches_ok in H2 as [-> [Hpop [Hc Hexp]]].
    rewrite (concat_batches 100 new_experiments ltac:(lia)) in *.
    assert (Hentries : forall (c t : Z),
      (if bool_decide ((date_key, model_name) ∉ keys)
       then new_model_popularity_entries st ++
              [mk_popularity date_key model_name c t current_time]
       else new_model_popularity_entries st)
      = new_model_popularity_entries st ++
        (if bool_decide ((date_key, model_name) ∉ keys)
         then [mk_popularity date_key model_name c t current_time] else [])).
    { intros c t. case_bool_decide; [reflexivity | rewrite app_nil_r; reflexivity]. }
    rewrite Hentries.
    destruct (models_historical_count st !! model_name) as [v|] eqn:Hh.
    + inversion H1; subst.
      rewrite (lookup_total_correct _ _ _ Hh).
      repeat split; assumption.
    + apply load_historical_count_ok in H1 as [-> [Hp1 Hc1]].
      rewrite lookup_total_insert_eq, insert_insert_eq.
      rewrite Hp1 in *.
      repeat split; try assumption; congruence.
Qed.

Lemma update_groups_ok E current_time keys items st s st' s' :
  update_groups E current_time keys items st s = (Ok st', s') ->
  st' = fold_left (group_effect (metric_models_popularity (pending s)) keys current_time)
          items st /\
  metric_models_popularity (pending s') = metric_models_popularity (pending s) /\
  committed s' = committed s /\
  (exists added,
     experiments (pending s') = experiments (pending s) ++ added /\
     forall r, r ∈ added -> from_groups items r) /\
  ((forall n, IntId n ∈ existing_experiment_ids st -> id_text n ∈ ids_of (pending s)) ->
   forall n, IntId n ∈ existing_experiment_ids st' -> id_text n ∈ ids_of (pending s')).
Proof.
  revert st s. induction items as [|item rest IH]; intros st s H; simpl in H.
  - inversion H; subst. simpl. repeat split; [|tauto].
    exists []. rewrite app_nil_r. split; [reflexivity|]. intros r Hr. inversion Hr.
  - apply bind_inv_ok in H as [st1 [s1 [H1 H2]]].
    apply update_group_ok in H1 as [-> [Hpop1 [Hc1 Hexp1]]].
    destruct (IH _ _ H2) as [-> [Hpop [Hc [[added [Hadd Hfrom]] Hids]]]].
    rewrite Hpop1 in *. simpl.
    apply insert_experiments_ok in Hexp1 as [added1 [Hadd1 [Hfrom1 Hin1]]].
    repeat split; try congruence.
    + exists (added1 ++ added). rewrite Hadd, Hadd1, <- app_assoc.
      split; [reflexivity|]. intros r Hr. apply elem_of_app in Hr as [Hr|Hr].
      * apply Hfrom1 in Hr. apply list_elem_of_fmap in Hr as [x [-> Hx]].
        exists item, x. split; [left|].
        apply list_elem_of_filter in Hx as [_ Hx]. split; [exact Hx | reflexivity].
      * destruct (Hfrom r Hr) as [it [x [Hit Hx]]]. exists it, x.
        split; [right; exact Hit | exact Hx].
    + intros Hst. apply Hids. intros i Hi.
      unfold group_effect in Hi.
      destruct (Z.of_nat (length (new_experiments_of (existing_experiment_ids st) (snd item))) =? 0)
        eqn:Hcount.
      * unfold ids_of. rewrite Hadd1, fmap_app. apply elem_of_app. left.
        apply Hst, Hi.
      * simpl in Hi. apply elem_of_union in Hi as [Hi|Hi].
        -- unfold ids_of. rewrite Hadd1, fmap_app. apply elem_of_app. left.
           apply Hst, Hi.
        -- apply elem_of_list_to_set in Hi.
           apply list_elem_of_fmap in Hi as [n [Hn Hi]]. inversion Hn; subst n.
           apply list_elem_of_fmap in Hi as [x [-> Hx]].
           unfold ids_of.
           apply (Hin1 (experiment_row (snd (fst item)) x)).
           apply list_elem_of_fmap. exists x. split; [reflexivity | exact Hx].
Qed.

(** After an iteration the ids of its group are all in the set, and the
    set has lost nothing. *)
Lemma group_effect_ids rows keys current_time st item :
  existing_experiment_ids st ⊆
    existing_experiment_ids (group_effect rows keys current_time st item) /\
  forall x, x ∈ mi_experiments (snd item) ->
    IntId (x_id x)
      ∈ existing_experiment_ids (group_effect rows keys current_time st item).
Proof.
  unfold group_effect.
  destruct (Z.of_nat (length (new_experiments_of (existing_experiment_ids st) (snd item))) =? 0)
    eqn:Hcount.
  - split; [reflexivity|]. intros x Hx.
    destruct (decide (IntId (x_id x) ∈ existing_experiment_ids st)) as [Hin|Hin];
      [exact Hin|].
    exfalso.
    assert (Hnew : x ∈ new_experiments_of (existing_experiment_ids st) (snd item)).
    { apply list_elem_of_filter. split; assumption. }
    destruct (new_experiments_of (existing_experiment_ids st) (snd item));
      [inversion Hnew | simpl in Hcount; lia].
  - simpl. split; [set_solver|]. intros x Hx.
    destruct (decide (IntId (x_id x) ∈ existing_experiment_ids st)) as [Hin|Hin];
      [set_solver|].
    apply elem_of_union. right. apply elem_of_list_to_set.
    rewrite <- list_fmap_compose.
    apply list_elem_of_fmap. exists x. split; [reflexivity|].
    apply list_elem_of_filter. split; assumption.
Qed.

Lemma fold_effect_ids rows keys current_time items st :
  existing_experiment_ids st ⊆
    existing_experiment_ids (fold_left (group_effect rows keys current_time) items st) /\
  forall item x, item ∈ items -> x ∈ mi_experiments (snd item) ->
    IntId (x_id x) ∈ existing_experiment_ids
                       (fold_left (group_effect rows keys current_time) items st).
Proof.
  revert st. induction items as [|it rest IH]; intros st; simpl.
  - split; [reflexivity|]. intros item x Hin. inversion Hin.
  - destruct (IH (group_effect rows keys current_time st it)) as [Hsub Hcov].
    destruct (group_effect_ids rows keys current_time st it) as [Hsub1 Hcov1].
    split; [set_solver|]. intros item x Hin Hx.
    apply elem_of_cons in Hin as [->|Hin].
    + apply Hsub, Hcov1, Hx.
    + apply (Hcov item x Hin Hx).
Qed.

(** A group is skipped when the int of each of its experiments is in the
    set, which holds only ints added in the same call: nothing is called,
    nothing changes. *)
Lemma update_group_skip E current_time keys st item :
  (forall x, x ∈ mi_experiments (snd item) ->
     IntId (x_id x) ∈ existing_experiment_ids st) ->
  forall s, update_group E current_time keys st item s = (Ok st, s).
Proof.
  intros Hall s. unfold update_group.
  assert (Hnew : filter (fun exp => IntId (x_id exp) ∉ existing_experiment_ids st)
                   (mi_experiments (snd item)) = []).
  { apply elem_of_nil_inv. intros x Hx. apply list_elem_of_filter in Hx as [Hn Hx].
    apply Hn, Hall, Hx. }
  rewrite Hnew. reflexivity.
Qed.

Lemma insert_popularity_batches_ok E bs s s' :
  insert_popularity_batches E bs s = (Ok tt, s') ->
  metric_models_popularity (pending s')
  = insert_popularity (concat bs) (metric_models_popularity (pending s)) /\
  experiments (pending s') = experiments (pending s) /\
  committed s' = committed s.
Proof.
  revert s. induction bs as [|batch rest IH]; intros s H; simpl in H.
  - inversion H; subst. repeat split.
  - apply bind_inv_ok in H as [[] [s1 [H1 H2]]].
    apply write_ok in H1 as [Hw Hc1]. unfold stmt_insert_popularity in Hw.
    inversion Hw as [Hdb]. clear Hw.
    destruct (IH _ H2) as [Hpop [Hexp Hc]].
    rewrite <- Hdb in Hpop, Hexp. simpl in Hpop, Hexp. simpl.
    rewrite insert_popularity_app. repeat split; congruence.
Qed.

(** The statements of a write that raises nothing: the popularity table
    gains the entries of the loop, the experiments table rows made from the
    groups, and every id of every group is in it. *)
Lemma update_statements_ok E models_data current_time s s' :
  update_statements E models_data current_time s = (Ok tt, s') ->
  metric_models_popularity (pending s')
  = insert_popularity
      (new_model_popularity_entries (final_locals (pending s) models_data current_time))
      (metric_models_popularity (pending s)) /\
  committed s' = committed s /\
  (exists added,
     experiments (pending s') = experiments (pending s) ++ added /\
     forall r, r ∈ added -> from_groups models_data r) /\
  (forall item x, item ∈ models_data -> x ∈ mi_experiments (snd item) ->
     id_text (x_id x) ∈ ids_of (pending s')).
Proof.
  unfold update_statements. intros H.
  apply bind_inv_ok in H as [ids [s1 [H1 H]]]. apply read_ok in H1 as [-> [Hp1 Hc1]].
  apply bind_inv_ok in H as [keys [s2 [H2 H]]]. apply read_ok in H2 as [-> [Hp2 Hc2]].
  apply bind_inv_ok in H as [st [s3 [H3 H]]].
  apply update_groups_ok in H3 as [Hst [Hpop3 [Hc3 [[added [Hadd Hfrom]] Hids]]]].
  apply insert_popularity_batches_ok in H as [Hpop [Hexp Hc]].
  rewrite (concat_batches 100 _ ltac:(lia)) in Hpop.
  rewrite Hp2, Hp1 in *.
  unfold final_locals. rewrite <- Hst.
  repeat split; try congruence.
  - exists added. split; [congruence | exact Hfrom].
  - intros item x Hit Hx. unfold ids_of. rewrite Hexp.
    apply Hids.
    + intros n Hn. simpl in Hn. unfold select_experiment_ids in Hn.
      apply elem_of_list_to_set, list_elem_of_fmap in Hn as (i & Hi & _).
      discriminate Hi.
    + rewrite Hst.
      apply (proj2 (fold_effect_ids _ _ _ models_data _) item x Hit Hx).
Qed.

End LoopFacts.

(** ** The transaction of [_update_timescaledb] *)

Section TransactionFacts.
Import Clock Store Sync Laws.

Lemma keeps_load_historical_count E model_name hist :
  keeps_committed (load_historical_count E model_name hist).
Proof.
  apply keeps_bind; [apply keeps_read|]. intros [r|].
  - apply keeps_ret.
  - apply keeps_bind; [apply keeps_read|]. intros res. apply keeps_ret.
Qed.

Lemma keeps_insert_experiment_batches E model_name bs ids :
  keeps_committed (insert_experiment_batches E model_name bs ids).
Proof.
  revert ids. induction bs as [|batch rest IH]; intros ids; simpl.
  - apply keeps_ret.
  - apply keeps_bind; [apply keeps_write|]. intros _. apply IH.
Qed.

Lemma keeps_update_group E current_time keys st item :
  keeps_committed (update_group E current_time keys st item).
Proof.
  unfold update_group.
  destruct (Z.of_nat _ =? 0); [apply keeps_ret|].
  apply keeps_bind.
  - destruct (models_historical_count st !! _);
      [apply keeps_ret | apply keeps_load_historical_count].
  - intros hist. apply keeps_bind; [apply keeps_insert_experiment_batches|].
    intros ids. apply keeps_ret.
Qed.

Lemma keeps_update_groups E current_time keys items st :
  keeps_committed (update_groups E current_time keys items st).
Proof.
  revert st. induction items as [|item rest IH]; intros st; simpl.
  - apply keeps_ret.
  - apply keeps_bind; [apply keeps_update_group|]. intros st'. apply IH.
Qed.

Lemma keeps_insert_popularity_batches E bs :
  keeps_committed (insert_popularity_batches E bs).
Proof.
  induction bs as [|batch rest IH]; simpl.
  - apply keeps_ret.
  - apply keeps_bind; [apply keeps_write|]. intros _. exact IH.
Qed.

(** Before the commit nothing reaches the committed tables. *)
Lemma keeps_update_statements E models_data current_time :
  keeps_committed (update_statements E models_data current_time).
Proof.
  unfold update_statements.
  apply keeps_bind; [apply keeps_read|]. intros ids.
  apply keeps_bind; [apply keeps_read|]. intros keys.
  apply keeps_bind; [apply keeps_update_groups|]. intros st.
  apply keeps_insert_popularity_batches.
Qed.

Lemma refresh_tsdb E W : tsdb (snd (refresh_materialized_views E W)) = tsdb W.
Proof.
  unfold refresh_materialized_views. destruct (refresh_fails E (refreshes W)); reflexivity.
Qed.

Lemma refresh_count E W :
  refreshes (snd (refresh_materialized_views E W)) = S (refreshes W).
Proof.
  unfold refresh_materialized_views. destruct (refresh_fails E (refreshes W)); reflexivity.
Qed.

Lemma refresh_result E W :
  fst (refresh_materialized_views E W)
  = if refresh_fails E (refreshes W) then Raise DatabaseException else Ok tt.
Proof.
  unfold refresh_materialized_views. destruct (refresh_fails E (refreshes W)); reflexivity.
Qed.

Lemma refresh_log E W :
  exists l, log (snd (refresh_materialized_views E W)) = log W ++ l.
Proof.
  unfold refresh_materialized_views. destruct (refresh_fails E (refreshes W));
    simpl; rewrite <- app_assoc; eexists; reflexivity.
Qed.

Lemma commit_inv E s r s' :
  (_ <- session_flush ;; session_commit E) s = (r, s') ->
  (r = Ok tt /\ committed s' = pending s) \/
  ((exists e, r = Raise e) /\ committed s' = committed s).
Proof.
  unfold session_flush, session_commit, bind, ret, roundtrip.
  destruct (db_fails E (calls s)); intros H; inversion H; subst; simpl.
  - right. split; [eexists; reflexivity | reflexivity].
  - left. split; reflexivity.
Qed.

(** What [_update_timescaledb] leaves behind: the tables as they were and
    no refresh when it raises; the pending tables of its statements and one
    refresh when it returns. *)
Lemma update_timescaledb_inv E models_data current_time W :
  let out := _update_timescaledb E models_data current_time W in
  ((exists e, fst out = Raise e) /\ tsdb (snd out) = tsdb W /\
   refreshes (snd out) = refreshes W /\ mv (snd out) = mv W) \/
  (fst out = Ok tt /\ refreshes (snd out) = S (refreshes W) /\
   exists s s1,
     update_statements E models_data current_time (mk_session (tsdb W) (tsdb W) 0)
     = (Ok tt, s) /\
     (_ <- session_flush ;; session_commit E) s = (Ok tt, s1) /\
     tsdb (snd out) = pending s).
Proof.
  unfold _update_timescaledb.
  destruct (update_statements E models_data current_time (mk_session (tsdb W) (tsdb W) 0))
    as [[[]|e] s] eqn:Hst.
  - destruct ((_ <- session_flush ;; session_commit E) s) as [[[]|e] s1] eqn:Hco.
    + right. destruct (commit_inv _ _ _ _ Hco) as [[_ Hc] | [[e He] _]]; [|discriminate He].
      set (W1 := set_tsdb (committed s1) W).
      pose proof (refresh_tsdb E W1) as Ht. pose proof (refresh_count E W1) as Hn.
      destruct (refresh_materialized_views E W1) as [[[]|e] W2]; simpl in *;
        (split; [reflexivity|]; split; [exact Hn|];
         exists s, s1; split; [first [reflexivity | assumption]|];
         split; [first [reflexivity | assumption]|]; congruence).
    + left. destruct (commit_inv _ _ _ _ Hco) as [[He _] | [_ Hc]]; [discriminate He|].
      simpl. split; [eexists; reflexivity|].
      rewrite Hc. rewrite (keeps_update_statements _ _ _ _ _ _ Hst). repeat split.
  - left. simpl. split; [eexists; reflexivity|].
    rewrite (keeps_update_statements _ _ _ _ _ _ Hst). repeat split.
Qed.

End TransactionFacts.

(** ** One synchronisation *)

Section CycleFacts.
Import Clock Store Sync Laws Scenarios.

Lemma execute_task_nonempty w E src W x rest models_data :
  _extract_autosubmit_experiments w E src = Ok (x :: rest) ->
  _process_experiments (x :: rest) = Ok models_data ->
  let out := _update_timescaledb E models_data (current_time w) (at_write W) in
  let W1 := match fst out with
            | Ok _ => snd out
            | Raise _ => say ERROR "Error during database update" (snd out)
            end in
  execute_task w E src W =
  match refresh_materialized_views E W1 with
  | (Raise e, W2) =>
      (Raise e, say ERROR "Error during Autosubmit data synchronization" W2)
  | (Ok _, W2) => (Ok tt, say INFO "Successfully synchronized experiments" W2)
  end.
Proof.
  intros Hex Hpr. unfold execute_task. rewrite Hex, Hpr. cbv zeta. fold (at_write W).
  destruct (_update_timescaledb E models_data (current_time w) (at_write W))
    as [[[]|e] W1]; simpl;
    destruct (refresh_materialized_views E _) as [[[]|e'] W2]; reflexivity.
Qed.

(** An experiment without a date: the cycle raises before any session is
    opened on the store, and before any refresh. *)
Lemma execute_task_undated w E src W x rest e :
  _extract_autosubmit_experiments w E src = Ok (x :: rest) ->
  _process_experiments (x :: rest) = Raise e ->
  execute_task w E src W
  = (Raise e, say ERROR "Error during Autosubmit data synchronization" (at_write W)).
Proof.
  intros Hex Hpr. unfold execute_task. rewrite Hex, Hpr. reflexivity.
Qed.

(** The two ways a cycle that reaches the write can go. *)
Lemma cycle_write_inv w E src W x rest models_data :
  _extract_autosubmit_experiments w E src = Ok (x :: rest) ->
  _process_experiments (x :: rest) = Ok models_data ->
  let out := _update_timescaledb E models_data (current_time w) (at_write W) in
  let cyc := execute_task w E src W in
  tsdb (snd cyc) = tsdb (snd out) /\
  ((fst out = Ok tt /\
    exists s,
      update_statements E models_data (current_time w)
        (mk_session (tsdb W) (tsdb W) 0) = (Ok tt, s) /\
      tsdb (snd out) = pending s)
   \/
   ((exists e, fst out = Raise e) /\
    tsdb (snd out) = tsdb W /\
    (ERROR, "Error during database update") ∈ log (snd cyc) /\
    fst cyc = if refresh_fails E (refreshes W) then Raise DatabaseException else Ok tt)).
Proof.
  intros Hex Hpr out cyc. unfold cyc.
  rewrite (execute_task_nonempty _ _ _ _ _ _ _ Hex Hpr).
  fold out.
  pose proof (update_timescaledb_inv E models_data (current_time w) (at_write W))
    as Hinv. cbv zeta in Hinv. fold out in Hinv. cbn [at_write extracted say tsdb refreshes mv] in Hinv.
  destruct Hinv as [[[e He] [Ht [Hn Hm]]] | [Hok [Hn [s [s1 [Hst [Hco Ht]]]]]]].
  - rewrite He.
    set (W1 := say ERROR "Error during database update" (snd out)).
    pose proof (refresh_tsdb E W1) as Ht2. pose proof (refresh_result E W1) as Hr.
    destruct (refresh_log E W1) as [l Hl].
    assert (Hin : forall extra,
              (ERROR, "Error during database update")
                ∈ log (snd (refresh_materialized_views E W1)) ++ extra).
    { intros extra. rewrite Hl. unfold W1. simpl.
      apply elem_of_app. left. apply elem_of_app. left.
      apply elem_of_app. right. left. }
    change (refreshes W1) with (refreshes (snd out)) in Hr. rewrite Hn in Hr.
    destruct (refresh_materialized_views E W1) as [[[]|e'] W2] eqn:Href;
      simpl in Ht2, Hr, Hin; simpl;
      (split; [exact Ht2|]; right; split; [eexists; reflexivity|];
       split; [exact Ht|]; split; [apply Hin | exact Hr]).
  - rewrite Hok.
    pose proof (refresh_tsdb E (snd out)) as Ht2.
    destruct (refresh_materialized_views E (snd out)) as [[[]|e'] W2]; simpl in *;
      (split; [exact Ht2|]; left; split; [reflexivity|]; exists s; split; assumption).
Qed.

(** C1, as the code has it: the write of a cycle is one transaction. When
    its statements and its commit go through, the store holds all of it;
    when anything raises, the store is as it was before the cycle,
    [execute_task] logs the error and goes on to the refresh of the views,
    whose outcome it returns: the error of the write is not raised again.
    A cycle that raises before the write, on an experiment without a date,
    opens no session and leaves the store as it was. *)
Theorem update_is_all_or_nothing w E src W x rest :
  _extract_autosubmit_experiments w E src = Ok (x :: rest) ->
  let cyc := execute_task w E src W in
  match _process_experiments (x :: rest) with
  | Raise e => fst cyc = Raise e /\ tsdb (snd cyc) = tsdb W
  | Ok models_data =>
      let out := _update_timescaledb E models_data (current_time w) (at_write W) in
      tsdb (snd cyc) = tsdb (snd out) /\
      ((fst out = Ok tt /\
        exists s,
          update_statements E models_data (current_time w)
            (mk_session (tsdb W) (tsdb W) 0) = (Ok tt, s) /\
          tsdb (snd out) = pending s)
       \/
       ((exists e, fst out = Raise e) /\
        tsdb (snd out) = tsdb W /\
        (ERROR, "Error during database update") ∈ log (snd cyc) /\
        fst cyc = if refresh_fails E (refreshes W) then Raise DatabaseException else Ok tt))
  end.
Proof.
  intros Hex. cbv zeta.
  destruct (_process_experiments (x :: rest)) as [models_data|e] eqn:Hpr.
  - apply (cycle_write_inv w E src W x rest models_data Hex Hpr).
  - rewrite (execute_task_undated w E src W x rest e Hex Hpr). split; reflexivity.
Qed.

Lemma update_is_all_or_nothing_witness :
  let x := mk_exp_data 1 "alice" "EC-Earth" "main" "marenostrum" (Some (date 2023 1 1)) "a001" in
  let rest := [mk_exp_data 2 "bob" "EC-Earth" "main" "marenostrum" (Some (date 2023 1 1)) "a002"] in
  _extract_autosubmit_experiments worker popularity_insert_fails src_A = Ok (x :: rest) /\
  tsdb (snd (execute_task worker popularity_insert_fails src_A empty_world)) = empty_db.
Proof.
  intros x rest. split; [reflexivity|].
  pose proof (update_is_all_or_nothing worker popularity_insert_fails src_A empty_world
                x rest eq_refl) as H.
  cbv zeta in H.
  destruct (_process_experiments (x :: rest)) as [models_data|e] eqn:Hpr;
    [|discriminate Hpr].
  destruct H as [Ht _]. rewrite Ht.
  vm_compute in Hpr. inversion Hpr; subst models_data. vm_compute. reflexivity.
Defined.

(** C1 as stated fails: here the insert of the popularity rows raises, the
    write is rolled back, and [execute_task] returns as if nothing had
    happened. *)
Lemma update_error_not_propagated :
  exists models_data,
    _process_experiments
      [mk_exp_data 1 "alice" "EC-Earth" "main" "marenostrum" (Some (date 2023 1 1)) "a001";
       mk_exp_data 2 "bob" "EC-Earth" "main" "marenostrum" (Some (date 2023 1 1)) "a002"]
    = Ok models_data /\
    fst (_update_timescaledb popularity_insert_fails models_data
           (current_time worker) (at_write empty_world))
    = Raise OperationalError /\
    tsdb (snd (execute_task worker popularity_insert_fails src_A empty_world)) = empty_db /\
    fst (execute_task worker popularity_insert_fails src_A empty_world) = Ok tt.
Proof. eexists. split; [reflexivity|]. vm_compute. repeat split. Qed.

(** C3, as the code has it: inside [_update_timescaledb] the views are
    refreshed only after a successful commit; [execute_task] then refreshes
    them once more whether the write went through or not; and once the
    statements and the commit have gone through, the store holds the write
    whatever the refreshes do. A cycle that raises before the write, on an
    experiment without a date, refreshes nothing. *)
Theorem refresh_is_issued_whenever_the_write_is_tried w E src W x rest :
  _extract_autosubmit_experiments w E src = Ok (x :: rest) ->
  let cyc := execute_task w E src W in
  match _process_experiments (x :: rest) with
  | Raise e =>
      fst cyc = Raise e /\ refreshes (snd cyc) = refreshes W /\
      mv (snd cyc) = mv W /\ tsdb (snd cyc) = tsdb W
  | Ok models_data =>
      let out := _update_timescaledb E models_data (current_time w) (at_write W) in
      refreshes (snd out)
        = (match fst out with Ok _ => S (refreshes W) | Raise _ => refreshes W end) /\
      refreshes (snd cyc) = S (refreshes (snd out)) /\
      tsdb (snd cyc) = tsdb (snd out) /\
      (forall s s1,
         update_statements E models_data (current_time w)
           (mk_session (tsdb W) (tsdb W) 0) = (Ok tt, s) ->
         (_ <- session_flush ;; session_commit E) s = (Ok tt, s1) ->
         fst out = Ok tt /\ tsdb (snd out) = pending s /\ tsdb (snd cyc) = pending s)
  end.
Proof.
  intros Hex. cbv zeta.
  destruct (_process_experiments (x :: rest)) as [models_data|e0] eqn:Hpr;
    [|rewrite (execute_task_undated w E src W x rest e0 Hex Hpr); repeat split].
  set (out := _update_timescaledb E models_data (current_time w) (at_write W)).
  set (cyc := execute_task w E src W).
  assert (Hcyc : refreshes (snd cyc) = S (refreshes (snd out)) /\
                 tsdb (snd cyc) = tsdb (snd out)).
  { unfold cyc. rewrite (execute_task_nonempty _ _ _ _ _ _ _ Hex Hpr). fold out.
    set (W1 := match fst out with
               | Ok _ => snd out
               | Raise _ => say ERROR "Error during database update" (snd out)
               end).
    assert (HW1 : refreshes W1 = refreshes (snd out) /\ tsdb W1 = tsdb (snd out))
      by (unfold W1; destruct (fst out); split; reflexivity).
    pose proof (refresh_tsdb E W1) as Ht. pose proof (refresh_count E W1) as Hn.
    destruct (refresh_materialized_views E W1) as [[[]|e'] W2]; simpl in *;
      destruct HW1 as [H1 H2]; split; congruence. }
  destruct Hcyc as [Hc1 Hc2].
  pose proof (update_timescaledb_inv E models_data (current_time w) (at_write W))
    as Hinv. cbv zeta in Hinv. fold out in Hinv. cbn [at_write extracted say tsdb refreshes mv] in Hinv.
  destruct Hinv as [[[e He] [Ht [Hn Hm]]] | [Hok [Hn [s0 [s2 [Hst0 [Hco0 Ht]]]]]]].
  - rewrite He. split; [exact Hn|]. split; [exact Hc1|]. split; [exact Hc2|].
    intros s s1 Hst Hco. exfalso. revert He.
    unfold out, _update_timescaledb. change (tsdb (at_write W)) with (tsdb W).
    rewrite Hst, Hco.
    destruct (refresh_materialized_views E _) as [[[]|?] ?]; discriminate.
  - rewrite Hok. split; [exact Hn|]. split; [exact Hc1|]. split; [exact Hc2|].
    intros s s1 Hst Hco. rewrite Hst0 in Hst. inversion Hst; subst.
    repeat split; congruence.
Qed.

Lemma refresh_is_issued_whenever_the_write_is_tried_witness :
  let x := mk_exp_data 1 "alice" "EC-Earth" "main" "marenostrum" (Some (date 2023 1 1)) "a001" in
  let rest := [mk_exp_data 2 "bob" "EC-Earth" "main" "marenostrum" (Some (date 2023 1 1)) "a002"] in
  _extract_autosubmit_experiments worker healthy src_A = Ok (x :: rest) /\
  refreshes (snd (execute_task worker healthy src_A empty_world)) = 2%nat.
Proof.
  intros x rest. split; [reflexivity|].
  pose proof (refresh_is_issued_whenever_the_write_is_tried worker healthy src_A empty_world
                x rest eq_refl) as H.
  cbv zeta in H.
  destruct (_process_experiments (x :: rest)) as [models_data|e] eqn:Hpr;
    [|discriminate Hpr].
  destruct H as [Hn [Hc _]]. rewrite Hc, Hn.
  vm_compute in Hpr. inversion Hpr; subst models_data. vm_compute. reflexivity.
Defined.

(** C3 as stated fails: here the write raises and is rolled back, and the
    views are refreshed all the same. *)
Lemma refresh_after_failed_update :
  exists models_data,
    _process_experiments
      [mk_exp_data 1 "alice" "EC-Earth" "main" "marenostrum" (Some (date 2023 1 1)) "a001";
       mk_exp_data 2 "bob" "EC-Earth" "main" "marenostrum" (Some (date 2023 1 1)) "a002"]
    = Ok models_data /\
    fst (_update_timescaledb popularity_insert_fails models_data
           (current_time worker) (at_write empty_world))
    = Raise OperationalError /\
    refreshes (snd (execute_task worker popularity_insert_fails src_A empty_world)) = 1%nat /\
    mv (snd (execute_task worker popularity_insert_fails src_A empty_world)) = Some [].
Proof. eexists. split; [reflexivity|]. vm_compute. repeat split. Qed.

End CycleFacts.

(** ** [_process_experiments] *)

Section ProcessFacts.
Import Clock Store Sync Laws.

Lemma dict_alter_keys f k (d : dict) : fst <$> dict_alter f k d = fst <$> d.
Proof.
  induction d as [|[k' v'] rest IH]; [reflexivity|].
  cbn [dict_alter]. case_bool_decide; rewrite !fmap_cons; cbn [fst];
    [reflexivity | f_equal; exact IH].
Qed.

Lemma dict_alter_elem f k (d : dict) item :
  item ∈ dict_alter f k d ->
  exists v, (fst item, v) ∈ d /\ (snd item = v \/ (fst item = k /\ snd item = f v)).
Proof.
  induction d as [|[k' v'] rest IH]; simpl; [intros H; inversion H|].
  case_bool_decide as Hk.
  - intros H. apply elem_of_cons in H as [->|H].
    + exists v'. split; [left | right; split; [exact Hk | reflexivity]].
    + exists (snd item). destruct item. split; [right; exact H | left; reflexivity].
  - intros H. apply elem_of_cons in H as [->|H].
    + exists v'. split; [left | left; reflexivity].
    + destruct (IH H) as [v [Hin Hv]]. exists v. split; [right; exact Hin | exact Hv].
Qed.

Lemma dict_set_fresh k v (d : dict) :
  k ∉ fst <$> d -> dict_set k v d = d ++ [(k, v)].
Proof.
  induction d as [|[k' v'] rest IH]; simpl; intros Hk; [reflexivity|].
  apply not_elem_of_cons in Hk as [Hne Hk].
  rewrite bool_decide_eq_false_2 by congruence. rewrite (IH Hk). reflexivity.
Qed.

(** An experiment is filed when it has a date, and only then. *)
Lemma process_one_dated (d : dict) (exp : exp_data) :
  match process_one d exp with
  | Ok _ => credated exp <> None
  | Raise e => e = AttributeError /\ credated exp = None
  end.
Proof.
  unfold process_one. destruct (credated exp); [discriminate | split; reflexivity].
Qed.

Lemma process_one_filed exps d exp d' :
  filed exps d -> process_one d exp = Ok d' -> filed (exps ++ [exp]) d'.
Proof.
  intros [Hnd [Hkeys Hents]]. unfold process_one.
  destruct (credated exp) as [created|] eqn:Hcre; [|discriminate].
  intros Heq. inversion Heq as [Hd']. clear Heq Hd'.
  assert (Hkey : key_of exp = Some (replace_midnight created, model exp))
    by (unfold key_of; rewrite Hcre; reflexivity).
  assert (Hentry : entry_of exp = Some (mk_entry (exp_id exp) (name exp) created))
    by (unfold entry_of; rewrite Hcre; reflexivity).
  set (k := (replace_midnight created, model exp) : key) in *.
  set (d1 := if negb (dict_contains k d)
             then dict_set k (mk_info (model exp) (replace_midnight created) 0 []) d
             else d).
  assert (Hd1 : NoDup (fst <$> d1) /\
                forall item : key * model_info, item ∈ d1 ->
                  item ∈ d \/ (fst item = k /\ mi_experiments (snd item) = [])).
  { unfold d1, dict_contains. case_bool_decide as Hin; simpl.
    - split; [exact Hnd|]. intros item Hitem. left. exact Hitem.
    - rewrite (dict_set_fresh _ _ _ Hin). split.
      + rewrite fmap_app. apply NoDup_app. split; [exact Hnd|]. split.
        * intros x Hx Hx'. simpl in Hx'. apply list_elem_of_singleton in Hx'.
          subst x. apply Hin, Hx.
        * simpl. apply NoDup_singleton.
      + intros item Hitem. apply elem_of_app in Hitem as [Hitem|Hitem]; [left; exact Hitem|].
        apply list_elem_of_singleton in Hitem. subst item. right. split; reflexivity. }
  destruct Hd1 as [Hnd1 Hd1].
  assert (Hexp : exp ∈ exps ++ [exp]) by (apply elem_of_app; right; left).
  assert (Hold : forall item : key * model_info, item ∈ d1 ->
            (exists e, e ∈ exps ++ [exp] /\ key_of e = Some (fst item)) /\
            (forall x, x ∈ mi_experiments (snd item) ->
               exists e, e ∈ exps ++ [exp] /\ entry_of e = Some x /\
                 key_of e = Some (fst item))).
  { intros item Hitem. destruct (Hd1 item Hitem) as [Hin | [Hk Hnil]].
    - split.
      + destruct (Hkeys item Hin) as [e [He Hke]]. exists e.
        split; [apply elem_of_app; left; exact He | exact Hke].
      + intros x Hx. destruct (Hents item x Hin Hx) as [e [He Hxe]]. exists e.
        split; [apply elem_of_app; left; exact He | exact Hxe].
    - split.
      + exists exp. split; [exact Hexp | rewrite Hk; exact Hkey].
      + intros x Hx. rewrite Hnil in Hx. inversion Hx. }
  split; [rewrite !dict_alter_keys; exact Hnd1|].
  assert (Hitem : forall item : key * model_info,
            item ∈ dict_alter
                     (fun info => mk_info (mi_model info) (mi_time info)
                                    (mi_count info + 1) (mi_experiments info)) k
                     (dict_alter
                        (fun info => mk_info (mi_model info) (mi_time info) (mi_count info)
                                       (mi_experiments info ++
                                        [mk_entry (exp_id exp) (name exp) created]))
                        k d1) ->
            exists v0, (fst item, v0) ∈ d1 /\
              (mi_experiments (snd item) = mi_experiments v0 \/
               (fst item = k /\
                mi_experiments (snd item)
                = mi_experiments v0 ++ [mk_entry (exp_id exp) (name exp) created]))).
  { intros item Hin. apply dict_alter_elem in Hin as [v [Hin Hv]].
    apply dict_alter_elem in Hin as [v0 [Hin Hv0]]. simpl in Hin, Hv0.
    exists v0. split; [exact Hin|].
    destruct Hv as [Hv | [Hk Hv]]; rewrite Hv; simpl;
      destruct Hv0 as [Hv0 | [Hk0 Hv0]]; rewrite Hv0; simpl; auto. }
  split.
  - intros item Hin. destruct (Hitem item Hin) as [v0 [Hin0 _]].
    apply (proj1 (Hold _ Hin0)).
  - intros item x Hin Hx. destruct (Hitem item Hin) as [v0 [Hin0 Hv]].
    destruct Hv as [Hv | [Hk Hv]]; rewrite Hv in Hx.
    + apply (proj2 (Hold _ Hin0) x Hx).
    + apply elem_of_app in Hx as [Hx|Hx]; [apply (proj2 (Hold _ Hin0) x Hx)|].
      apply list_elem_of_singleton in Hx. subst x. exists exp.
      split; [exact Hexp|]. split; [exact Hentry | rewrite Hk; exact Hkey].
Qed.

Lemma process_from_filed exps d seen d' :
  filed seen d -> process_from d exps = Ok d' -> filed (seen ++ exps) d'.
Proof.
  revert d seen. induction exps as [|exp rest IH]; intros d seen Hd; simpl.
  - intros [= <-]. rewrite app_nil_r. exact Hd.
  - destruct (process_one d exp) as [d1|e] eqn:H1; [|discriminate]. intros Hrest.
    replace (seen ++ exp :: rest) with ((seen ++ [exp]) ++ rest)
      by (rewrite <- app_assoc; reflexivity).
    apply (IH d1); [|exact Hrest]. apply (process_one_filed _ _ _ _ Hd H1).
Qed.

(** The groups have distinct keys; every group and every entry of a group
    comes from an experiment of the list, filed under its day and model. *)
Lemma process_experiments_filed exps d :
  _process_experiments exps = Ok d -> filed exps d.
Proof.
  apply (process_from_filed exps [] []).
  split; [apply NoDup_nil_2|]. split; [intros item H; inversion H|].
  intros item x H. inversion H.
Qed.

End ProcessFacts.

(** ** What a cycle adds to the store *)

Section NewRowsFacts.
Import Clock Store Sync Laws.

(** The entries the loop collects: one at most for a group, under the key
    of the group, stamped with [current_time], never under a key that is
    already in the table. *)
Lemma fold_effect_entries rows keys current_time items st :
  exists added,
    new_model_popularity_entries (fold_left (group_effect rows keys current_time) items st)
    = new_model_popularity_entries st ++ added /\
    (popularity_key <$> added) `sublist_of` (fst <$> items) /\
    forall b, b ∈ added ->
      p_extracted_time b = current_time /\ (popularity_key b ∉ keys) /\ 0 < p_count b.
Proof.
  revert st. induction items as [|item rest IH]; intros st; simpl.
  - exists []. rewrite app_nil_r. split; [reflexivity|].
    split; [constructor|]. intros b Hb. inversion Hb.
  - destruct (IH (group_effect rows keys current_time st item)) as [added [-> [Hsub Hprop]]].
    unfold group_effect.
    destruct (Z.of_nat (length (new_experiments_of (existing_experiment_ids st) (snd item))) =? 0)
      eqn:Hcount.
    + exists added. split; [reflexivity|]. split; [|exact Hprop].
      apply sublist_cons, Hsub.
    + simpl. case_bool_decide as Hkey.
      * eexists (_ :: added). rewrite <- app_assoc. split; [reflexivity|]. split.
        -- rewrite fmap_cons. unfold popularity_key at 1. simpl.
           destruct item as [[d m] info]. simpl. apply sublist_skip, Hsub.
        -- intros b Hb. apply elem_of_cons in Hb as [->|Hb]; [|apply Hprop, Hb].
           simpl. split; [reflexivity|]. split.
           ++ unfold popularity_key. simpl. destruct item as [[d m] info]. exact Hkey.
           ++ apply Z.eqb_neq in Hcount. lia.
      * exists added. rewrite app_nil_r. split; [reflexivity|]. split; [|exact Hprop].
        apply sublist_cons, Hsub.
Qed.

(** A cycle leaves the store as it was, or its statements and its commit
    went through and the store holds their pending tables. *)
Lemma cycle_store w E src W :
  tsdb (snd (execute_task w E src W)) = tsdb W \/
  exists x rest models_data s,
    _extract_autosubmit_experiments w E src = Ok (x :: rest) /\
    _process_experiments (x :: rest) = Ok models_data /\
    fst (_update_timescaledb E models_data (current_time w) (at_write W)) = Ok tt /\
    update_statements E models_data (current_time w)
      (mk_session (tsdb W) (tsdb W) 0) = (Ok tt, s) /\
    tsdb (snd (execute_task w E src W)) = pending s.
Proof.
  destruct (_extract_autosubmit_experiments w E src) as [[|x rest]|e] eqn:Hex.
  - left. unfold execute_task. rewrite Hex. reflexivity.
  - destruct (_process_experiments (x :: rest)) as [models_data|e] eqn:Hpr.
    + destruct (cycle_write_inv w E src W x rest models_data Hex Hpr)
        as [Ht [[Hok [s [Hst Hp]]] | [_ [Hsame _]]]].
      * right. exists x, rest, models_data, s. repeat split; try assumption. congruence.
      * left. congruence.
    + left. rewrite (execute_task_undated w E src W x rest e Hex Hpr). reflexivity.
  - left. unfold execute_task. rewrite Hex. reflexivity.
Qed.

(** The rows a cycle adds: experiments made from the groups of what was
    extracted, popularity rows under keys of those groups and stamped with
    the time the worker was given at its construction. *)
Lemma cycle_new_rows w E src W :
  exists exps models_data added_experiments added_popularity,
    (added_experiments <> [] \/ added_popularity <> [] ->
     _extract_autosubmit_experiments w E src = Ok exps /\
     _process_experiments exps = Ok models_data) /\
    experiments (tsdb (snd (execute_task w E src W)))
    = experiments (tsdb W) ++ added_experiments /\
    metric_models_popularity (tsdb (snd (execute_task w E src W)))
    = metric_models_popularity (tsdb W) ++ added_popularity /\
    (forall r, r ∈ added_experiments -> from_groups models_data r) /\
    (forall b, b ∈ added_popularity ->
       p_extracted_time b = current_time w /\
       popularity_key b ∈ fst <$> models_data).
Proof.
  destruct (cycle_store w E src W)
    as [Hsame | [x [rest [models_data [s [Hex [Hpr [_ [Hst Ht]]]]]]]]].
  - exists [], [], [], []. rewrite Hsame, !app_nil_r.
    split; [intros [Hne|Hne]; contradiction|].
    split; [reflexivity|]. split; [reflexivity|].
    split; intros ? Hin; inversion Hin.
  - apply update_statements_ok in Hst as [Hpop [_ [[addedE [HaddE HfromE]] _]]].
    simpl in Hpop, HaddE.
    destruct (insert_popularity_rows
                (new_model_popularity_entries
                   (final_locals (tsdb W) models_data (current_time w)))
                (metric_models_popularity (tsdb W))) as [addedP [HaddP HfromP]].
    exists (x :: rest), models_data, addedE, addedP. rewrite Ht.
    split; [intros _; split; assumption|].
    split; [exact HaddE|]. split; [congruence|]. split; [exact HfromE|].
    intros b Hb. apply HfromP in Hb. unfold final_locals in Hb.
    destruct (fold_effect_entries (metric_models_popularity (tsdb W))
                (select_popularity_keys (tsdb W)) (current_time w)
                models_data
                (mk_locals (select_experiment_ids (tsdb W)) ∅ []))
      as [added [Heq [Hsub Hprop]]].
    rewrite Heq in Hb. simpl in Hb.
    split; [apply (Hprop b Hb)|].
    apply (elem_of_sublist (popularity_key <$> added)); [|exact Hsub].
    apply list_elem_of_fmap. exists b. split; [reflexivity | exact Hb].
Qed.

End NewRowsFacts.

(** ** Extraction, timestamps, replays and the scenarios *)

Section CycleProperties.
Import Names Clock Store Sync Laws Scenarios.

Lemma extract_inv w E src exps :
  _extract_autosubmit_experiments w E src = Ok exps ->
  forall x, x ∈ exps ->
    exists n d, d ∈ src /\ (d_model d ∉ invalid_model_values w) /\
      exp_id x = d_exp_id d /\ model x = _clean_model_name (d_model d) /\
      name x = d_name d /\ credated x = d_credated E n d.
Proof.
  unfold _extract_autosubmit_experiments. destruct (source_fails E); [discriminate|].
  intros H x Hx. inversion H; subst. clear H.
  apply elem_of_lookup_imap in Hx as (n & d & -> & Hd).
  apply list_elem_of_lookup_2, list_elem_of_filter in Hd as [Hm Hd].
  exists n, d. repeat split; assumption.
Qed.

(** The ids of the extracted experiments are those of the valid rows. *)
Lemma extract_ids w E src exps :
  _extract_autosubmit_experiments w E src = Ok exps ->
  exp_id <$> exps
  = d_exp_id <$> filter (fun detail => d_model detail ∉ invalid_model_values w) src.
Proof.
  unfold _extract_autosubmit_experiments. destruct (source_fails E); [discriminate|].
  intros [= <-]. rewrite fmap_imap, <- (imap_const d_exp_id).
  apply imap_ext. intros i d _. reflexivity.
Qed.

(** C6, as the code has it: the filter reads the raw model, the cleaning
    comes after. Every extracted experiment, every experiment row and every
    popularity row a cycle adds carries the cleaned form of a raw model that
    is not one of the invalid values. *)
Theorem invalid_raw_models_are_excluded w E src W :
  (forall exps, _extract_autosubmit_experiments w E src = Ok exps ->
     forall x, x ∈ exps ->
       exists d, d ∈ src /\ (d_model d ∉ invalid_model_values w) /\
         exp_id x = d_exp_id d /\ model x = _clean_model_name (d_model d)) /\
  (forall r, r ∈ experiments (tsdb (snd (execute_task w E src W))) ->
     r ∈ experiments (tsdb W) \/
     exists d, d ∈ src /\ (d_model d ∉ invalid_model_values w) /\
       e_id r = id_text (d_exp_id d) /\ e_model r = _clean_model_name (d_model d)) /\
  (forall b, b ∈ metric_models_popularity (tsdb (snd (execute_task w E src W))) ->
     b ∈ metric_models_popularity (tsdb W) \/
     exists d, d ∈ src /\ (d_model d ∉ invalid_model_values w) /\
       p_model b = _clean_model_name (d_model d)).
Proof.
  split; [|split].
  - intros exps Hex x Hx. destruct (extract_inv w E src exps Hex x Hx) as [n [d Hd]].
    exists d. tauto.
  - intros r Hr.
    destruct (cycle_new_rows w E src W)
      as [exps [models_data [addedE [addedP [Hex [HE [_ [HfromE _]]]]]]]].
    rewrite HE in Hr. apply elem_of_app in Hr as [Hr|Hr]; [left; exact Hr|]. right.
    destruct Hex as [Hex' Hpr]; [left; intros ->; inversion Hr|].
    destruct (HfromE r Hr) as [item [x [Hitem [Hx ->]]]].
    destruct (process_experiments_filed exps models_data Hpr) as [_ [_ Hents]].
    destruct (Hents item x Hitem Hx) as [e [He [Hentry Hkey]]].
    destruct (extract_inv w E src exps Hex' e He) as [n [d [Hd [Hm [Hid [Hmod _]]]]]].
    exists d. split; [exact Hd|]. split; [exact Hm|].
    unfold entry_of in Hentry. unfold key_of in Hkey.
    destruct (credated e) as [created|]; [|discriminate Hentry].
    destruct item as [[dk mk] info].
    cbn in Hentry, Hkey. inversion Hentry; subst x. inversion Hkey; subst.
    cbn. split; [rewrite Hid; reflexivity | exact Hmod].
  - intros b Hb.
    destruct (cycle_new_rows w E src W)
      as [exps [models_data [addedE [addedP [Hex [_ [HP [_ HfromP]]]]]]]].
    rewrite HP in Hb. apply elem_of_app in Hb as [Hb|Hb]; [left; exact Hb|]. right.
    destruct Hex as [Hex' Hpr]; [right; intros ->; inversion Hb|].
    destruct (HfromP b Hb) as [_ Hkey].
    apply list_elem_of_fmap in Hkey as [item [Hk Hitem]].
    destruct (process_experiments_filed exps models_data Hpr) as [_ [Hkeys _]].
    destruct (Hkeys item Hitem) as [e [He Hke]].
    destruct (extract_inv w E src exps Hex' e He) as [n [d [Hd [Hm [_ [Hmod _]]]]]].
    exists d. split; [exact Hd|]. split; [exact Hm|].
    rewrite <- Hmod. unfold key_of in Hke.
    destruct (credated e) as [created|]; [|discriminate Hke].
    destruct item as [[dk mk] info].
    cbn in Hke, Hk. inversion Hke; subst. unfold popularity_key in Hk.
    inversion Hk. reflexivity.
Qed.

Lemma invalid_raw_models_are_excluded_witness :
  _extract_autosubmit_experiments worker healthy src_C
  = Ok [mk_exp_data 8 "frank" "EC-Earth" "main" "marenostrum" (Some (date 2023 3 1)) "a008"] /\
  exists d, d ∈ src_C /\ (d_model d ∉ invalid_model_values worker) /\
    8 = d_exp_id d /\ "EC-Earth" = _clean_model_name (d_model d).
Proof.
  split; [reflexivity|].
  apply (proj1 (invalid_raw_models_are_excluded worker healthy src_C empty_world)
           _ eq_refl
           (mk_exp_data 8 "frank" "EC-Earth" "main" "marenostrum" (Some (date 2023 3 1)) "a008")).
  left.
Defined.

(** C6 as stated fails: the raw model [NA/] passes the filter and is
    cleaned to [NA], which is then the model of a persisted experiment and
    of a persisted popularity row. *)
Lemma invalid_value_persisted_after_cleaning :
  "NA" ∈ invalid_model_values worker /\
  e_model <$> experiments (tsdb (after worker healthy src_NA empty_world)) = ["NA"] /\
  p_model <$> metric_models_popularity (tsdb (after worker healthy src_NA empty_world))
  = ["NA"].
Proof. split; [left|]. vm_compute. split; reflexivity. Qed.

Lemma act_inv (a : action) (w : AutosubmitSyncWorker) (W : world) :
  current_time (fst (act (w, W) a)) = current_time w /\
  exists added,
    metric_models_popularity (tsdb (snd (act (w, W) a)))
    = metric_models_popularity (tsdb W) ++ added /\
    forall b, b ∈ added -> p_extracted_time b = current_time w.
Proof.
  destruct a as [E src | t]; simpl.
  - split; [reflexivity|].
    destruct (cycle_new_rows w E src W)
      as [exps [models_data [addedE [addedP [_ [_ [HP [_ HfromP]]]]]]]].
    exists addedP. split; [exact HP|]. intros b Hb. apply (HfromP b Hb).
  - split; [reflexivity|]. exists []. rewrite app_nil_r. split; [reflexivity|].
    intros b Hb. inversion Hb.
Qed.

Lemma run_inv (actions : list action) (w : AutosubmitSyncWorker) (W : world) :
  current_time (fst (run (w, W) actions)) = current_time w /\
  exists added,
    metric_models_popularity (tsdb (snd (run (w, W) actions)))
    = metric_models_popularity (tsdb W) ++ added /\
    forall b, b ∈ added -> p_extracted_time b = current_time w.
Proof.
  revert w W. induction actions as [|a rest IH]; intros w W; simpl.
  - split; [reflexivity|]. exists []. rewrite app_nil_r. split; [reflexivity|].
    intros b Hb. inversion Hb.
  - destruct (act_inv a w W) as [Hc [added1 [Hadd1 Hprop1]]].
    destruct (act (w, W) a) as [w1 W1] eqn:Hact. simpl in *.
    destruct (IH w1 W1) as [Hc2 [added2 [Hadd2 Hprop2]]].
    unfold run in *. split; [congruence|].
    exists (added1 ++ added2). rewrite Hadd2, Hadd1, <- app_assoc.
    split; [reflexivity|]. intros b Hb. apply elem_of_app in Hb as [Hb|Hb].
    + apply Hprop1, Hb.
    + rewrite <- Hc. apply Hprop2, Hb.
Qed.

(** C10: the time stamped on the popularity rows is read once, when the
    worker is constructed; through any sequence of cycles and of calls of
    [set_timestamp] the worker keeps it, every popularity row written
    carries it, and a call of [set_timestamp] changes nothing to what a
    cycle does. *)
Theorem extracted_time_is_fixed_at_construction
  (sync_interval : Z) (now : datetime) (given : option datetime)
  (actions : list action) (W : world) :
  let w := AutosubmitSyncWorker_init sync_interval now given in
  let stamp := match given with None => now | Some t => t end in
  current_time (fst (run (w, W) actions)) = stamp /\
  (exists added,
     metric_models_popularity (tsdb (snd (run (w, W) actions)))
     = metric_models_popularity (tsdb W) ++ added /\
     forall b, b ∈ added -> p_extracted_time b = stamp) /\
  (forall timestamp E src W',
     execute_task (set_timestamp timestamp w) E src W' = execute_task w E src W').
Proof.
  intros w stamp.
  destruct (run_inv actions w W) as [Hc Hadd].
  split; [exact Hc|]. split; [exact Hadd|].
  intros timestamp E src W'. reflexivity.
Qed.



End CycleProperties.

(** ** Replays *)

Section ReplayFacts.
Import Names Clock Store Sync Laws Scenarios.





(** Rows whose ids are all in the table: the insert does nothing. *)
Lemma insert_experiments_known rows tbl :
  (forall r, r ∈ rows -> e_id r ∈ e_id <$> tbl) -> insert_experiments rows tbl = Ok tbl.
Proof.
  induction rows as [|r rows IH]; intros H; [reflexivity|].
  cbn [insert_experiments]. rewrite bool_decide_eq_true_2 by (apply H; left).
  apply IH. intros r' Hr'. apply H. right. exact Hr'.
Qed.













End ReplayFacts.

(** ** The order of datetimes and the latest record *)

Section OrderFacts.
Import Clock Store Sync Laws.

Lemma lex_compare_refl (a : list nat) : lex_compare a a = Eq.
Proof.
  induction a as [|x a IH]; simpl; [reflexivity|].
  rewrite Nat.compare_refl. exact IH.
Qed.

Lemma lex_compare_antisym (a b : list nat) :
  lex_compare b a = CompOpp (lex_compare a b).
Proof.
  revert b. induction a as [|x a IH]; intros [|y b]; simpl; try reflexivity.
  rewrite (Nat.compare_antisym x y).
  destruct (Nat.compare x y); simpl; [apply IH | reflexivity | reflexivity].
Qed.

Lemma lex_compare_eq (a b : list nat) : lex_compare a b = Eq -> a = b.
Proof.
  revert b. induction a as [|x a IH]; intros [|y b]; simpl; try discriminate;
    [reflexivity|].
  destruct (Nat.compare x y) eqn:Hc; try discriminate.
  apply Nat.compare_eq in Hc. intros H. rewrite (IH _ H), Hc. reflexivity.
Qed.

Lemma lex_compare_trans (a b c : list nat) :
  lex_compare a b = Lt -> lex_compare b c = Lt -> lex_compare a c = Lt.
Proof.
  revert b c. induction a as [|x a IH]; intros [|y b] [|z c]; simpl;
    try discriminate; try reflexivity.
  destruct (Nat.compare x y) eqn:Hxy; try discriminate;
    destruct (Nat.compare y z) eqn:Hyz; try discriminate; intros H1 H2.
  - apply Nat.compare_eq in Hxy, Hyz. subst. rewrite Nat.compare_refl.
    apply (IH _ _ H1 H2).
  - apply Nat.compare_eq in Hxy. subst. rewrite Hyz. reflexivity.
  - apply Nat.compare_eq in Hyz. subst. rewrite Hxy. reflexivity.
  - apply Nat.compare_lt_iff in Hxy, Hyz.
    assert (Hxz : (x < z)%nat) by lia.
    apply Nat.compare_lt_iff in Hxz. rewrite Hxz. reflexivity.
Qed.

Lemma dt_lt_irrefl (a : datetime) : ~ dt_lt a a.
Proof.
  unfold dt_lt, dt_ltb, dt_compare. rewrite lex_compare_refl. discriminate.
Qed.

Lemma dt_lt_asym (a b : datetime) : dt_lt a b -> ~ dt_lt b a.
Proof.
  unfold dt_lt, dt_ltb, dt_compare.
  rewrite (lex_compare_antisym (datetime_fields a) (datetime_fields b)).
  destruct (lex_compare (datetime_fields a) (datetime_fields b)); simpl; discriminate.
Qed.

(** Whatever lies between: one of the two is strictly apart from it. *)
Lemma dt_lt_between (a b c : datetime) : dt_lt a c -> dt_lt a b \/ dt_lt b c.
Proof.
  unfold dt_lt, dt_ltb, dt_compare. intros Hac.
  destruct (lex_compare (datetime_fields a) (datetime_fields c)) eqn:Hc;
    try discriminate Hac.
  destruct (lex_compare (datetime_fields a) (datetime_fields b)) eqn:Hab.
  - right. apply lex_compare_eq in Hab. rewrite <- Hab, Hc. reflexivity.
  - left. reflexivity.
  - right.
    assert (Hba : lex_compare (datetime_fields b) (datetime_fields a) = Lt)
      by (rewrite lex_compare_antisym, Hab; reflexivity).
    rewrite (lex_compare_trans _ _ _ Hba Hc). reflexivity.
Qed.

(** The first row by [extracted_time] descending is a row that no row
    follows; there is one as soon as there is a row. *)
Lemma first_by_extracted_desc_spec rows :
  match first_by_extracted_desc rows with
  | None => rows = []
  | Some b =>
      b ∈ rows /\
      forall b', b' ∈ rows -> ~ dt_lt (p_extracted_time b) (p_extracted_time b')
  end.
Proof.
  induction rows as [|r rest IH]; simpl; [reflexivity|].
  destruct (first_by_extracted_desc rest) as [best|].
  - destruct IH as [Hin Hmax].
    destruct (dt_ltb (p_extracted_time r) (p_extracted_time best)) eqn:Hlt.
    + split; [right; exact Hin|]. intros b' Hb'.
      apply elem_of_cons in Hb' as [->|Hb']; [|apply Hmax, Hb'].
      apply dt_lt_asym. exact Hlt.
    + split; [left|]. intros b' Hb'.
      apply elem_of_cons in Hb' as [->|Hb']; [apply dt_lt_irrefl|].
      intros Hlt'. destruct (dt_lt_between _ (p_extracted_time best) _ Hlt') as [H|H].
      * unfold dt_lt in H. congruence.
      * apply (Hmax b' Hb' H).
  - subst rest. split; [left|]. intros b' Hb'.
    apply list_elem_of_singleton in Hb'. subst b'. apply dt_lt_irrefl.
Qed.




Lemma sum_Z_app (l1 l2 : list Z) : sum_Z (l1 ++ l2) = sum_Z l1 + sum_Z l2.
Proof. induction l1 as [|x l1 IH]; simpl; [reflexivity | rewrite IH; lia]. Qed.

Lemma sum_count_app model_name rows1 rows2 :
  sum_count model_name (rows1 ++ rows2)
  = sum_count model_name rows1 + sum_count model_name rows2.
Proof.
  unfold sum_count, rows_of_model. rewrite filter_app, fmap_app. apply sum_Z_app.
Qed.

End OrderFacts.

(** ** The historical counts along the loop *)

Section ChainFacts.
Import Clock Store Sync Laws.

Lemma rows_of_model_snoc model_name rows b :
  rows_of_model model_name (rows ++ [b])
  = rows_of_model model_name rows ++ (if decide (p_model b = model_name) then [b] else []).
Proof. unfold rows_of_model. rewrite filter_app. reflexivity. Qed.

Lemma new_count_pos (l : list exp_entry) :
  (Z.of_nat (length l) =? 0) = false -> 0 < Z.of_nat (length l).
Proof. intros H. apply Z.eqb_neq in H. lia. Qed.

Lemma group_effect_chain rows keys current_time st (item : key * model_info)
  model_name :
  chain model_name (prior_cumulative model_name rows) st ->
  chain model_name (prior_cumulative model_name rows)
    (group_effect rows keys current_time st item).
Proof.
  intros Hc. unfold group_effect.
  destruct (Z.of_nat (length (new_experiments_of (existing_experiment_ids st) (snd item))) =? 0)
    eqn:Hcount; [exact Hc|].
  apply new_count_pos in Hcount.
  set (n := Z.of_nat (length (new_experiments_of (existing_experiment_ids st) (snd item)))) in *.
  set (prior := prior_cumulative model_name rows) in *.
  unfold chain in *. cbn [models_historical_count new_model_popularity_entries].
  destruct (decide (snd (fst item) = model_name)) as [Hm|Hm].
  - rewrite Hm. rewrite lookup_insert_eq.
    set (used := match models_historical_count st !! model_name with
                 | Some v => v
                 | None => prior_cumulative model_name rows
                 end).
    assert (Hused : prior <= used /\
              forall b, b ∈ rows_of_model model_name (new_model_popularity_entries st) ->
                prior < p_total_count b <= used).
    { unfold used. destruct (models_historical_count st !! model_name) as [v|].
      - exact Hc.
      - split; [fold prior; lia|]. intros b Hb. rewrite Hc in Hb. inversion Hb. }
    destruct Hused as [Hle Hold]. split; [lia|]. intros b Hb.
    case_bool_decide.
    + rewrite rows_of_model_snoc in Hb. apply elem_of_app in Hb as [Hb|Hb].
      * specialize (Hold b Hb). lia.
      * simpl in Hb. rewrite decide_True in Hb by reflexivity.
        apply list_elem_of_singleton in Hb. subst b. simpl. lia.
    + rewrite app_nil_r in Hb. specialize (Hold b Hb). lia.
  - rewrite lookup_insert_ne by exact Hm.
    assert (Hsame : rows_of_model model_name
              (new_model_popularity_entries st ++
               (if bool_decide (fst item ∉ keys)
                then [mk_popularity (fst (fst item)) (snd (fst item)) n
                        (match models_historical_count st !! snd (fst item) with
                         | Some v => v
                         | None => prior_cumulative (snd (fst item)) rows
                         end + n) current_time]
                else []))
            = rows_of_model model_name (new_model_popularity_entries st)).
    { case_bool_decide; [|rewrite app_nil_r; reflexivity].
      rewrite rows_of_model_snoc. simpl. rewrite decide_False by exact Hm.
      apply app_nil_r. }
    rewrite Hsame. exact Hc.
Qed.

Lemma fold_effect_chain rows keys current_time items st model_name :
  chain model_name (prior_cumulative model_name rows) st ->
  chain model_name (prior_cumulative model_name rows)
    (fold_left (group_effect rows keys current_time) items st).
Proof.
  revert st. induction items as [|item rest IH]; intros st Hc; simpl; [exact Hc|].
  apply IH, group_effect_chain, Hc.
Qed.




End ChainFacts.

(** ** Monotonicity and conservation over one cycle *)

Section CounterFacts.
Import Names Clock Store Sync Laws Scenarios.

(** The popularity table after a cycle: as it was, or with the entries of
    the loop appended. *)
Lemma cycle_popularity w E src W :
  metric_models_popularity (tsdb (snd (execute_task w E src W)))
  = metric_models_popularity (tsdb W) \/
  exists exps models_data,
    _extract_autosubmit_experiments w E src = Ok exps /\
    _process_experiments exps = Ok models_data /\
    metric_models_popularity (tsdb (snd (execute_task w E src W)))
    = metric_models_popularity (tsdb W) ++
      new_model_popularity_entries
        (final_locals (tsdb W) models_data (current_time w)).
Proof.
  destruct (cycle_store w E src W)
    as [Hsame | [x [rest [models_data [s [Hex [Hpr [_ [Hst Ht]]]]]]]]].
  - left. rewrite Hsame. reflexivity.
  - right. exists (x :: rest), models_data. split; [exact Hex|]. split; [exact Hpr|].
    apply update_statements_ok in Hst as [Hpop _]. simpl in Hpop.
    rewrite Ht, Hpop. unfold final_locals.
    destruct (fold_effect_entries (metric_models_popularity (tsdb W))
                (select_popularity_keys (tsdb W)) (current_time w)
                models_data
                (mk_locals (select_experiment_ids (tsdb W)) ∅ []))
      as [added [Heq [Hsub Hprop]]].
    rewrite Heq. simpl. apply insert_popularity_fresh.
    + eapply sublist_NoDup; [|exact Hsub].
      apply (proj1 (process_experiments_filed (x :: rest) models_data Hpr)).
    + intros b Hb Hin. destruct (Hprop b Hb) as [_ [Hkey _]]. apply Hkey.
      unfold select_popularity_keys. apply elem_of_list_to_set. exact Hin.
Qed.

Lemma final_entries_stamp db models_data current_time b :
  b ∈ new_model_popularity_entries (final_locals db models_data current_time) ->
  p_extracted_time b = current_time.
Proof.
  unfold final_locals. intros Hb.
  destruct (fold_effect_entries (metric_models_popularity db)
              (select_popularity_keys db) current_time models_data
              (mk_locals (select_experiment_ids db) ∅ []))
    as [added [Heq [_ Hprop]]].
  rewrite Heq in Hb. apply (Hprop b Hb).
Qed.

Lemma final_chain db models_data current_time model_name :
  chain model_name (prior_cumulative model_name (metric_models_popularity db))
    (final_locals db models_data current_time).
Proof.
  unfold final_locals. apply fold_effect_chain. unfold chain. simpl.
  rewrite lookup_empty. reflexivity.
Qed.

(** C8, as the code has it: a cycle keeps the cumulative counts of a model
    monotone when its time is not earlier than the [extracted_time] of any
    persisted row of the model and no persisted row of the model has a
    [total_count] above the one the loop reads for the model (the first
    latest record): every row the cycle adds for the model then lies above
    all the persisted ones. *)
Theorem cumulative_count_stays_monotone w E src W model_name :
  monotone model_name (metric_models_popularity (tsdb W)) ->
  (forall b, b ∈ metric_models_popularity (tsdb W) -> p_model b = model_name ->
     ~ dt_lt (current_time w) (p_extracted_time b)) ->
  (forall b, b ∈ metric_models_popularity (tsdb W) -> p_model b = model_name ->
     p_total_count b <= prior_cumulative model_name (metric_models_popularity (tsdb W))) ->
  monotone model_name (metric_models_popularity (tsdb (snd (execute_task w E src W)))).
Proof.
  intros Hmono Hlate Htop.
  destruct (cycle_popularity w E src W) as [-> | [exps [models_data [_ [_ ->]]]]];
    [exact Hmono|].
  set (rows := metric_models_popularity (tsdb W)) in *.
  set (fin := final_locals (tsdb W) models_data (current_time w)).
  assert (Hnew : forall b, b ∈ new_model_popularity_entries fin -> p_model b = model_name ->
            p_extracted_time b = current_time w /\
            prior_cumulative model_name rows < p_total_count b).
  { intros b Hb Hm. split; [apply (final_entries_stamp _ _ _ _ Hb)|].
    pose proof (final_chain (tsdb W) models_data (current_time w) model_name)
      as Hc. fold fin rows in Hc. unfold chain in Hc.
    assert (Hbm : b ∈ rows_of_model model_name (new_model_popularity_entries fin))
      by (apply list_elem_of_filter; split; assumption).
    destruct (models_historical_count fin !! model_name) as [h|].
    - destruct Hc as [_ Hc]. specialize (Hc b Hbm). lia.
    - rewrite Hc in Hbm. inversion Hbm. }
  intros a b Ha Hb Hma Hmb Hlt.
  apply elem_of_app in Ha as [Ha|Ha]; apply elem_of_app in Hb as [Hb|Hb].
  - apply (Hmono a b Ha Hb Hma Hmb Hlt).
  - destruct (Hnew b Hb Hmb) as [_ Hgt]. specialize (Htop a Ha Hma). lia.
  - exfalso. destruct (Hnew a Ha Hma) as [Hst _]. rewrite Hst in Hlt.
    apply (Hlate b Hb Hmb Hlt).
  - exfalso. destruct (Hnew a Ha Hma) as [Hsa _]. destruct (Hnew b Hb Hmb) as [Hsb _].
    rewrite Hsa, Hsb in Hlt. apply (dt_lt_irrefl _ Hlt).
Qed.

Lemma cumulative_count_stays_monotone_witness :
  let W := after worker healthy src_A empty_world in
  metric_models_popularity (tsdb W) = [bucket_A (current_time worker)] /\
  monotone "EC-Earth" (metric_models_popularity (tsdb (after worker_later healthy src_B W))).
Proof.
  intros W.
  assert (Hrows : metric_models_popularity (tsdb W) = [bucket_A (current_time worker)])
    by (vm_compute; reflexivity).
  split; [exact Hrows|].
  apply (cumulative_count_stays_monotone worker_later healthy src_B W "EC-Earth");
    rewrite Hrows.
  - intros a b Ha Hb _ _ Hlt. apply list_elem_of_singleton in Ha, Hb. subst a b.
    vm_compute in Hlt. discriminate Hlt.
  - intros b Hb _ Hlt. apply list_elem_of_singleton in Hb. subst b.
    vm_compute in Hlt. discriminate Hlt.
  - intros b Hb _. apply list_elem_of_singleton in Hb. subst b.
    vm_compute. discriminate.
Defined.

(** C8 as stated fails: a worker given an earlier time than the one that
    wrote the first row adds a row with a greater [total_count] and an
    earlier [extracted_time]. *)
Lemma cumulative_count_not_monotone :
  let rows := metric_models_popularity
                (tsdb (after worker_earlier healthy src_next_day
                         (after worker healthy src_one empty_world))) in
  rows = [ mk_popularity (date 2023 1 1) "EC-Earth" 1 1 (date 2024 5 1);
           mk_popularity (date 2023 1 2) "EC-Earth" 1 3 (date 2024 4 30) ] /\
  ~ monotone "EC-Earth" rows.
Proof.
  intros rows. assert (Hrows : rows =
    [ mk_popularity (date 2023 1 1) "EC-Earth" 1 1 (date 2024 5 1);
      mk_popularity (date 2023 1 2) "EC-Earth" 1 3 (date 2024 4 30) ])
    by (vm_compute; reflexivity).
  split; [exact Hrows|]. rewrite Hrows. intros Hmono.
  specialize (Hmono (mk_popularity (date 2023 1 2) "EC-Earth" 1 3 (date 2024 4 30))
                (mk_popularity (date 2023 1 1) "EC-Earth" 1 1 (date 2024 5 1))).
  assert (H : 3 <= 1); [|lia].
  apply Hmono; [right; left | left | reflexivity | reflexivity | reflexivity].
Qed.

(** With rows of one [extracted_time] the first latest record is the first
    of them in the table: after three rows written together, a later
    worker whose source holds one experiment, of a fourth day, reads 1 and
    writes 2 under the 3 already there. *)
Example cumulative_count_drops_after_a_tie :
  p_total_count <$>
    metric_models_popularity
      (tsdb (after worker_later healthy src_fourth_day
               (after worker healthy src_three_days empty_world)))
  = [1; 2; 3; 2].
Proof. vm_compute. reflexivity. Qed.



End CounterFacts.

(** ** Conservation *)

Section ConservationFacts.
Import Names Clock Store Sync Laws Scenarios.



End ConservationFacts.

(** ** What cleaning removes *)

Section SliceFacts.
Import Names.

Lemma append_nil_l (s : string) : ("" ++ s)%string = s.
Proof. reflexivity. Qed.

Lemma append_cons (c : ascii) (a b : string) :
  (String c a ++ b)%string = String c (a ++ b)%string.
Proof. reflexivity. Qed.

Lemma rstrip_slash_split (s : string) :
  exists suf, s = (rstrip_slash s ++ suf)%string /\ rstrip_slash suf = "".
Proof.
  induction s as [|c r IH].
  - exists "". split; reflexivity.
  - destruct IH as (suf & Hr & Hsuf). cbn [rstrip_slash].
    destruct (rstrip_slash r) as [|a b] eqn:Hrs.
    + rewrite append_nil_l in Hr. subst suf.
      destruct (Ascii.eqb c "/") eqn:Hc.
      * exists (String c r). split; [reflexivity|].
        cbn [rstrip_slash]. rewrite Hrs, Hc. reflexivity.
      * exists r. split; [reflexivity | exact Hrs].
    + exists suf. split; [|exact Hsuf]. rewrite !append_cons. f_equal.
      rewrite <- append_cons. exact Hr.
Qed.

Lemma endswith_quote_split (s : string) :
  endswith_quote s = true -> s = (drop_last s ++ "'")%string.
Proof.
  induction s as [|c r IH]; [discriminate|].
  destruct r as [|a b].
  - cbn [endswith_quote]. intros Hc. apply Ascii.eqb_eq in Hc. subst c. reflexivity.
  - intros H. change (endswith_quote (String a b) = true) in H.
    change (String c (String a b) = String c (drop_last (String a b) ++ "'")%string).
    f_equal. apply IH, H.
Qed.

Lemma wrapped_split (y : string) :
  wrapped y = true ->
  exists pre suf, y = (pre ++ slice_1_m1 y ++ suf)%string /\
    (pre = "" \/ pre = "'") /\ (suf = "" \/ suf = "'").
Proof.
  unfold wrapped. intros H. apply andb_true_iff in H as [Hs He].
  destruct y as [|c r]; [discriminate|].
  cbn in Hs. apply Ascii.eqb_eq in Hs. subst c.
  destruct r as [|a b].
  - exists "'", "". split; [reflexivity|]. split; [right|left]; reflexivity.
  - exists "'", "'". split; [|split; right; reflexivity].
    cbn [slice_1_m1]. change (endswith_quote (String a b) = true) in He.
    apply endswith_quote_split in He. rewrite append_cons, append_nil_l.
    f_equal. exact He.
Qed.

Lemma append_assoc (a b c : string) : ((a ++ b) ++ c = a ++ (b ++ c))%string.
Proof.
  induction a as [|x a IH]; [reflexivity|].
  rewrite !append_cons. f_equal. exact IH.
Qed.

(** X1: [_clean_model_name] returns a slice of its argument: what it drops in
    front is nothing or one quote, what it drops behind is nothing or one
    quote, followed by slashes only. *)
Theorem clean_model_name_is_a_slice (x : string) :
  exists pre suf,
    x = (pre ++ _clean_model_name x ++ suf)%string /\
    (pre = "" \/ pre = "'") /\
    (rstrip_slash suf = "" \/ rstrip_slash suf = "'").
Proof.
  unfold _clean_model_name.
  destruct (falsy x) eqn:Hf.
  - destruct x; [|discriminate]. exists "", "".
    split; [reflexivity|]. split; left; reflexivity.
  - destruct (rstrip_slash_split x) as (sl & Hx & Hsl).
    fold (wrapped (rstrip_slash x)).
    destruct (wrapped (rstrip_slash x)) eqn:Hw.
    + destruct (wrapped_split _ Hw) as (pre & suf & Hy & Hpre & Hsuf).
      exists pre, (suf ++ sl)%string. split; [|split; [exact Hpre|]].
      * rewrite <- !append_assoc. rewrite (append_assoc pre). rewrite <- Hy. exact Hx.
      * destruct Hsuf as [-> | ->]; [left; exact Hsl|right].
        rewrite append_cons, append_nil_l. cbn [rstrip_slash]. rewrite Hsl. reflexivity.
    + exists "", sl. split; [exact Hx|]. split; left; [reflexivity | exact Hsl].
Qed.

End SliceFacts.

(** ** The groups of [_process_experiments] *)

Section GroupingFacts.
Import Clock Store Sync Laws Integrity.

Lemma fmap_fixed {A} (g : A -> A) (l : list A) :
  (forall x, x ∈ l -> g x = x) -> g <$> l = l.
Proof.
  induction l as [|a l IH]; intros H; [reflexivity|].
  rewrite fmap_cons, H by left. f_equal. apply IH. intros x Hx. apply H. right. exact Hx.
Qed.

Lemma dict_alter_map f k (d : dict) :
  NoDup (fst <$> d) ->
  dict_alter f k d
  = (fun item : key * model_info =>
       if bool_decide (fst item = k) then (fst item, f (snd item)) else item) <$> d.
Proof.
  induction d as [|[k' v'] rest IH]; intros Hnd; [reflexivity|].
  rewrite fmap_cons in Hnd. apply NoDup_cons in Hnd as [Hnotin Hnd].
  cbn [dict_alter]. rewrite fmap_cons. cbn [fst snd].
  destruct (bool_decide (k' = k)) eqn:Hk.
  - f_equal. apply bool_decide_eq_true in Hk. subst k'.
    symmetry. apply fmap_fixed. intros item Hitem.
    rewrite bool_decide_eq_false_2; [reflexivity|].
    intros Heq. apply Hnotin. rewrite <- Heq. apply list_elem_of_fmap.
    exists item. split; [reflexivity | exact Hitem].
  - f_equal. apply IH, Hnd.
Qed.

(** What one experiment with a date does to [models_data]. *)
Lemma process_one_eq (d : dict) (exp : exp_data) (created : datetime) :
  NoDup (fst <$> d) -> credated exp = Some created ->
  process_one d exp =
  Ok ((fun item : key * model_info =>
         if bool_decide (fst item = (replace_midnight created, model exp))
         then (fst item,
               mk_info (mi_model (snd item)) (mi_time (snd item)) (mi_count (snd item) + 1)
                 (mi_experiments (snd item) ++ [mk_entry (exp_id exp) (name exp) created]))
         else item)
      <$> (if bool_decide ((replace_midnight created, model exp) ∈ fst <$> d) then d
           else d ++ [((replace_midnight created, model exp),
                       mk_info (model exp) (replace_midnight created) 0 [])])).
Proof.
  intros Hnd Hcre. unfold process_one, dict_contains. rewrite Hcre. cbv zeta.
  set (k := (replace_midnight created, model exp) : key).
  set (d1 := if negb (bool_decide (k ∈ fst <$> d))
             then dict_set k (mk_info (model exp) (replace_midnight created) 0 []) d
             else d).
  assert (Hd1 : d1 = if bool_decide (k ∈ fst <$> d) then d
                     else d ++ [(k, mk_info (model exp) (replace_midnight created) 0 [])]).
  { subst d1. destruct (bool_decide (k ∈ fst <$> d)) eqn:Hin; cbn [negb]; [reflexivity|].
    apply dict_set_fresh. apply bool_decide_eq_false in Hin. exact Hin. }
  assert (Hnd1 : NoDup (fst <$> d1)).
  { rewrite Hd1. destruct (bool_decide (k ∈ fst <$> d)) eqn:Hin; [exact Hnd|].
    apply bool_decide_eq_false in Hin. rewrite fmap_app. apply NoDup_app.
    split; [exact Hnd|]. split; [|apply NoDup_singleton].
    intros x Hx Hx'. cbn in Hx'. apply list_elem_of_singleton in Hx'. subst x.
    exact (Hin Hx). }
  f_equal.
  match goal with |- _ = _ <$> ?R => replace R with d1 by exact Hd1 end.
  rewrite (dict_alter_map _ k (dict_alter _ k d1)) by (rewrite dict_alter_keys; exact Hnd1).
  rewrite (dict_alter_map _ k d1) by exact Hnd1.
  rewrite <- list_fmap_compose. apply Forall_fmap_ext, Forall_forall.
  intros item _. cbn [compose].
  destruct (bool_decide (fst item = k)) eqn:Hk; cbn [fst snd].
  - rewrite Hk. reflexivity.
  - rewrite Hk. reflexivity.
Qed.

Lemma members_snoc (k : key) (seen : list exp_data) (exp : exp_data) :
  members k (seen ++ [exp])
  = members k seen ++ (if decide (key_of exp = Some k) then [exp] else []).
Proof. unfold members. rewrite filter_app. reflexivity. Qed.

(** Every experiment filed under a key has a date, so each makes an entry. *)
Lemma members_entries (k : key) (experiments : list exp_data) :
  length (omap entry_of (members k experiments)) = length (members k experiments).
Proof.
  unfold members. induction experiments as [|exp rest IH]; [reflexivity|].
  rewrite filter_cons. destruct (decide (key_of exp = Some k)) as [Hk|Hk]; [|exact IH].
  assert (He : exists x, entry_of exp = Some x).
  { unfold key_of in Hk. unfold entry_of.
    destruct (credated exp) as [created|]; [|discriminate Hk].
    exists (mk_entry (exp_id exp) (name exp) created). reflexivity. }
  destruct He as [x He].
  change (omap entry_of (exp :: filter (fun exp => key_of exp = Some k) rest))
    with (match entry_of exp with
          | Some y => y :: omap entry_of (filter (fun exp => key_of exp = Some k) rest)
          | None => omap entry_of (filter (fun exp => key_of exp = Some k) rest)
          end).
  rewrite He. cbn [length]. f_equal. exact IH.
Qed.

Lemma counts_fixed (g : key * model_info -> key * model_info) (d : dict) (k : key) :
  (forall item, fst item <> k -> g item = item) ->
  (forall item, fst item = k -> mi_count (snd (g item)) = mi_count (snd item) + 1) ->
  NoDup (fst <$> d) -> k ∈ fst <$> d ->
  sum_Z ((fun item : key * model_info => mi_count (snd item)) <$> (g <$> d))
  = sum_Z ((fun item : key * model_info => mi_count (snd item)) <$> d) + 1.
Proof.
  intros Hother Hthis. induction d as [|item rest IH]; intros Hnd Hin.
  - apply elem_of_nil in Hin. contradiction.
  - rewrite fmap_cons in Hnd. apply NoDup_cons in Hnd as [Hnotin Hnd].
    rewrite !fmap_cons. cbn [sum_Z foldr].
    destruct (decide (fst item = k)) as [Heq|Hne].
    + rewrite Hthis by exact Heq.
      rewrite (fmap_fixed g rest).
      * fold (sum_Z ((fun item : key * model_info => mi_count (snd item)) <$> rest)). lia.
      * intros y Hy. apply Hother. intros Hyk. apply Hnotin. rewrite Heq, <- Hyk.
        apply list_elem_of_fmap. exists y. split; [reflexivity | exact Hy].
    + rewrite Hother by exact Hne.
      rewrite fmap_cons in Hin. apply elem_of_cons in Hin as [Hin|Hin];
        [congruence|].
      specialize (IH Hnd Hin). unfold sum_Z in IH. rewrite IH. lia.
Qed.

Lemma process_one_grouped (seen : list exp_data) (d d' : dict) (exp : exp_data) :
  grouped seen d -> process_one d exp = Ok d' -> grouped (seen ++ [exp]) d'.
Proof.
  intros (Hnd & Hkeys & Hitems & Hsum) Hone.
  destruct (credated exp) as [created|] eqn:Hcre;
    [|unfold process_one in Hone; rewrite Hcre in Hone; discriminate Hone].
  rewrite (process_one_eq d exp created Hnd Hcre) in Hone.
  injection Hone as Hone. subst d'.
  assert (Hkey : key_of exp = Some (replace_midnight created, model exp))
    by (unfold key_of; rewrite Hcre; reflexivity).
  assert (Hentry : entry_of exp = Some (mk_entry (exp_id exp) (name exp) created))
    by (unfold entry_of; rewrite Hcre; reflexivity).
  set (k := (replace_midnight created, model exp) : key) in *.
  set (entry := mk_entry (exp_id exp) (name exp) created) in *.
  set (fresh := mk_info (model exp) (replace_midnight created) 0 []).
  match goal with |- grouped _ (?G <$> ?D) => set (g := G); set (d1 := D) end.
  assert (Hgkeys : fst <$> (g <$> d1) = fst <$> d1).
  { rewrite <- list_fmap_compose. apply Forall_fmap_ext, Forall_forall.
    intros item _. unfold g, compose. destruct (bool_decide (fst item = k)); reflexivity. }
  assert (Hd1 : NoDup (fst <$> d1) /\ k ∈ fst <$> d1 /\
                (forall x, x ∈ fst <$> d -> x ∈ fst <$> d1) /\
                (forall item : key * model_info, item ∈ d1 ->
                   item ∈ d \/ (item = (k, fresh) /\ members k seen = [])) /\
                sum_Z ((fun item : key * model_info => mi_count (snd item)) <$> d1)
                = Z.of_nat (length seen)).
  { subst d1.
    match goal with |- context [bool_decide ?P] => destruct (bool_decide P) eqn:Hin end.
    - apply bool_decide_eq_true in Hin.
      split; [exact Hnd|]. split; [exact Hin|]. split; [auto|]. split; [auto | exact Hsum].
    - apply bool_decide_eq_false in Hin.
      split; [|split; [|split; [|split]]].
      + rewrite fmap_app. apply NoDup_app. split; [exact Hnd|].
        split; [|apply NoDup_singleton].
        intros x Hx Hx'. cbn in Hx'. apply list_elem_of_singleton in Hx'. subst x.
        exact (Hin Hx).
      + rewrite fmap_app. apply elem_of_app. right. left.
      + intros x Hx. rewrite fmap_app. apply elem_of_app. left. exact Hx.
      + intros item Hitem. apply elem_of_app in Hitem as [Hitem|Hitem]; [left; exact Hitem|].
        right. apply list_elem_of_singleton in Hitem. split; [exact Hitem|].
        unfold members.
        destruct (filter (fun exp0 => key_of exp0 = Some k) seen) as [|e rest] eqn:Hf;
          [reflexivity|].
        exfalso. apply Hin.
        assert (He : e ∈ filter (fun exp0 => key_of exp0 = Some k) seen) by (rewrite Hf; left).
        apply list_elem_of_filter in He as [Hek He].
        destruct (Hkeys e He) as (k' & Hk' & Hin').
        rewrite Hek in Hk'. injection Hk' as Hk'. rewrite Hk'. exact Hin'.
      + rewrite fmap_app, sum_Z_app. cbn. lia. }
  destruct Hd1 as (Hnd1 & Hk1 & Hsub & Hfrom & Hsum1).
  split; [|split; [|split]].
  - rewrite Hgkeys. exact Hnd1.
  - intros e He. rewrite Hgkeys. apply elem_of_app in He as [He|He].
    + destruct (Hkeys e He) as (k' & Hk' & Hin'). exists k'.
      split; [exact Hk' | apply Hsub, Hin'].
    + apply list_elem_of_singleton in He. subst e. exists k.
      split; [exact Hkey | exact Hk1].
  - intros item' Hitem'. apply list_elem_of_fmap in Hitem' as (item & -> & Hitem).
    assert (Hold : mi_model (snd item) = snd (fst item) /\
                   mi_time (snd item) = fst (fst item) /\
                   mi_experiments (snd item) = omap entry_of (members (fst item) seen) /\
                   mi_count (snd item) = Z.of_nat (length (mi_experiments (snd item))) /\
                   (fst item <> k -> mi_experiments (snd item) <> [])).
    { destruct (Hfrom item Hitem) as [Hd|[-> Hnone]].
      - destruct (Hitems item Hd) as (H1 & H2 & H3 & H4 & H5). auto.
      - cbn [fst snd fresh mi_model mi_time mi_experiments mi_count].
        rewrite Hnone. split; [reflexivity|]. split; [reflexivity|].
        split; [reflexivity|]. split; [reflexivity|]. intros Hne. contradiction. }
    destruct Hold as (Hm & Ht & Hx & Hc & Hne).
    unfold g. destruct (bool_decide (fst item = k)) eqn:Heq.
    + apply bool_decide_eq_true in Heq.
      cbn [fst snd mi_model mi_time mi_experiments mi_count].
      split; [exact Hm|]. split; [exact Ht|]. split; [|split].
      * rewrite members_snoc, Heq. rewrite decide_True by exact Hkey.
        rewrite omap_app, Hx, Heq. f_equal.
        change (omap entry_of [exp])
          with (match entry_of exp with Some y => [y] | None => [] end).
        rewrite Hentry. reflexivity.
      * rewrite Hc, !length_app. cbn [length]. lia.
      * intros Habs. apply app_eq_nil in Habs as [_ Habs]. discriminate.
    + apply bool_decide_eq_false in Heq.
      split; [exact Hm|]. split; [exact Ht|]. split; [|split; [exact Hc | exact (Hne Heq)]].
      rewrite members_snoc.
      rewrite decide_False
        by (intros Hk; apply Heq; rewrite Hkey in Hk; injection Hk as Hk; symmetry; exact Hk).
      rewrite app_nil_r. exact Hx.
  - rewrite length_app. cbn [length].
    rewrite (counts_fixed g d1 k).
    + rewrite Hsum1. lia.
    + intros item Hne. unfold g. rewrite bool_decide_eq_false_2 by exact Hne. reflexivity.
    + intros item Heq. unfold g. rewrite bool_decide_eq_true_2 by exact Heq. reflexivity.
    + exact Hnd1.
    + exact Hk1.
Qed.

Lemma process_from_grouped (exps seen : list exp_data) (d d' : dict) :
  grouped seen d -> process_from d exps = Ok d' -> grouped (seen ++ exps) d'.
Proof.
  revert seen d. induction exps as [|exp exps IH]; intros seen d H; cbn [process_from].
  - intros [= <-]. rewrite app_nil_r. exact H.
  - destruct (process_one d exp) as [d1|e] eqn:H1; [|discriminate]. intros Hrest.
    replace (seen ++ exp :: exps) with ((seen ++ [exp]) ++ exps)
      by (rewrite <- app_assoc; reflexivity).
    apply (IH _ d1); [|exact Hrest]. apply (process_one_grouped _ _ _ _ H H1).
Qed.

Lemma process_experiments_grouped (exps : list exp_data) (d : dict) :
  _process_experiments exps = Ok d -> grouped exps d.
Proof.
  apply (process_from_grouped exps [] []).
  split; [constructor|]. split; [intros e He; apply elem_of_nil in He; contradiction|].
  split; [intros item Hitem; apply elem_of_nil in Hitem; contradiction | reflexivity].
Qed.

(** The grouping stops at the first experiment that has no date. *)
Lemma process_from_raises (exps : list exp_data) (d : dict) (e : exn) :
  process_from d exps = Raise e ->
  e = AttributeError /\ exists exp, exp ∈ exps /\ credated exp = None.
Proof.
  revert d. induction exps as [|exp rest IH]; intros d; cbn [process_from]; [discriminate|].
  pose proof (process_one_dated d exp) as Hone.
  destruct (process_one d exp) as [d1|e1].
  - intros Hrest. destruct (IH d1 Hrest) as [He (x & Hx & Hnone)].
    split; [exact He|]. exists x. split; [right; exact Hx | exact Hnone].
  - intros [= <-]. destruct Hone as [He Hnone].
    split; [exact He|]. exists exp. split; [left | exact Hnone].
Qed.

(** X2: [_process_experiments] groups the experiments by day of creation and
    model, or raises AttributeError at an experiment that has no date. When
    it returns, every experiment has a date, there is one key for each pair
    of day and model that occurs, the entries of a group are the experiments
    of that pair in the order of extraction, [count] is their number, and
    the counts add up to the number of experiments. *)
Theorem process_experiments_groups_by_day_and_model (experiments : list exp_data) :
  match _process_experiments experiments with
  | Raise e =>
      e = AttributeError /\ exists exp, exp ∈ experiments /\ credated exp = None
  | Ok models_data =>
      (forall exp, exp ∈ experiments -> credated exp <> None) /\
      NoDup (fst <$> models_data) /\
      (forall k, k ∈ fst <$> models_data <->
         exists exp, exp ∈ experiments /\ key_of exp = Some k) /\
      (forall item : key * model_info, item ∈ models_data ->
         mi_model (snd item) = snd (fst item) /\
         mi_time (snd item) = fst (fst item) /\
         mi_experiments (snd item) = omap entry_of (members (fst item) experiments) /\
         mi_count (snd item) = Z.of_nat (length (members (fst item) experiments)) /\
         0 < mi_count (snd item)) /\
      sum_Z ((fun item : key * model_info => mi_count (snd item)) <$> models_data)
      = Z.of_nat (length experiments)
  end.
Proof.
  destruct (_process_experiments experiments) as [models_data|e] eqn:Hrun;
    [|exact (process_from_raises _ _ _ Hrun)].
  destruct (process_experiments_grouped experiments models_data Hrun)
    as (Hnd & Hkeys & Hitems & Hsum).
  split.
  { intros exp He Hnone. destruct (Hkeys exp He) as (k & Hk & _).
    unfold key_of in Hk. rewrite Hnone in Hk. discriminate Hk. }
  split; [exact Hnd|]. split; [|split; [|exact Hsum]].
  - intros k. split.
    + intros Hk. apply list_elem_of_fmap in Hk as (item & -> & Hitem).
      destruct (Hitems item Hitem) as (_ & _ & Hx & _ & Hne).
      destruct (members (fst item) experiments) as [|exp rest] eqn:Hmem.
      * rewrite Hx in Hne. contradiction.
      * assert (He : exp ∈ members (fst item) experiments) by (rewrite Hmem; left).
        apply list_elem_of_filter in He as [Hk He]. exists exp. split; assumption.
    + intros (exp & He & Hk). destruct (Hkeys exp He) as (k' & Hk' & Hin).
      rewrite Hk in Hk'. injection Hk' as Hk'. rewrite Hk'. exact Hin.
  - intros item Hitem. destruct (Hitems item Hitem) as (Hm & Ht & Hx & Hc & Hne).
    split; [exact Hm|]. split; [exact Ht|]. split; [exact Hx|].
    assert (Hlen : mi_count (snd item)
                   = Z.of_nat (length (members (fst item) experiments))).
    { rewrite Hc, Hx, members_entries. reflexivity. }
    split; [exact Hlen|].
    rewrite Hc. destruct (mi_experiments (snd item)); [contradiction | cbn [length]; lia].
Qed.

End GroupingFacts.

(** ** The batches of the inserts *)

Section BatchBounds.
Import Sync.

Lemma batches_length {A} (n : nat) (l : list A) :
  length (batches n l) = Nat.div (length l + n - 1) n.
Proof. unfold batches, range_step. rewrite !length_fmap, length_seq. reflexivity. Qed.

(** X3: the slices [l[i : i + batch_size]] taken at the multiples of
    [batch_size] put together give the list back; none is empty, none is
    longer than [batch_size], and all but the last are full. *)
Theorem batches_partition_the_list {A} (batch_size : nat) (l : list A) :
  (0 < batch_size)%nat ->
  concat (batches batch_size l) = l /\
  (forall i b, batches batch_size l !! i = Some b ->
     (0 < length b <= batch_size)%nat /\
     (S i < length (batches batch_size l) -> length b = batch_size)%nat).
Proof.
  intros Hpos. split; [apply concat_batches, Hpos|].
  intros i b Hb. rewrite batches_length.
  apply batches_lookup in Hb as [-> Hlt].
  pose proof (Nat.Div0.mul_div_le (length l + batch_size - 1) batch_size) as Hdiv'.
  set (m := Nat.div (length l + batch_size - 1) batch_size) in *.
  rewrite length_take, length_drop.
  split; [nia|]. intros Hnext. nia.
Qed.

Lemma batches_partition_the_list_witness :
  (0 < 2)%nat /\ batches 2 [1; 2; 3] = [[1; 2]; [3]] /\
  concat (batches 2 [1; 2; 3]) = [1; 2; 3].
Proof.
  split; [lia|]. split; [reflexivity|].
  apply (batches_partition_the_list 2 [1; 2; 3]). lia.
Defined.

End BatchBounds.

(** ** The constraints of the store across synchronisations *)

Section IntegrityFacts.
Import Clock Store Sync Laws Integrity.

Lemma NoDup_snoc_fmap {A B} (f : A -> B) (l : list A) (x : A) :
  NoDup (f <$> l) -> f x ∉ f <$> l -> NoDup (f <$> (l ++ [x])).
Proof.
  intros Hnd Hx. rewrite fmap_app. apply NoDup_app. split; [exact Hnd|].
  split; [|apply NoDup_singleton].
  intros y Hy Hy'. cbn in Hy'. apply list_elem_of_singleton in Hy'. subst y. exact (Hx Hy).
Qed.

Lemma insert_experiments_keyed rows tbl tbl' :
  NoDup (e_id <$> tbl) -> NoDup (e_name <$> tbl) ->
  insert_experiments rows tbl = Ok tbl' ->
  NoDup (e_id <$> tbl') /\ NoDup (e_name <$> tbl').
Proof.
  revert tbl. induction rows as [|r rest IH]; intros tbl Hid Hname H; cbn in H.
  - inversion H; subst. split; assumption.
  - destruct (bool_decide (e_id r ∈ e_id <$> tbl)) eqn:Hi; [exact (IH _ Hid Hname H)|].
    destruct (bool_decide (e_name r ∈ e_name <$> tbl)) eqn:Hn; [discriminate|].
    apply bool_decide_eq_false in Hi, Hn.
    apply (IH (tbl ++ [r])); [apply NoDup_snoc_fmap | apply NoDup_snoc_fmap | exact H];
      assumption.
Qed.

Lemma insert_popularity_keyed rows tbl :
  NoDup (popularity_key <$> tbl) ->
  NoDup (popularity_key <$> insert_popularity rows tbl).
Proof.
  revert tbl. induction rows as [|r rest IH]; intros tbl Hnd; cbn; [exact Hnd|].
  destruct (bool_decide (popularity_key r ∈ popularity_key <$> tbl)) eqn:Hk;
    [exact (IH _ Hnd)|].
  apply bool_decide_eq_false in Hk. apply IH, NoDup_snoc_fmap; assumption.
Qed.

Lemma update_groups_keyed E current_time keys items st s st' s' :
  update_groups E current_time keys items st s = (Ok st', s') ->
  NoDup (e_id <$> experiments (pending s)) ->
  NoDup (e_name <$> experiments (pending s)) ->
  NoDup (e_id <$> experiments (pending s')) /\
  NoDup (e_name <$> experiments (pending s')).
Proof.
  revert st s. induction items as [|item rest IH]; intros st s H Hid Hname; simpl in H.
  - inversion H; subst. split; assumption.
  - apply bind_inv_ok in H as [st1 [s1 [H1 H2]]].
    apply update_group_ok in H1 as (_ & _ & _ & Hins).
    destruct (insert_experiments_keyed _ _ _ Hid Hname Hins) as [Hid1 Hname1].
    exact (IH _ _ H2 Hid1 Hname1).
Qed.

Lemma update_statements_keyed E models_data current_time s s' :
  update_statements E models_data current_time s = (Ok tt, s') ->
  well_keyed (pending s) -> well_keyed (pending s').
Proof.
  unfold update_statements. intros H (Hid & Hname & Hkey).
  apply bind_inv_ok in H as [ids [s1 [H1 H]]]. apply read_ok in H1 as [-> [Hp1 Hc1]].
  apply bind_inv_ok in H as [keys [s2 [H2 H]]]. apply read_ok in H2 as [-> [Hp2 Hc2]].
  apply bind_inv_ok in H as [st [s3 [H3 H]]].
  pose proof (update_groups_ok _ _ _ _ _ _ _ _ H3) as (_ & Hpop3 & _).
  apply update_groups_keyed in H3 as [Hid3 Hname3];
    [|rewrite Hp2, Hp1; exact Hid | rewrite Hp2, Hp1; exact Hname].
  apply insert_popularity_batches_ok in H as [Hpop [Hexp Hc]].
  split; [rewrite Hexp; exact Hid3|]. split; [rewrite Hexp; exact Hname3|].
  rewrite Hpop. apply insert_popularity_keyed. rewrite Hpop3, Hp2, Hp1. exact Hkey.
Qed.

Lemma execute_task_keyed w E src W :
  well_keyed (tsdb W) -> well_keyed (tsdb (snd (execute_task w E src W))).
Proof.
  intros Hk.
  destruct (cycle_store w E src W)
    as [-> | (x & rest & models_data & s & _ & _ & _ & Hst & ->)]; [exact Hk|].
  exact (update_statements_keyed _ _ _ _ _ Hst Hk).
Qed.

(** X4: a worker, over any number of synchronisations with any failures
    and any sources, keeps the constraints of the store: no two experiments
    with the same id or the same name, no two popularity rows with the same
    day and model. *)
Theorem store_constraints_are_kept
  (w : AutosubmitSyncWorker) (W : world) (actions : list action) :
  well_keyed (tsdb W) -> well_keyed (tsdb (snd (run (w, W) actions))).
Proof.
  revert w W. induction actions as [|a actions IH]; intros w W Hk; [exact Hk|].
  unfold run. cbn [fold_left]. destruct a as [E src|t]; cbn [act fst snd].
  - apply (IH w). apply execute_task_keyed, Hk.
  - apply (IH (set_timestamp t w)). exact Hk.
Qed.

Lemma store_constraints_are_kept_witness :
  well_keyed (tsdb empty_world) /\
  well_keyed (tsdb (snd (run (Scenarios.worker, empty_world)
                           [Cycle healthy Scenarios.src_A;
                            Cycle Scenarios.popularity_insert_fails Scenarios.src_B]))).
Proof.
  assert (H0 : well_keyed (tsdb empty_world)).
  { split; [|split]; constructor. }
  split; [exact H0|].
  apply (store_constraints_are_kept Scenarios.worker empty_world), H0.
Defined.

End IntegrityFacts.

(** ** A source whose names are consistent is committed *)

Section ProgressFacts.
Import Clock Store Sync Laws Integrity.

Lemma roundtrip_up E s :
  db_up E ->
  roundtrip E s = (Ok tt, mk_session (committed s) (pending s) (S (calls s))).
Proof. intros H. unfold roundtrip. rewrite H. reflexivity. Qed.

Lemma read_up {A} E (q : timescaledb -> A) s :
  db_up E ->
  exists s', read E q s = (Ok (q (pending s)), s') /\ pending s' = pending s.
Proof.
  intros H. unfold read, bind. rewrite roundtrip_up by exact H.
  eexists. split; reflexivity.
Qed.

Lemma write_up E f s db :
  db_up E -> f (pending s) = Ok db ->
  exists s', write E f s = (Ok tt, s') /\ pending s' = db.
Proof.
  intros H Hf. unfold write, bind. rewrite roundtrip_up by exact H.
  cbn [pending]. rewrite Hf. eexists. split; reflexivity.
Qed.

Lemma entry_of_fields (a : exp_data) (x : exp_entry) :
  entry_of a = Some x -> x_id x = exp_id a /\ x_name x = name a.
Proof.
  unfold entry_of. destruct (credated a) as [created|]; [|discriminate].
  intros [= <-]. split; reflexivity.
Qed.

Lemma insert_experiments_agree exps model_name xs tbl :
  one_id_per_name exps -> table_agrees tbl exps ->
  (forall x, x ∈ xs -> sourced exps x) ->
  exists tbl', insert_experiments (experiment_row model_name <$> xs) tbl = Ok tbl' /\
    table_agrees tbl' exps.
Proof.
  intros Hsrc. revert tbl. induction xs as [|x xs IH]; intros tbl Hagree Hxs.
  - exists tbl. split; [reflexivity | exact Hagree].
  - rewrite fmap_cons. cbn [insert_experiments].
    assert (Hrest : forall y, y ∈ xs -> sourced exps y) by (intros y Hy; apply Hxs; right; exact Hy).
    destruct (Hxs x ltac:(left)) as (a & Ha & Hax).
    destruct (entry_of_fields a x Hax) as [Hxid Hxname].
    destruct (bool_decide (e_id (experiment_row model_name x) ∈ e_id <$> tbl))
      eqn:Hi; [exact (IH tbl Hagree Hrest)|].
    apply bool_decide_eq_false in Hi.
    rewrite bool_decide_eq_false_2.
    + apply IH; [|exact Hrest]. intros r b Hr Hb Hname.
      apply elem_of_app in Hr as [Hr|Hr]; [exact (Hagree r b Hr Hb Hname)|].
      apply list_elem_of_singleton in Hr. subst r.
      unfold experiment_row in Hname |- *. cbn [e_id e_name] in Hname |- *.
      rewrite Hxid. f_equal. apply (Hsrc a b Ha Hb). rewrite <- Hxname. exact Hname.
    + intros Hn. apply Hi. apply list_elem_of_fmap in Hn as (r & Hname & Hr).
      apply list_elem_of_fmap. exists r. split; [|exact Hr].
      unfold experiment_row in Hname |- *. cbn [e_id e_name] in Hname |- *.
      rewrite Hxid. symmetry. apply (Hagree r a Hr Ha). rewrite <- Hxname.
      symmetry. exact Hname.
Qed.

Lemma insert_experiment_batches_up E exps model_name bs ids s :
  db_up E -> one_id_per_name exps ->
  table_agrees (experiments (pending s)) exps ->
  (forall b x, b ∈ bs -> x ∈ b -> sourced exps x) ->
  exists ids' s',
    insert_experiment_batches E model_name bs ids s = (Ok ids', s') /\
    table_agrees (experiments (pending s')) exps.
Proof.
  intros Hup Hsrc. revert ids s. induction bs as [|batch rest IH]; intros ids s Hagree Hbs.
  - exists ids, s. split; [reflexivity | exact Hagree].
  - cbn [insert_experiment_batches].
    destruct (insert_experiments_agree exps model_name batch (experiments (pending s))
                Hsrc Hagree) as (tbl' & Hins & Hagree').
    { intros x Hx. apply (Hbs batch x); [left | exact Hx]. }
    destruct (write_up E
                (stmt_insert_experiments
                   ((fun exp_data =>
                       mk_experiment (id_text (x_id exp_data)) (x_name exp_data) model_name
                         (x_created_time exp_data)) <$> batch))
                s (mk_db tbl' (metric_models_popularity (pending s))) Hup)
      as (s1 & Hw & Hp1).
    { unfold stmt_insert_experiments.
      change (insert_experiments (experiment_row model_name <$> batch)
                (experiments (pending s))) with
        (insert_experiments
           ((fun exp_data =>
               mk_experiment (id_text (x_id exp_data)) (x_name exp_data) model_name
                 (x_created_time exp_data)) <$> batch) (experiments (pending s))) in Hins.
      rewrite Hins. reflexivity. }
    unfold bind at 1. rewrite Hw.
    apply IH.
    + rewrite Hp1. exact Hagree'.
    + intros b x Hb Hx. apply (Hbs b x); [right; exact Hb | exact Hx].
Qed.

Lemma bind_ok {A B} (m : M A) (f : A -> M B) s a s1 :
  m s = (Ok a, s1) -> bind m f s = f a s1.
Proof. intros H. unfold bind. rewrite H. reflexivity. Qed.

Lemma load_historical_count_up E model_name hist s :
  db_up E ->
  exists h s', load_historical_count E model_name hist s = (Ok h, s') /\
    pending s' = pending s.
Proof.
  intros Hup. unfold load_historical_count.
  destruct (read_up E (latest_record_query model_name) s Hup) as (s1 & H1 & Hp1).
  rewrite (bind_ok _ _ _ _ _ H1).
  destruct (latest_record_query model_name (pending s)) as [latest_record|].
  - eexists _, s1. split; [reflexivity | exact Hp1].
  - destruct (read_up E (historical_sum_query model_name) s1 Hup) as (s2 & H2 & Hp2).
    rewrite (bind_ok _ _ _ _ _ H2).
    eexists _, s2. split; [reflexivity | congruence].
Qed.

Lemma update_group_up E exps current_time keys st (item : key * model_info) s :
  db_up E -> one_id_per_name exps ->
  table_agrees (experiments (pending s)) exps ->
  (forall x, x ∈ mi_experiments (snd item) -> sourced exps x) ->
  exists st' s',
    update_group E current_time keys st item s = (Ok st', s') /\
    table_agrees (experiments (pending s')) exps.
Proof.
  intros Hup Hsrc Hagree Hitem. unfold update_group. cbv zeta.
  destruct (Z.of_nat _ =? 0); [exists st, s; split; [reflexivity | exact Hagree]|].
  assert (Hhist : exists hist s1,
             match models_historical_count st !! snd (fst item) with
             | Some _ => ret (models_historical_count st)
             | None => load_historical_count E (snd (fst item)) (models_historical_count st)
             end s = (Ok hist, s1) /\ pending s1 = pending s).
  { destruct (models_historical_count st !! snd (fst item)).
    - exists (models_historical_count st), s. split; reflexivity.
    - apply load_historical_count_up, Hup. }
  destruct Hhist as (hist & s1 & Hh & Hp1).
  rewrite (bind_ok _ _ _ _ _ Hh).
  match goal with
  | |- context [insert_experiment_batches E ?m ?bs ?ids] =>
      destruct (insert_experiment_batches_up E exps m bs ids s1 Hup Hsrc)
        as (ids' & s2 & Hins & Hagree2)
  end.
  - rewrite Hp1. exact Hagree.
  - intros b x Hb Hx. apply Hitem.
    apply (elem_of_batches _ _ _ _ Hb) in Hx.
    apply list_elem_of_filter in Hx as [_ Hx]. exact Hx.
  - rewrite (bind_ok _ _ _ _ _ Hins).
    eexists _, s2. split; [reflexivity | exact Hagree2].
Qed.

Lemma update_groups_up E exps current_time keys (items : dict) st s :
  db_up E -> one_id_per_name exps ->
  table_agrees (experiments (pending s)) exps ->
  (forall (item : key * model_info) x,
     item ∈ items -> x ∈ mi_experiments (snd item) -> sourced exps x) ->
  exists st' s', update_groups E current_time keys items st s = (Ok st', s').
Proof.
  intros Hup Hsrc. revert st s. induction items as [|item rest IH]; intros st s Hagree Hitems.
  - exists st, s. reflexivity.
  - cbn [update_groups].
    destruct (update_group_up E exps current_time keys st item s Hup Hsrc Hagree)
      as (st1 & s1 & H1 & Hagree1).
    { intros x Hx. apply (Hitems item x); [left | exact Hx]. }
    rewrite (bind_ok _ _ _ _ _ H1). apply IH; [exact Hagree1|].
    intros it x Hit Hx. apply (Hitems it x); [right; exact Hit | exact Hx].
Qed.

Lemma insert_popularity_batches_up E bs s :
  db_up E -> exists s', insert_popularity_batches E bs s = (Ok tt, s').
Proof.
  intros Hup. revert s. induction bs as [|batch rest IH]; intros s.
  - exists s. reflexivity.
  - cbn [insert_popularity_batches].
    destruct (write_up E (stmt_insert_popularity batch) s _ Hup eq_refl) as (s1 & Hw & _).
    rewrite (bind_ok _ _ _ _ _ Hw). apply IH.
Qed.

Lemma update_statements_up E exps (models_data : dict) current_time s :
  db_up E -> one_id_per_name exps ->
  table_agrees (experiments (pending s)) exps ->
  (forall (item : key * model_info) x,
     item ∈ models_data -> x ∈ mi_experiments (snd item) -> sourced exps x) ->
  exists s', update_statements E models_data current_time s = (Ok tt, s').
Proof.
  intros Hup Hsrc Hagree Hitems. unfold update_statements.
  destruct (read_up E select_experiment_ids s Hup) as (s1 & H1 & Hp1).
  rewrite (bind_ok _ _ _ _ _ H1).
  destruct (read_up E select_popularity_keys s1 Hup) as (s2 & H2 & Hp2).
  rewrite (bind_ok _ _ _ _ _ H2).
  match goal with
  | |- context [update_groups E ?ct ?keys ?items ?st] =>
      destruct (update_groups_up E exps ct keys items st s2 Hup Hsrc) as (st' & s3 & H3)
  end.
  - rewrite Hp2, Hp1. exact Hagree.
  - exact Hitems.
  - rewrite (bind_ok _ _ _ _ _ H3). apply insert_popularity_batches_up, Hup.
Qed.

Lemma grouped_sourced (exps : list exp_data) (d : dict) (item : key * model_info) x :
  grouped exps d -> item ∈ d -> x ∈ mi_experiments (snd item) -> sourced exps x.
Proof.
  intros (_ & _ & Hitems & _) Hitem Hx.
  destruct (Hitems item Hitem) as (_ & _ & Hxs & _). rewrite Hxs in Hx.
  apply list_elem_of_omap in Hx as (a & Ha & Hax).
  apply list_elem_of_filter in Ha as [_ Ha]. exists a. split; [exact Ha | exact Hax].
Qed.

Lemma grouped_entry (exps : list exp_data) (d : dict) (exp : exp_data) :
  grouped exps d -> exp ∈ exps ->
  exists (item : key * model_info) x,
    item ∈ d /\ key_of exp = Some (fst item) /\ entry_of exp = Some x /\
    x ∈ mi_experiments (snd item).
Proof.
  intros (_ & Hkeys & Hitems & _) He.
  destruct (Hkeys exp He) as (k & Hk & Hin).
  apply list_elem_of_fmap in Hin as (item & -> & Hitem).
  assert (Hx : exists x, entry_of exp = Some x).
  { unfold key_of in Hk. unfold entry_of.
    destruct (credated exp) as [created|]; [|discriminate Hk].
    exists (mk_entry (exp_id exp) (name exp) created). reflexivity. }
  destruct Hx as [x Hx].
  exists item, x. split; [exact Hitem|]. split; [exact Hk|]. split; [exact Hx|].
  destruct (Hitems item Hitem) as (_ & _ & Hxs & _). rewrite Hxs.
  apply list_elem_of_omap. exists exp. split; [|exact Hx].
  apply list_elem_of_filter. split; [exact Hk | exact He].
Qed.

(** Experiments that all have a date are grouped. *)
Lemma process_from_dated (exps : list exp_data) (d : dict) :
  (forall exp, exp ∈ exps -> credated exp <> None) ->
  exists d', process_from d exps = Ok d'.
Proof.
  revert d. induction exps as [|exp rest IH]; intros d Hdated; cbn [process_from].
  - exists d. reflexivity.
  - pose proof (process_one_dated d exp) as Hone.
    destruct (process_one d exp) as [d1|e].
    + apply IH. intros x Hx. apply Hdated. right. exact Hx.
    + destruct Hone as [_ Hnone]. exfalso. apply (Hdated exp); [left | exact Hnone].
Qed.

Lemma update_timescaledb_up E exps models_data current_time W :
  db_up E -> names_agree (tsdb W) exps ->
  _process_experiments exps = Ok models_data ->
  fst (_update_timescaledb E models_data current_time W) = Ok tt.
Proof.
  intros Hup [Hsrc Hagree] Hpr. unfold _update_timescaledb.
  destruct (update_statements_up E exps models_data current_time
              (mk_session (tsdb W) (tsdb W) 0) Hup Hsrc Hagree) as (s & Hst).
  { intros item x. apply grouped_sourced, process_experiments_grouped, Hpr. }
  rewrite Hst. unfold bind, session_flush, ret, session_commit, bind.
  rewrite roundtrip_up by exact Hup. reflexivity.
Qed.

(** X5: when no call of the session fails, every extracted experiment has
    a date and the names of the extracted experiments are consistent (one
    id for a name, in the source and between the source and the store),
    [_update_timescaledb] commits, and after the cycle every extracted
    experiment has its id, as text, in [experiments]. *)
Theorem consistent_source_is_committed w E src W exps :
  db_up E ->
  _extract_autosubmit_experiments w E src = Ok exps ->
  (forall exp, exp ∈ exps -> credated exp <> None) ->
  names_agree (tsdb W) exps ->
  synced w E src W /\
  (forall exp, exp ∈ exps ->
     id_text (exp_id exp) ∈ ids_of (tsdb (snd (execute_task w E src W)))).
Proof.
  intros Hup Hex Hdated Hnames.
  destruct (process_from_dated exps [] Hdated) as [models_data Hpr].
  fold (_process_experiments exps) in Hpr.
  assert (Hok : fst (_update_timescaledb E models_data (current_time w) (at_write W))
                = Ok tt).
  { apply (update_timescaledb_up E exps); [exact Hup | exact Hnames | exact Hpr]. }
  split.
  { exists exps. split; [exact Hex|]. intros _. exists models_data.
    split; [exact Hpr | exact Hok]. }
  intros exp He. destruct exps as [|x rest]; [apply elem_of_nil in He; contradiction|].
  destruct (cycle_write_inv w E src W x rest models_data Hex Hpr)
    as [Ht [(_ & s & Hst & Hp) | ([e He'] & _)]];
    [|rewrite Hok in He'; discriminate].
  rewrite Ht, Hp.
  destruct (grouped_entry _ _ exp (process_experiments_grouped (x :: rest) models_data Hpr) He)
    as (item & y & Hitem & _ & Hy & Hin).
  apply update_statements_ok in Hst as (_ & _ & _ & Hids).
  destruct (entry_of_fields exp y Hy) as [<- _].
  exact (Hids item y Hitem Hin).
Qed.

Lemma consistent_source_is_committed_witness :
  let exps := [ mk_exp_data 1 "alice" "EC-Earth" "main" "marenostrum" (Some (date 2023 1 1)) "a001";
                mk_exp_data 2 "bob" "EC-Earth" "main" "marenostrum" (Some (date 2023 1 1)) "a002" ] in
  db_up healthy /\
  _extract_autosubmit_experiments Scenarios.worker healthy Scenarios.src_A = Ok exps /\
  (forall exp, exp ∈ exps -> credated exp <> None) /\
  names_agree (tsdb empty_world) exps /\
  synced Scenarios.worker healthy Scenarios.src_A empty_world /\
  id_text 2 ∈ ids_of (tsdb (snd (execute_task Scenarios.worker healthy Scenarios.src_A empty_world))).
Proof.
  cbv zeta.
  set (e1 := mk_exp_data 1 "alice" "EC-Earth" "main" "marenostrum" (Some (date 2023 1 1)) "a001").
  set (e2 := mk_exp_data 2 "bob" "EC-Earth" "main" "marenostrum" (Some (date 2023 1 1)) "a002").
  assert (Hup : db_up healthy) by (intros n; reflexivity).
  assert (Hex : _extract_autosubmit_experiments Scenarios.worker healthy Scenarios.src_A
                = Ok [e1; e2]) by (vm_compute; reflexivity).
  assert (Hdated : forall exp, exp ∈ [e1; e2] -> credated exp <> None).
  { intros exp He.
    apply elem_of_cons in He as [->|He]; [|apply list_elem_of_singleton in He; subst exp];
      discriminate. }
  assert (Hnames : names_agree (tsdb empty_world) [e1; e2]).
  { split.
    - intros a b Ha Hb Hab.
      apply elem_of_cons in Ha as [->|Ha]; [|apply list_elem_of_singleton in Ha; subst a];
        (apply elem_of_cons in Hb as [->|Hb]; [|apply list_elem_of_singleton in Hb; subst b]);
        cbn in Hab |- *; congruence.
    - intros r a Hr. apply elem_of_nil in Hr. contradiction. }
  split; [exact Hup|]. split; [exact Hex|]. split; [exact Hdated|]. split; [exact Hnames|].
  destruct (consistent_source_is_committed Scenarios.worker healthy Scenarios.src_A
              empty_world _ Hup Hex Hdated Hnames) as [Hsync Hids].
  split; [exact Hsync|]. apply (Hids e2). right. left.
Defined.

End ProgressFacts.

(** ** Two experiments with one name *)

Section NameClashFacts.
Import Clock Store Sync Laws Integrity.

Lemma raises_only_ret {A} (P : exn -> Prop) (a : A) : raises_only P (ret a).
Proof. intros s e s' H. discriminate. Qed.

Lemma raises_only_bind {A B} (P : exn -> Prop) (m : M A) (f : A -> M B) :
  raises_only P m -> (forall a, raises_only P (f a)) -> raises_only P (bind m f).
Proof.
  intros Hm Hf s e s' H. apply bind_inv in H as [(a & s1 & _ & H2) | (e' & H1 & [= ->])].
  - exact (Hf a _ _ _ H2).
  - exact (Hm _ _ _ H1).
Qed.

Lemma raises_only_read {A} (P : exn -> Prop) E (q : timescaledb -> A) :
  db_up E -> raises_only P (read E q).
Proof.
  intros Hup s e s' H. unfold read, bind in H. rewrite roundtrip_up in H by exact Hup.
  discriminate.
Qed.

Lemma raises_only_write (P : exn -> Prop) E f :
  db_up E -> (forall db e, f db = Raise e -> P e) -> raises_only P (write E f).
Proof.
  intros Hup Hf s e s' H. unfold write, bind in H. rewrite roundtrip_up in H by exact Hup.
  cbn [pending] in H. destruct (f (pending s)) as [db|e0] eqn:Hfs; [discriminate|].
  inversion H; subst. exact (Hf _ _ Hfs).
Qed.

Lemma insert_experiments_raises rows tbl e :
  insert_experiments rows tbl = Raise e -> e = IntegrityError.
Proof.
  revert tbl. induction rows as [|r rest IH]; intros tbl H; cbn in H; [discriminate|].
  destruct (bool_decide (e_id r ∈ e_id <$> tbl)); [exact (IH _ H)|].
  destruct (bool_decide (e_name r ∈ e_name <$> tbl)); [congruence | exact (IH _ H)].
Qed.

Lemma insert_experiment_batches_raises E model_name bs ids :
  db_up E ->
  raises_only (fun e => e = IntegrityError) (insert_experiment_batches E model_name bs ids).
Proof.
  intros Hup. revert ids. induction bs as [|batch bs IH]; intros ids.
  - apply raises_only_ret.
  - cbn [insert_experiment_batches].
    apply raises_only_bind; [|intros _; apply IH].
    apply raises_only_write; [exact Hup|]. intros db e He.
    unfold stmt_insert_experiments in He.
    destruct (insert_experiments _ _) eqn:Hins; [discriminate|].
    inversion He; subst. exact (insert_experiments_raises _ _ _ Hins).
Qed.

Lemma update_group_raises E current_time keys st item :
  db_up E ->
  raises_only (fun e => e = IntegrityError) (update_group E current_time keys st item).
Proof.
  intros Hup. unfold update_group. cbv zeta.
  destruct (Z.of_nat _ =? 0); [apply raises_only_ret|].
  apply raises_only_bind.
  - destruct (models_historical_count st !! snd (fst item)); [apply raises_only_ret|].
    unfold load_historical_count.
    apply raises_only_bind; [apply raises_only_read, Hup|]. intros [latest_record|].
    + apply raises_only_ret.
    + apply raises_only_bind; [apply raises_only_read, Hup|]. intros r.
      apply raises_only_ret.
  - intros hist. apply raises_only_bind; [|intros ids'; apply raises_only_ret].
    apply insert_experiment_batches_raises, Hup.
Qed.

Lemma update_statements_raises E models_data current_time :
  db_up E ->
  raises_only (fun e => e = IntegrityError) (update_statements E models_data current_time).
Proof.
  intros Hup. unfold update_statements.
  apply raises_only_bind; [apply raises_only_read, Hup|]. intros ids.
  apply raises_only_bind; [apply raises_only_read, Hup|]. intros keys.
  apply raises_only_bind.
  - generalize (mk_locals ids ∅ []). induction models_data as [|item rest IH]; intros st.
    + apply raises_only_ret.
    + cbn [update_groups]. apply raises_only_bind; [|intros st'; apply IH].
      apply update_group_raises, Hup.
  - intros st. induction (batches 100 (new_model_popularity_entries st)) as [|batch bs IHb].
    + apply raises_only_ret.
    + cbn [insert_popularity_batches].
      apply raises_only_bind; [|intros _; exact IHb].
      apply raises_only_write; [exact Hup|]. intros db e He. discriminate.
Qed.

Lemma update_timescaledb_raises E models_data current_time W e :
  db_up E ->
  fst (_update_timescaledb E models_data current_time W) = Raise e -> e = IntegrityError.
Proof.
  intros Hup. unfold _update_timescaledb.
  destruct (update_statements E models_data current_time (mk_session (tsdb W) (tsdb W) 0))
    as [[[]|e0] s] eqn:Hst.
  - unfold bind, session_flush, ret, session_commit, bind.
    rewrite roundtrip_up by exact Hup. cbn. discriminate.
  - cbn. intros [= <-]. exact (update_statements_raises E _ _ Hup _ _ _ Hst).
Qed.

Lemma id_text_inj (n m : Z) : id_text n = id_text m -> n = m.
Proof. unfold id_text. apply pretty_Z_inj. Qed.

(** X6: with every call of the session answered, the only exception
    [_update_timescaledb] raises is the unique violation; and it does raise
    it, when the experiments are grouped and two of the extracted
    experiments that are new to the store have different ids and one name.
    Nothing of the cycle is committed, neither then nor when the grouping
    raises. *)
Theorem duplicate_name_aborts_the_cycle w E src W exps a b :
  db_up E -> well_keyed (tsdb W) ->
  _extract_autosubmit_experiments w E src = Ok exps ->
  NoDup (exp_id <$> exps) ->
  a ∈ exps -> b ∈ exps -> exp_id a <> exp_id b -> name a = name b ->
  id_text (exp_id a) ∉ ids_of (tsdb W) -> id_text (exp_id b) ∉ ids_of (tsdb W) ->
  (forall models_data current_time W' e,
     fst (_update_timescaledb E models_data current_time W') = Raise e ->
     e = IntegrityError) /\
  match _process_experiments exps with
  | Raise e =>
      e = AttributeError /\ exists exp, exp ∈ exps /\ credated exp = None
  | Ok models_data =>
      fst (_update_timescaledb E models_data (current_time w) (at_write W))
      = Raise IntegrityError
  end /\
  tsdb (snd (execute_task w E src W)) = tsdb W.
Proof.
  intros Hup Hkeyed Hex Hnd Ha Hb Hids Hname Hnew_a Hnew_b.
  split; [intros md ct W' e; apply update_timescaledb_raises, Hup|].
  destruct exps as [|x rest]; [apply elem_of_nil in Ha; contradiction|].
  destruct (_process_experiments (x :: rest)) as [models_data|e0] eqn:Hpr.
  2:{ split; [exact (process_from_raises _ _ _ Hpr)|].
      rewrite (execute_task_undated w E src W x rest e0 Hex Hpr). reflexivity. }
  destruct (cycle_write_inv w E src W x rest models_data Hex Hpr)
    as [Ht [(Hok & s & Hst & Hp) | ([e He] & Hsame & _)]].
  - exfalso.
    pose proof (update_statements_keyed _ _ _ _ _ Hst Hkeyed) as (_ & Hnames & _).
    pose proof (process_experiments_grouped (x :: rest) models_data Hpr) as Hgr.
    apply update_statements_ok in Hst as (_ & _ & (added & Hadd & Hfrom) & Hin).
    cbn [pending] in Hadd.
    assert (Hrow : forall c, c ∈ x :: rest -> id_text (exp_id c) ∉ ids_of (tsdb W) ->
              exists r, r ∈ experiments (pending s) /\ e_id r = id_text (exp_id c) /\
                e_name r = name c).
    { intros c Hc Hnew.
      destruct (grouped_entry _ _ c Hgr Hc) as (item & y & Hitem & _ & Hy & Hyin).
      destruct (entry_of_fields c y Hy) as [Hyid _].
      pose proof (Hin item y Hitem Hyin) as Hid. rewrite Hyid in Hid. unfold ids_of in Hid.
      apply list_elem_of_fmap in Hid as (r & Hidr & Hr).
      exists r. split; [exact Hr|]. split; [symmetry; exact Hidr|].
      rewrite Hadd in Hr. apply elem_of_app in Hr as [Hr|Hr].
      - exfalso. apply Hnew. unfold ids_of. apply list_elem_of_fmap.
        exists r. split; [exact Hidr | exact Hr].
      - destruct (Hfrom r Hr) as (item' & x' & Hitem' & Hx' & ->).
        destruct (grouped_sourced _ _ item' x' Hgr Hitem' Hx') as (c' & Hc' & Hcx').
        destruct (entry_of_fields c' x' Hcx') as [Hxid Hxname].
        unfold experiment_row in Hidr |- *. cbn [e_id e_name] in Hidr |- *.
        rewrite Hxid in Hidr. apply id_text_inj in Hidr.
        rewrite Hxname.
        rewrite (NoDup_fmap_eq exp_id (x :: rest) c c' Hnd Hc Hc' Hidr). reflexivity. }
    destruct (Hrow a Ha Hnew_a) as (ra & Hra & Hida & Hnamea).
    destruct (Hrow b Hb Hnew_b) as (rb & Hrb & Hidb & Hnameb).
    apply Hids. apply id_text_inj. rewrite <- Hida, <- Hidb. f_equal.
    apply (NoDup_fmap_eq e_name (experiments (pending s)) ra rb Hnames Hra Hrb).
    congruence.
  - split; [|congruence].
    rewrite He. f_equal. exact (update_timescaledb_raises _ _ _ _ _ Hup He).
Qed.

Lemma duplicate_name_aborts_the_cycle_witness :
  let a := mk_exp_data 1 "alice" "EC-Earth" "main" "marenostrum" (Some (date 2023 1 1)) "a001" in
  let b := mk_exp_data 2 "bob" "IFS" "main" "marenostrum" (Some (date 2023 1 2)) "a001" in
  let src := [ mk_detail 1 "alice" "2023-01-01" "EC-Earth" "main" "marenostrum" "a001";
               mk_detail 2 "bob" "2023-01-02" "IFS" "main" "marenostrum" "a001" ] in
  db_up healthy /\ well_keyed (tsdb empty_world) /\
  _extract_autosubmit_experiments Scenarios.worker healthy src = Ok [a; b] /\
  NoDup (exp_id <$> [a; b]) /\
  exp_id a <> exp_id b /\ name a = name b /\
  (id_text (exp_id a) ∉ ids_of (tsdb empty_world)) /\
  (id_text (exp_id b) ∉ ids_of (tsdb empty_world)) /\
  (exists models_data,
     _process_experiments [a; b] = Ok models_data /\
     fst (_update_timescaledb healthy models_data
            (current_time Scenarios.worker) (at_write empty_world))
     = Raise IntegrityError) /\
  tsdb (snd (execute_task Scenarios.worker healthy src empty_world)) = tsdb empty_world.
Proof.
  cbv zeta.
  set (a := mk_exp_data 1 "alice" "EC-Earth" "main" "marenostrum" (Some (date 2023 1 1)) "a001").
  set (b := mk_exp_data 2 "bob" "IFS" "main" "marenostrum" (Some (date 2023 1 2)) "a001").
  set (src := [ mk_detail 1 "alice" "2023-01-01" "EC-Earth" "main" "marenostrum" "a001";
                mk_detail 2 "bob" "2023-01-02" "IFS" "main" "marenostrum" "a001" ]).
  assert (Hup : db_up healthy) by (intros n; reflexivity).
  assert (Hkeyed : well_keyed (tsdb empty_world)) by (split; [|split]; constructor).
  assert (Hex : _extract_autosubmit_experiments Scenarios.worker healthy src = Ok [a; b])
    by (vm_compute; reflexivity).
  assert (Hnd : NoDup (exp_id <$> [a; b])).
  { apply (bool_decide_unpack _). vm_compute. exact I. }
  assert (Hne : exp_id a <> exp_id b) by discriminate.
  assert (Hnew : forall i : string, i ∉ ids_of (tsdb empty_world))
    by (intros i Hi; apply elem_of_nil in Hi; exact Hi).
  split; [exact Hup|]. split; [exact Hkeyed|]. split; [exact Hex|]. split; [exact Hnd|].
  split; [exact Hne|]. split; [reflexivity|]. split; [apply Hnew|]. split; [apply Hnew|].
  destruct (duplicate_name_aborts_the_cycle Scenarios.worker healthy src empty_world
              [a; b] a b Hup Hkeyed Hex Hnd) as (_ & Hraise & Hsame);
    [left | right; left | exact Hne | reflexivity | apply Hnew | apply Hnew |].
  split; [|exact Hsame].
  destruct (_process_experiments [a; b]) as [models_data|e] eqn:Hpr.
  - exists models_data. split; [reflexivity | exact Hraise].
  - exfalso. vm_compute in Hpr. discriminate Hpr.
Defined.

End NameClashFacts.

(** ** Cycles that find nothing, and the view after a cycle *)

Section CycleEdgeFacts.
Import Clock Store Sync Laws.

Lemma filter_none {A} (P : A -> Prop) `{forall x, Decision (P x)} (l : list A) :
  (forall x, x ∈ l -> ~ P x) -> filter P l = [].
Proof.
  induction l as [|a l IH]; intros Hl; [reflexivity|].
  rewrite filter_cons_False by (apply Hl; left).
  apply IH. intros x Hx. apply Hl. right. exact Hx.
Qed.

Lemma idle_cycle w E src W :
  source_fails E = true \/ (forall d, d ∈ src -> d_model d ∈ invalid_model_values w) ->
  let out := execute_task w E src W in
  fst out = (if source_fails E then Raise OperationalError else Ok tt) /\
  tsdb (snd out) = tsdb W /\ mv (snd out) = mv W /\ refreshes (snd out) = refreshes W.
Proof.
  intros H. cbv zeta. unfold execute_task, _extract_autosubmit_experiments.
  destruct (source_fails E) eqn:Hsrc; [repeat split|].
  destruct H as [H|H]; [discriminate|].
  rewrite (filter_none (fun detail => d_model detail ∉ invalid_model_values w) src).
  - repeat split.
  - intros d Hd Hnot. exact (Hnot (H d Hd)).
Qed.

(** X7: when the source cannot be read, or every row of it carries an
    invalid model, [execute_task] opens no session on the store and does
    not refresh the view: the tables, the view and the number of refreshes
    are as before; in the first case the error is raised again, in the
    second the cycle returns. *)
Theorem nothing_extracted_nothing_touched w E src W :
  source_fails E = true \/ (forall d, d ∈ src -> d_model d ∈ invalid_model_values w) ->
  let out := execute_task w E src W in
  fst out = (if source_fails E then Raise OperationalError else Ok tt) /\
  tsdb (snd out) = tsdb W /\ mv (snd out) = mv W /\ refreshes (snd out) = refreshes W.
Proof. apply idle_cycle. Qed.

Lemma nothing_extracted_nothing_touched_witness :
  let W := Scenarios.after Scenarios.worker healthy Scenarios.src_A empty_world in
  let src := [ mk_detail 7 "erin" "2023-03-01" "NA" "main" "marenostrum" "a007" ] in
  (forall d, d ∈ src -> d_model d ∈ invalid_model_values Scenarios.worker) /\
  fst (execute_task Scenarios.worker healthy src W) = Ok tt /\
  tsdb (snd (execute_task Scenarios.worker healthy src W)) = tsdb W /\
  refreshes (snd (execute_task Scenarios.worker healthy src W)) = refreshes W.
Proof.
  cbv zeta.
  assert (H : forall d, d ∈ [ mk_detail 7 "erin" "2023-03-01" "NA" "main" "marenostrum"
                                 "a007" ] ->
                        d_model d ∈ invalid_model_values Scenarios.worker).
  { intros d Hd. apply list_elem_of_singleton in Hd. subst d. left. }
  split; [exact H|].
  destruct (nothing_extracted_nothing_touched Scenarios.worker healthy _
              (Scenarios.after Scenarios.worker healthy Scenarios.src_A empty_world)
              (or_intror H)) as (Hr & Ht & _ & Hn).
  split; [exact Hr|]. split; [exact Ht | exact Hn].
Defined.

(** X8: a cycle that extracted something and returned without raising
    leaves the materialized view computed from the popularity table as the
    cycle leaves it, whether or not its write was committed. *)
Theorem view_is_fresh_when_the_cycle_returns w E src W x rest :
  _extract_autosubmit_experiments w E src = Ok (x :: rest) ->
  fst (execute_task w E src W) = Ok tt ->
  mv (snd (execute_task w E src W))
  = Some (popular_models_view
            (metric_models_popularity (tsdb (snd (execute_task w E src W))))).
Proof.
  intros Hex.
  destruct (_process_experiments (x :: rest)) as [models_data|e] eqn:Hpr;
    [|rewrite (execute_task_undated w E src W x rest e Hex Hpr); discriminate].
  rewrite (execute_task_nonempty w E src W x rest models_data Hex Hpr). cbv zeta.
  match goal with
  | |- context [refresh_materialized_views E ?W1] => generalize W1
  end.
  intros W1. unfold refresh_materialized_views.
  destruct (refresh_fails E (refreshes W1)); cbn; [discriminate | reflexivity].
Qed.

Lemma view_is_fresh_when_the_cycle_returns_witness :
  let out := execute_task Scenarios.worker Scenarios.popularity_insert_fails
               Scenarios.src_B
               (Scenarios.after Scenarios.worker healthy Scenarios.src_A empty_world) in
  fst out = Ok tt /\
  mv (snd out) = Some (popular_models_view (metric_models_popularity (tsdb (snd out)))).
Proof.
  cbv zeta.
  assert (Hok : fst (execute_task Scenarios.worker Scenarios.popularity_insert_fails
                       Scenarios.src_B
                       (Scenarios.after Scenarios.worker healthy Scenarios.src_A empty_world))
                = Ok tt) by (vm_compute; reflexivity).
  split; [exact Hok|].
  eapply view_is_fresh_when_the_cycle_returns; [|exact Hok].
  vm_compute. reflexivity.
Defined.

(** The grouping raises when one of the experiments has no date. *)
Lemma process_from_undated (exps : list exp_data) (d : dict) :
  (exists exp, exp ∈ exps /\ credated exp = None) ->
  process_from d exps = Raise AttributeError.
Proof.
  revert d. induction exps as [|exp rest IH]; intros d (x & Hx & Hnone).
  - apply elem_of_nil in Hx. contradiction.
  - cbn [process_from]. pose proof (process_one_dated d exp) as Hone.
    destruct (process_one d exp) as [d1|e].
    + apply IH. exists x. split; [|exact Hnone].
      apply elem_of_cons in Hx as [->|Hx]; [contradiction | exact Hx].
    + destruct Hone as [-> _]. reflexivity.
Qed.

(** X28: a row of the source with a valid model and an empty creation text
    stops the cycle: [credated] is [None], [_process_experiments] raises
    AttributeError on it, and [execute_task] logs the error and raises it
    again without opening a session on the store and without refreshing the
    view. *)
Theorem undated_experiment_stops_the_cycle w E src W d :
  source_fails E = false ->
  d ∈ src -> d_model d ∉ invalid_model_values w -> d_created d = EmptyString ->
  let out := execute_task w E src W in
  fst out = Raise AttributeError /\
  tsdb (snd out) = tsdb W /\ mv (snd out) = mv W /\ refreshes (snd out) = refreshes W /\
  (ERROR, "Error during Autosubmit data synchronization") ∈ log (snd out).
Proof.
  intros Hsrc Hd Hm Hcre. cbv zeta.
  destruct (_extract_autosubmit_experiments w E src) as [exps|e] eqn:Hex;
    [|unfold _extract_autosubmit_experiments in Hex; rewrite Hsrc in Hex; discriminate Hex].
  assert (Hundated : exists exp, exp ∈ exps /\ credated exp = None).
  { unfold _extract_autosubmit_experiments in Hex. rewrite Hsrc in Hex.
    injection Hex as Hex. subst exps.
    assert (Hin : d ∈ filter (fun detail => d_model detail ∉ invalid_model_values w) src)
      by (apply list_elem_of_filter; split; assumption).
    apply list_elem_of_lookup_1 in Hin as [n Hn].
    eexists. split.
    - apply elem_of_lookup_imap. exists n, d. split; [reflexivity | exact Hn].
    - cbn [credated]. unfold d_credated. rewrite Hcre. reflexivity. }
  destruct exps as [|x rest].
  { destruct Hundated as (exp & Hexp & _). apply elem_of_nil in Hexp. contradiction. }
  rewrite (execute_task_undated w E src W x rest AttributeError Hex
             (process_from_undated (x :: rest) [] Hundated)).
  split; [reflexivity|]. split; [reflexivity|]. split; [reflexivity|].
  split; [reflexivity|]. cbn [snd say log]. apply elem_of_app. right. left.
Qed.

Lemma undated_experiment_stops_the_cycle_witness :
  let W := Scenarios.after Scenarios.worker healthy Scenarios.src_A empty_world in
  let out := execute_task Scenarios.worker healthy Scenarios.src_undated W in
  fst out = Raise AttributeError /\
  tsdb (snd out) = tsdb W /\ refreshes (snd out) = refreshes W.
Proof.
  cbv zeta.
  destruct (undated_experiment_stops_the_cycle Scenarios.worker healthy
              Scenarios.src_undated
              (Scenarios.after Scenarios.worker healthy Scenarios.src_A empty_world)
              (mk_detail 2 "bob" EmptyString "EC-Earth" "main" "marenostrum" "a002")
              eq_refl)
    as (Hr & Ht & _ & Hn & _);
    [right; left | apply (bool_decide_unpack _); vm_compute; exact I | reflexivity |].
  split; [exact Hr|]. split; [exact Ht | exact Hn].
Defined.

End CycleEdgeFacts.

(** ** The rows of the materialized view *)

Section ViewFacts.
Import Clock Store Sync Laws.

Lemma max_datetime_spec (l : list datetime) :
  match max_datetime l with
  | None => l = []
  | Some d => d ∈ l /\ forall x, x ∈ l -> ~ dt_lt d x
  end.
Proof.
  destruct l as [|d0 rest]; [reflexivity|]. cbn [max_datetime].
  induction rest as [|x rest IH]; cbn [foldr].
  - split; [left|]. intros y Hy. apply list_elem_of_singleton in Hy. subst y.
    apply dt_lt_irrefl.
  - destruct IH as [Hin Hmax]. set (r := foldr dt_max d0 rest) in *. unfold dt_max.
    destruct (dt_ltb x r) eqn:Hlt.
    + split.
      * apply elem_of_cons in Hin as [Hin|Hin]; [rewrite Hin; left | right; right; exact Hin].
      * intros y Hy. apply elem_of_cons in Hy as [->|Hy].
        -- apply Hmax. left.
        -- apply elem_of_cons in Hy as [->|Hy].
           ++ apply dt_lt_asym. exact Hlt.
           ++ apply Hmax. right. exact Hy.
    + split; [right; left|].
      assert (Hall : forall y, y ∈ d0 :: rest -> ~ dt_lt x y).
      { intros y Hy Hxy. destruct (dt_lt_between _ r _ Hxy) as [H1|H1].
        - unfold dt_lt in H1. congruence.
        - exact (Hmax y Hy H1). }
      intros y Hy. apply elem_of_cons in Hy as [->|Hy]; [apply Hall; left|].
      apply elem_of_cons in Hy as [->|Hy]; [apply dt_lt_irrefl | apply Hall; right; exact Hy].
Qed.

Lemma latest_by_time_spec model_name rows :
  model_name ∈ p_model <$> rows ->
  exists b, latest_by_time model_name rows = Some b /\
    b ∈ rows /\ p_model b = model_name /\
    forall b', b' ∈ rows -> p_model b' = model_name -> ~ dt_lt (p_time b) (p_time b').
Proof.
  intros Hm. apply list_elem_of_fmap in Hm as (b0 & Hm0 & Hb0).
  unfold latest_by_time. cbv zeta.
  assert (Hmine : b0 ∈ rows_of_model model_name rows).
  { apply list_elem_of_filter. split; [symmetry; exact Hm0 | exact Hb0]. }
  pose proof (max_datetime_spec (p_time <$> rows_of_model model_name rows)) as Hmax.
  destruct (max_datetime (p_time <$> rows_of_model model_name rows)) as [t|].
  - destruct Hmax as [Ht Hmax]. apply list_elem_of_fmap in Ht as (bt & Htime & Hbt).
    pose proof (first_by_extracted_desc_spec
                  (filter (fun x => p_time x = t) (rows_of_model model_name rows))) as Hfirst.
    destruct (first_by_extracted_desc _) as [b|].
    + destruct Hfirst as [Hb _]. apply list_elem_of_filter in Hb as [Hbt' Hb].
      apply list_elem_of_filter in Hb as [Hbm Hb].
      exists b. split; [reflexivity|]. split; [exact Hb|]. split; [exact Hbm|].
      intros b' Hb' Hm'. rewrite Hbt'. apply Hmax. apply list_elem_of_fmap.
      exists b'. split; [reflexivity|]. apply list_elem_of_filter. split; assumption.
    + exfalso.
      assert (Hin : bt ∈ filter (fun x => p_time x = t) (rows_of_model model_name rows)).
      { apply list_elem_of_filter. split; [symmetry; exact Htime | exact Hbt]. }
      rewrite Hfirst in Hin. apply elem_of_nil in Hin. exact Hin.
  - exfalso. apply fmap_nil_inv in Hmax. rewrite Hmax in Hmine.
    apply elem_of_nil in Hmine. exact Hmine.
Qed.

(** X9: the materialized view holds one row for each model of the
    popularity table and none else; the row's [count] is the sum of the
    counts of the model, its [last_updated] is the [extracted_time] of a
    row of the model that none exceeds, and its [total_count] is that of a
    row of the model with the greatest [time]. *)
Theorem view_has_one_row_per_model (rows : list ModelPopularityTimeDB) :
  let view := popular_models_view rows in
  NoDup (mv_model <$> view) /\
  (forall m, m ∈ mv_model <$> view <-> m ∈ p_model <$> rows) /\
  (forall v, v ∈ view ->
     mv_count v = sum_count (mv_model v) rows /\
     (exists b, b ∈ rows /\ p_model b = mv_model v /\
        mv_last_updated v = Some (p_extracted_time b) /\
        forall b', b' ∈ rows -> p_model b' = mv_model v ->
          ~ dt_lt (p_extracted_time b) (p_extracted_time b')) /\
     (exists b, b ∈ rows /\ p_model b = mv_model v /\
        mv_total_count v = Some (p_total_count b) /\
        forall b', b' ∈ rows -> p_model b' = mv_model v ->
          ~ dt_lt (p_time b) (p_time b'))).
Proof.
  cbv zeta. unfold popular_models_view.
  assert (Hmodels : mv_model <$>
            ((fun m =>
                mk_mv_row m (sum_count m rows) (p_total_count <$> latest_by_time m rows)
                  (max_datetime (p_extracted_time <$> rows_of_model m rows)))
             <$> models_of rows) = models_of rows).
  { rewrite <- list_fmap_compose. apply fmap_fixed. reflexivity. }
  rewrite Hmodels. unfold models_of.
  split; [apply NoDup_remove_dups|]. split; [intros m; apply elem_of_remove_dups|].
  intros v Hv. apply list_elem_of_fmap in Hv as (m & -> & Hm). cbn [mv_model mv_count
    mv_last_updated mv_total_count].
  rewrite elem_of_remove_dups in Hm.
  split; [reflexivity|]. split.
  - pose proof (max_datetime_spec (p_extracted_time <$> rows_of_model m rows)) as Hmax.
    destruct (max_datetime _) as [d|].
    + destruct Hmax as [Hd Hmax]. apply list_elem_of_fmap in Hd as (b & -> & Hb).
      apply list_elem_of_filter in Hb as [Hbm Hb].
      exists b. split; [exact Hb|]. split; [exact Hbm|]. split; [reflexivity|].
      intros b' Hb' Hm'. apply Hmax. apply list_elem_of_fmap. exists b'.
      split; [reflexivity|]. apply list_elem_of_filter. split; assumption.
    + exfalso. apply fmap_nil_inv in Hmax.
      apply list_elem_of_fmap in Hm as (b0 & Hm0 & Hb0).
      assert (Hin : b0 ∈ rows_of_model m rows)
        by (apply list_elem_of_filter; split; [symmetry; exact Hm0 | exact Hb0]).
      rewrite Hmax in Hin. apply elem_of_nil in Hin. exact Hin.
  - destruct (latest_by_time_spec m rows Hm) as (b & -> & Hb & Hbm & Hmax).
    exists b. split; [exact Hb|]. split; [exact Hbm|]. split; [reflexivity | exact Hmax].
Qed.

(** X10: the sum over the history that [_update_timescaledb] falls back on
    when a model has no latest record never finds a row: the historical
    count a cycle starts from is the [total_count] of the latest record, and
    0 for a model without rows. *)
Theorem historical_count_starts_from_the_latest_record E model_name hist s h s' :
  load_historical_count E model_name hist s = (Ok h, s') ->
  (latest_record_query model_name (pending s) = None ->
   historical_sum_query model_name (pending s) = None) /\
  h = <[model_name :=
          match latest_record_query model_name (pending s) with
          | Some latest_record => p_total_count latest_record
          | None => 0
          end]> hist.
Proof.
  intros H.
  assert (Hnone : latest_record_query model_name (pending s) = None ->
                  historical_sum_query model_name (pending s) = None).
  { unfold latest_record_query, historical_sum_query. intros Hl.
    pose proof (first_by_extracted_desc_spec
                  (rows_of_model model_name (metric_models_popularity (pending s)))) as Hf.
    rewrite Hl in Hf. rewrite Hf. reflexivity. }
  split; [exact Hnone|].
  unfold load_historical_count in H.
  apply bind_inv_ok in H as (latest & s1 & H1 & H).
  apply read_ok in H1 as (-> & Hp1 & _).
  destruct (latest_record_query model_name (pending s)) as [latest_record|] eqn:Hl.
  - inversion H; subst. reflexivity.
  - apply bind_inv_ok in H as (r & s2 & H2 & H).
    apply read_ok in H2 as (-> & _ & _). rewrite Hp1, (Hnone eq_refl) in H.
    inversion H; subst. reflexivity.
Qed.

Lemma historical_count_starts_from_the_latest_record_witness :
  let db := tsdb (Scenarios.after Scenarios.worker healthy Scenarios.src_A empty_world) in
  load_historical_count healthy "EC-Earth" ∅ (mk_session db db 0)
  = (Ok {[ "EC-Earth" := 2 ]}, mk_session db db 1) /\
  ({[ "EC-Earth" := 2 ]} : gmap string Z)
  = <[ "EC-Earth" :=
        match latest_record_query "EC-Earth" db with
        | Some latest_record => p_total_count latest_record
        | None => 0
        end ]> ∅.
Proof.
  cbv zeta.
  assert (Hdb : tsdb (Scenarios.after Scenarios.worker healthy Scenarios.src_A empty_world)
                = mk_db [ mk_experiment "1" "a001" "EC-Earth" (date 2023 1 1);
                          mk_experiment "2" "a002" "EC-Earth" (date 2023 1 1) ]
                        [ Scenarios.bucket_A (date 2024 5 1) ])
    by (vm_compute; reflexivity).
  rewrite Hdb.
  assert (Hrun : load_historical_count healthy "EC-Earth" ∅
                   (mk_session
                      (mk_db [ mk_experiment "1" "a001" "EC-Earth" (date 2023 1 1);
                               mk_experiment "2" "a002" "EC-Earth" (date 2023 1 1) ]
                             [ Scenarios.bucket_A (date 2024 5 1) ])
                      (mk_db [ mk_experiment "1" "a001" "EC-Earth" (date 2023 1 1);
                               mk_experiment "2" "a002" "EC-Earth" (date 2023 1 1) ]
                             [ Scenarios.bucket_A (date 2024 5 1) ]) 0)
                 = (Ok {[ "EC-Earth" := 2 ]},
                    mk_session
                      (mk_db [ mk_experiment "1" "a001" "EC-Earth" (date 2023 1 1);
                               mk_experiment "2" "a002" "EC-Earth" (date 2023 1 1) ]
                             [ Scenarios.bucket_A (date 2024 5 1) ])
                      (mk_db [ mk_experiment "1" "a001" "EC-Earth" (date 2023 1 1);
                               mk_experiment "2" "a002" "EC-Earth" (date 2023 1 1) ]
                             [ Scenarios.bucket_A (date 2024 5 1) ]) 1)).
  { reflexivity. }
  split; [exact Hrun|].
  exact (proj2 (historical_count_starts_from_the_latest_record _ _ _ _ _ _ Hrun)).
Defined.

End ViewFacts.

(** ** The pace of the loop, and stopping *)

Section PaceFacts.
Import Store Sync Scheduler Pace.

Lemma step_paced (interval : Z) (t : task) (ev : event) :
  paced interval t -> paced interval (step t ev).
Proof.
  intros (Hi & Hs & Hp). unfold paced, step, loop_head.
  destruct ev as [|r| |]; destruct (t_phase t) eqn:Hph;
    try destruct (t_is_running t); cbn [t_interval_seconds t_sleeps t_phase t_cycles];
    rewrite ?Hph;
    (split; [exact Hi|]; split; [first [exact Hs | constructor; [exact Hi | exact Hs]]|]);
    first [ exact Hp
          | rewrite Hp; reflexivity
          | destruct Hp as [Hc Hsl]; rewrite Hc, Hsl; reflexivity ].
Qed.

Lemma steps_paced (interval : Z) (evs : list event) (t : task) :
  paced interval t -> paced interval (steps t evs).
Proof.
  revert t. induction evs as [|ev evs IH]; intros t H; [exact H|].
  apply (IH (step t ev)), step_paced, H.
Qed.

(** X11: whatever happens to a task made for a fresh worker (cycles that
    return or raise, wake-ups, calls of [stop], in any order), each of its
    sleeps lasts [interval_seconds] and it has slept once after each cycle
    that came back: while a cycle runs the cycles are one ahead of the
    sleeps, otherwise they are as many. *)
Theorem worker_sleeps_once_after_each_cycle (interval : Z) (evs : list event) :
  let t := steps (create_task interval) evs in
  t_interval_seconds t = interval /\
  Forall (fun seconds => seconds = interval) (t_sleeps t) /\
  (t_phase t = Idle -> t_cycles t = 0%nat /\ t_sleeps t = []) /\
  (t_phase t = Running -> t_cycles t = S (length (t_sleeps t))) /\
  (t_phase t = Sleeping \/ t_phase t = Stopped -> t_cycles t = length (t_sleeps t)).
Proof.
  cbv zeta.
  destruct (steps_paced interval evs (create_task interval)) as (Hi & Hs & Hp).
  { split; [reflexivity|]. split; [constructor | split; reflexivity]. }
  split; [exact Hi|]. split; [exact Hs|].
  destruct (t_phase (steps (create_task interval) evs)).
  - split; [intros _; exact Hp|]. split; [discriminate | intros [|]; discriminate].
  - split; [discriminate|]. split; [intros _; exact Hp | intros [|]; discriminate].
  - split; [discriminate|]. split; [discriminate | intros _; exact Hp].
  - split; [discriminate|]. split; [discriminate | intros _; exact Hp].
Qed.

Lemma alive_not_done (t : task) : alive t -> done t = false.
Proof.
  unfold alive, done. intros [H|[_ H]]; destruct (t_phase t); congruence.
Qed.

Lemma manager_step_waits (name : string) (m : WorkerManager) (ev : manager_event) :
  ev <> OnTask name Stop -> ev <> StopWorkers ->
  waiting_for name m -> waiting_for name (manager_step m ev).
Proof.
  intros Hev Hcall ((p & Hp & Hin) & (t & Ht & Halive)).
  destruct ev as [n e| |]; [|contradiction|]; unfold manager_step; rewrite ?Hp.
  - split; [exists p; split; [reflexivity | exact Hin]|]. cbn [tasks].
    destruct (decide (n = name)) as [->|Hn].
    + exists (step t e). split.
      * unfold on_task. apply list_elem_of_fmap. exists (name, t).
        cbn [fst snd]. rewrite bool_decide_eq_true_2 by reflexivity.
        split; [reflexivity | exact Ht].
      * apply step_alive; [|exact Halive]. intros ->. apply Hev. reflexivity.
    + exists t. split; [|exact Halive].
      unfold on_task. apply list_elem_of_fmap. exists (name, t).
      cbn [fst snd]. rewrite bool_decide_eq_false_2 by (intros Heq; apply Hn; symmetry; exact Heq).
      split; [reflexivity | exact Ht].
  - assert (Hnot : all_done p (tasks m) = false).
    { destruct (all_done p (tasks m)) eqn:Hall; [|reflexivity].
      unfold all_done in Hall. rewrite forallb_forall in Hall.
      specialize (Hall (name, t)). cbn [fst snd] in Hall.
      rewrite bool_decide_eq_true_2, (alive_not_done t Halive) in Hall by exact Hin.
      assert (Hf : implb true false = true) by (apply Hall, list_elem_of_In, Ht).
      discriminate Hf. }
    rewrite Hnot.
    split; [exists p; split; [exact Hp | exact Hin] | exists t; split; assumption].
Qed.

Lemma manager_steps_waits (name : string) (mevs : list manager_event) (m : WorkerManager) :
  OnTask name Stop ∉ mevs -> StopWorkers ∉ mevs -> waiting_for name m ->
  waiting_for name (manager_steps m mevs).
Proof.
  revert m. induction mevs as [|ev mevs IH]; intros m Hno Hcall H; [exact H|].
  apply (IH (manager_step m ev)).
  - intros Hin. apply Hno. right. exact Hin.
  - intros Hin. apply Hcall. right. exact Hin.
  - apply manager_step_waits; [| |exact H]; intros ->; [apply Hno | apply Hcall]; left.
Qed.

(** A call of [stop_workers] while a task has not run yet awaits it. *)
Lemma stop_workers_idle (name : string) (m : WorkerManager) (t : task) :
  (name, t) ∈ tasks m -> t_phase t = Idle ->
  (exists p, stopping (manager_step m StopWorkers) = Gathering p /\ name ∈ p) /\
  exists t', (name, t') ∈ tasks (manager_step m StopWorkers) /\ t_phase t' = Idle.
Proof.
  intros Ht Hidle. rewrite stop_workers_step. cbv zeta.
  set (ts := (fun nt : string * task =>
                if done (snd nt) then nt else (fst nt, step (snd nt) Stop)) <$> tasks m).
  assert (Hts : (name, step t Stop) ∈ ts).
  { apply list_elem_of_fmap. exists (name, t). split; [|exact Ht].
    cbn [fst snd]. unfold done. rewrite Hidle. reflexivity. }
  assert (Hpend : name ∈ fst <$> filter (fun nt : string * task => done (snd nt) = false) ts).
  { apply list_elem_of_fmap. exists (name, step t Stop). split; [reflexivity|].
    apply list_elem_of_filter. split; [|exact Hts].
    cbn [snd]. unfold done, step. cbn. rewrite Hidle. reflexivity. }
  destruct (fst <$> filter (fun nt : string * task => done (snd nt) = false) ts)
    as [|n0 p] eqn:Hp; [apply elem_of_nil in Hpend; contradiction|].
  split; [exists (n0 :: p); split; [reflexivity | exact Hpend]|].
  exists (step t Stop). split; [exact Hts|]. unfold step. cbn. exact Hidle.
Qed.

Lemma step_idle (t : task) (ev : event) :
  ev <> Started -> t_phase t = Idle -> t_phase (step t ev) = Idle.
Proof.
  intros Hev Hidle. destruct ev as [|r| |]; [contradiction| | |];
    unfold step; rewrite Hidle; cbn; first [exact Hidle | reflexivity].
Qed.

(** Until a task first runs, [stop_workers] goes on awaiting it. *)
Lemma manager_steps_idle (name : string) (mevs : list manager_event) (m : WorkerManager) :
  OnTask name Started ∉ mevs ->
  (exists p, stopping m = Gathering p /\ name ∈ p) ->
  (exists t, (name, t) ∈ tasks m /\ t_phase t = Idle) ->
  (exists p, stopping (manager_steps m mevs) = Gathering p /\ name ∈ p) /\
  exists t, (name, t) ∈ tasks (manager_steps m mevs) /\ t_phase t = Idle.
Proof.
  revert m. induction mevs as [|ev mevs IH]; intros m Hno Hp Ht; [split; assumption|].
  assert (Hrest : OnTask name Started ∉ mevs) by (intros Hin; apply Hno; right; exact Hin).
  assert (Hev : ev <> OnTask name Started) by (intros ->; apply Hno; left).
  unfold manager_steps. cbn [fold_left]. fold (manager_steps (manager_step m ev) mevs).
  destruct Hp as (p & Hp & Hin). destruct Ht as (t & Ht & Hidle).
  destruct ev as [n e| |].
  - apply (IH _ Hrest).
    + exists p. split; [exact Hp | exact Hin].
    + cbn [manager_step tasks]. destruct (decide (n = name)) as [->|Hn].
      * exists (step t e). split.
        -- unfold on_task. apply list_elem_of_fmap. exists (name, t).
           cbn [fst snd]. rewrite bool_decide_eq_true_2 by reflexivity.
           split; [reflexivity | exact Ht].
        -- apply step_idle; [|exact Hidle]. intros ->. apply Hev. reflexivity.
      * exists t. split; [|exact Hidle].
        unfold on_task. apply list_elem_of_fmap. exists (name, t).
        cbn [fst snd].
        rewrite bool_decide_eq_false_2 by (intros Heq; apply Hn; symmetry; exact Heq).
        split; [reflexivity | exact Ht].
  - destruct (stop_workers_idle name m t Ht Hidle) as [Hp1 Ht1].
    apply (IH _ Hrest); assumption.
  - assert (Hnot : all_done p (tasks m) = false).
    { destruct (all_done p (tasks m)) eqn:Hall; [|reflexivity].
      unfold all_done in Hall. rewrite forallb_forall in Hall.
      specialize (Hall (name, t)). cbn [fst snd] in Hall.
      rewrite bool_decide_eq_true_2 in Hall by exact Hin.
      unfold done in Hall. rewrite Hidle in Hall.
      assert (Hf : implb true false = true) by (apply Hall, list_elem_of_In, Ht).
      discriminate Hf. }
    assert (Hsame : manager_step m GatherResumes = m).
    { unfold manager_step. rewrite Hp, Hnot. reflexivity. }
    rewrite Hsame. apply (IH _ Hrest).
    + exists p. split; [exact Hp | exact Hin].
    + exists t. split; [exact Ht | exact Hidle].
Qed.

(** X12: what [stop_workers] and [stop] do before a task has first run is
    lost: [stop] clears the flag, [start] sets it again once the task runs.
    Unless [stop] is called on that worker after its task has begun, by
    itself or by another call of [stop_workers], [stop_workers] never
    returns and the task never ends. *)
Theorem stop_before_the_first_run_is_lost
  (m : WorkerManager) (name : string) (t : task) (early late : list manager_event) :
  (name, t) ∈ tasks m -> t_phase t = Idle ->
  OnTask name Started ∉ early ->
  OnTask name Stop ∉ late -> StopWorkers ∉ late ->
  let m' := manager_steps (manager_step m StopWorkers) (early ++ late) in
  stopping m' <> Finished /\
  exists t', (name, t') ∈ tasks m' /\ done t' = false /\
    (t_phase t' <> Idle -> t_is_running t' = true).
Proof.
  intros Ht Hidle Hearly Hno Hcall. cbv zeta.
  destruct (stop_workers_idle name m t Ht Hidle) as [Hp0 Ht0].
  destruct (manager_steps_idle name early _ Hearly Hp0 Ht0) as [Hp1 (t1 & Ht1 & Hidle1)].
  unfold manager_steps. rewrite fold_left_app.
  fold (manager_steps (manager_step m StopWorkers) early).
  fold (manager_steps (manager_steps (manager_step m StopWorkers) early) late).
  destruct (manager_steps_waits name late
              (manager_steps (manager_step m StopWorkers) early) Hno Hcall)
    as ((p & Hp & _) & (t' & Ht' & Halive)).
  { split; [exact Hp1|]. exists t1. split; [exact Ht1 | left; exact Hidle1]. }
  split; [rewrite Hp; discriminate|].
  exists t'. split; [exact Ht'|]. split; [apply alive_not_done, Halive|].
  intros Hph. destruct Halive as [Hi|[Hr _]]; [contradiction | exact Hr].
Qed.

Lemma stop_before_the_first_run_is_lost_witness :
  let m := mk_manager [("autosubmit_sync", create_task 3600)] NotCalled in
  let early := [StopWorkers; GatherResumes; OnTask "autosubmit_sync" Stop] in
  let late := [OnTask "autosubmit_sync" Started; GatherResumes;
               OnTask "autosubmit_sync" (Returned (Ok tt)); OnTask "autosubmit_sync" Woke;
               GatherResumes] in
  (OnTask "autosubmit_sync" Started ∉ early) /\
  (OnTask "autosubmit_sync" Stop ∉ late) /\ (StopWorkers ∉ late) /\
  stopping (manager_steps (manager_step m StopWorkers) (early ++ late)) <> Finished.
Proof.
  cbv zeta.
  assert (Hearly : OnTask "autosubmit_sync" Started ∉
                     [StopWorkers; GatherResumes; OnTask "autosubmit_sync" Stop]).
  { intros H. repeat (apply elem_of_cons in H as [H|H]; [discriminate|]).
    apply elem_of_nil in H. exact H. }
  assert (Hno : OnTask "autosubmit_sync" Stop ∉
                  [OnTask "autosubmit_sync" Started; GatherResumes;
                   OnTask "autosubmit_sync" (Returned (Ok tt));
                   OnTask "autosubmit_sync" Woke; GatherResumes]).
  { intros H. repeat (apply elem_of_cons in H as [H|H]; [discriminate|]).
    apply elem_of_nil in H. exact H. }
  assert (Hcall : StopWorkers ∉
                  [OnTask "autosubmit_sync" Started; GatherResumes;
                   OnTask "autosubmit_sync" (Returned (Ok tt));
                   OnTask "autosubmit_sync" Woke; GatherResumes]).
  { intros H. repeat (apply elem_of_cons in H as [H|H]; [discriminate|]).
    apply elem_of_nil in H. exact H. }
  split; [exact Hearly|]. split; [exact Hno|]. split; [exact Hcall|].
  apply (stop_before_the_first_run_is_lost
           (mk_manager [("autosubmit_sync", create_task 3600)] NotCalled)
           "autosubmit_sync" (create_task 3600) _ _); [left | reflexivity | | | ];
    assumption.
Defined.

(** A call of [stop_workers] that comes after the task has begun is heard:
    the task leaves its loop at the end of its sleep and both calls return. *)
Lemma stop_workers_again_is_heard :
  let m := mk_manager [("autosubmit_sync", create_task 3600)] NotCalled in
  let m' := manager_steps m
              [StopWorkers; OnTask "autosubmit_sync" Started; StopWorkers;
               OnTask "autosubmit_sync" (Returned (Ok tt)); OnTask "autosubmit_sync" Woke;
               GatherResumes] in
  stopping m' = Finished /\
  (t_phase <$> (snd <$> tasks m')) = [Stopped] /\
  (t_cycles <$> (snd <$> tasks m')) = [1%nat].
Proof. cbv zeta. vm_compute. repeat split. Qed.

Lemma quiet_step (t : task) (ev : event) :
  ev <> Started -> quiet t ->
  quiet (step t ev) /\ t_cycles (step t ev) = t_cycles t.
Proof.
  intros Hev Hq. unfold quiet, done, step, loop_head in *.
  destruct ev as [|r| |]; [contradiction| | |];
    destruct (t_phase t) eqn:Hph; destruct (t_is_running t) eqn:Hrun;
    destruct Hq as [Hq|[Hq1 Hq2]]; try discriminate; try congruence;
    cbn [t_phase t_is_running t_cycles]; rewrite ?Hph;
    (split; [|reflexivity]);
    first [left; reflexivity | right; split; [reflexivity | discriminate]].
Qed.

Lemma quiet_round (t : task) (r : result unit) :
  quiet t -> done (step (step t (Returned r)) Woke) = true.
Proof.
  unfold quiet, done, step, loop_head.
  destruct (t_phase t) eqn:Hph; destruct (t_is_running t) eqn:Hrun;
    intros [Hq|[Hq1 Hq2]]; try discriminate; try congruence;
    cbn [t_phase t_is_running]; rewrite ?Hph, ?Hrun; cbn [t_phase t_is_running];
    reflexivity.
Qed.

Lemma steps_done (evs : list event) (t : task) :
  done t = true -> done (steps t evs) = true.
Proof.
  revert t. induction evs as [|ev evs IH]; intros t H; [exact H|].
  apply (IH (step t ev)), step_done, H.
Qed.

Lemma steps_drain (name : string) (results : string -> result unit)
  (ts : list (string * task)) (t0 : task) :
  quiet t0 ->
  quiet (steps t0 (events_of name (drain results ts))) /\
  t_cycles (steps t0 (events_of name (drain results ts))) = t_cycles t0 /\
  (name ∈ fst <$> ts -> done (steps t0 (events_of name (drain results ts))) = true).
Proof.
  revert t0. induction ts as [|nt ts IH]; intros t0 Hq.
  - split; [exact Hq|]. split; [reflexivity|]. intros H. apply elem_of_nil in H. contradiction.
  - unfold drain. rewrite fmap_cons. cbn [concat app events_of]. fold (drain results ts).
    destruct (bool_decide (fst nt = name)) eqn:Hn.
    + cbn [steps fold_left].
      destruct (quiet_step t0 (Returned (results (fst nt))) ltac:(discriminate) Hq)
        as [Hq1 Hc1].
      destruct (quiet_step _ Woke ltac:(discriminate) Hq1) as [Hq2 Hc2].
      destruct (IH _ Hq2) as (Hq3 & Hc3 & _).
      split; [exact Hq3|]. split; [unfold steps in Hc3; rewrite Hc3, Hc2, Hc1; reflexivity|].
      intros _. apply steps_done, quiet_round, Hq.
    + destruct (IH t0 Hq) as (Hq3 & Hc3 & Hd3).
      split; [exact Hq3|]. split; [exact Hc3|].
      intros Hin. rewrite fmap_cons in Hin. apply elem_of_cons in Hin as [Hin|Hin].
      * apply bool_decide_eq_false in Hn. exfalso. apply Hn. symmetry. exact Hin.
      * exact (Hd3 Hin).
Qed.

Lemma elem_of_concat {A} (x : A) (ls : list (list A)) :
  x ∈ concat ls -> exists l, x ∈ l /\ l ∈ ls.
Proof.
  intros H. apply list_elem_of_In, in_concat in H as (l & Hl & Hx).
  exists l. split; apply list_elem_of_In; assumption.
Qed.

Lemma manager_steps_on_tasks (mevs : list manager_event) (m : WorkerManager) :
  (forall ev, ev ∈ mevs -> exists n e, ev = OnTask n e) ->
  stopping (manager_steps m mevs) = stopping m /\
  tasks (manager_steps m mevs)
  = (fun nt : string * task => (fst nt, steps (snd nt) (events_of (fst nt) mevs)))
    <$> tasks m.
Proof.
  revert m. induction mevs as [|ev mevs IH]; intros m Hall.
  - split; [reflexivity|]. cbn. symmetry. apply fmap_fixed. intros [n t] _. reflexivity.
  - destruct (Hall ev ltac:(left)) as (n & e & ->).
    destruct (IH (manager_step m (OnTask n e))) as [Hs Ht].
    { intros ev Hev. apply Hall. right. exact Hev. }
    unfold manager_steps in *. cbn [fold_left]. rewrite Hs, Ht.
    split; [reflexivity|]. cbn [manager_step tasks]. unfold on_task.
    rewrite <- list_fmap_compose. apply Forall_fmap_ext, Forall_forall.
    intros [n0 t0] _. cbn [compose fst snd events_of].
    destruct (decide (n0 = n)) as [->|Hne].
    + rewrite !bool_decide_eq_true_2 by reflexivity. reflexivity.
    + rewrite (bool_decide_eq_false_2 (n0 = n)) by exact Hne.
      rewrite (bool_decide_eq_false_2 (n = n0)) by (intros Heq; apply Hne; symmetry; exact Heq).
      reflexivity.
Qed.

(** X13: when every task has begun its loop, [stop_workers] returns once each
    task has seen its current cycle return (or raise) and its current sleep
    end: by then every task has left its loop, and none has started another
    cycle. *)
Theorem stop_workers_returns_after_one_round
  (m : WorkerManager) (results : string -> result unit) :
  stopping m = NotCalled ->
  (forall nt, nt ∈ tasks m -> t_phase (snd nt) <> Idle) ->
  let m' := manager_steps (manager_step m StopWorkers)
              (drain results (tasks m) ++ [GatherResumes]) in
  stopping m' = Finished /\
  (forall nt, nt ∈ tasks m' -> t_phase (snd nt) = Stopped) /\
  (fun nt : string * task => (fst nt, t_cycles (snd nt))) <$> tasks m'
  = (fun nt : string * task => (fst nt, t_cycles (snd nt))) <$> tasks m.
Proof.
  intros Hnot Hbegun. cbv zeta.
  set (g := fun nt : string * task =>
              if done (snd nt) then nt else (fst nt, step (snd nt) Stop)).
  set (m1 := manager_step m StopWorkers).
  assert (Hm1 : tasks m1 = g <$> tasks m /\ stopping m1 <> NotCalled).
  { subst m1. rewrite stop_workers_step. cbv zeta. fold g.
    split; [reflexivity|].
    cbn [stopping]. destruct (fst <$> filter _ (g <$> tasks m)); discriminate. }
  destruct Hm1 as [Ht1 Hs1].
  assert (Hg : forall nt, nt ∈ tasks m ->
                 fst (g nt) = fst nt /\ quiet (snd (g nt)) /\
                 t_cycles (snd (g nt)) = t_cycles (snd nt)).
  { intros nt Hnt. unfold g. destruct (done (snd nt)) eqn:Hd.
    - split; [reflexivity|]. split; [left; exact Hd | reflexivity].
    - cbn [fst snd]. split; [reflexivity|]. split; [|reflexivity].
      right. unfold step. cbn. split; [reflexivity | apply Hbegun, Hnt]. }
  unfold manager_steps. rewrite fold_left_app. cbn [fold_left].
  fold (manager_steps m1 (drain results (tasks m))).
  destruct (manager_steps_on_tasks (drain results (tasks m)) m1) as [Hs2 Ht2].
  { intros ev Hev. unfold drain in Hev. apply elem_of_concat in Hev as (l & Hev & Hl).
    apply list_elem_of_fmap in Hl as (nt & -> & _).
    apply elem_of_cons in Hev as [->|Hev]; [eexists _, _; reflexivity|].
    apply list_elem_of_singleton in Hev. subst ev. eexists _, _. reflexivity. }
  set (m2 := manager_steps m1 (drain results (tasks m))) in *.
  assert (Hdone : forall nt, nt ∈ tasks m2 -> done (snd nt) = true).
  { intros nt Hnt. rewrite Ht2, Ht1, <- list_fmap_compose in Hnt.
    apply list_elem_of_fmap in Hnt as (nt0 & -> & Hnt0). cbn [compose fst snd].
    destruct (Hg nt0 Hnt0) as (Hname & Hq & _).
    apply (steps_drain _ results (tasks m) _ Hq). rewrite Hname.
    apply list_elem_of_fmap. exists nt0. split; [reflexivity | exact Hnt0]. }
  assert (Hfin : manager_step m2 GatherResumes = mk_manager (tasks m2) Finished).
  { unfold manager_step. rewrite Hs2.
    destruct (stopping m1) as [|p|] eqn:Hst; [contradiction| |].
    - assert (Hall : all_done p (tasks m2) = true).
      { unfold all_done. apply forallb_forall. intros nt Hnt.
        rewrite (Hdone nt) by (apply list_elem_of_In; exact Hnt).
        destruct (bool_decide (fst nt ∈ p)); reflexivity. }
      rewrite Hall. reflexivity.
    - destruct m2 as [ts2 st2]. cbn in Hs2 |- *. rewrite Hs2. reflexivity. }
  rewrite Hfin. cbn [stopping tasks].
  split; [reflexivity|]. split.
  - intros nt Hnt. specialize (Hdone nt Hnt). unfold done in Hdone.
    destruct (t_phase (snd nt)); [discriminate.. | reflexivity].
  - rewrite Ht2, Ht1, <- !list_fmap_compose. apply Forall_fmap_ext, Forall_forall.
    intros nt0 Hnt0. cbn [compose fst snd].
    destruct (Hg nt0 Hnt0) as (Hname & Hq & Hc).
    rewrite (proj1 (proj2 (steps_drain _ results (tasks m) _ Hq))), Hc, Hname. reflexivity.
Qed.

Lemma stop_workers_returns_after_one_round_witness :
  let t := steps (create_task 3600) [Started; Returned (Raise OperationalError)] in
  let m := mk_manager [("autosubmit_sync", t)] NotCalled in
  let m' := manager_steps (manager_step m StopWorkers)
              (drain (fun _ => Ok tt) (tasks m) ++ [GatherResumes]) in
  stopping m = NotCalled /\
  (forall nt, nt ∈ tasks m -> t_phase (snd nt) <> Idle) /\
  stopping m' = Finished.
Proof.
  cbv zeta.
  assert (Hbegun : forall nt,
            nt ∈ tasks (mk_manager
                          [("autosubmit_sync",
                            steps (create_task 3600)
                              [Started; Returned (Raise OperationalError)])] NotCalled) ->
            t_phase (snd nt) <> Idle).
  { intros nt Hnt. apply list_elem_of_singleton in Hnt. subst nt. discriminate. }
  split; [reflexivity|]. split; [exact Hbegun|].
  apply (stop_workers_returns_after_one_round
           (mk_manager
              [("autosubmit_sync",
                steps (create_task 3600) [Started; Returned (Raise OperationalError)])]
              NotCalled)
           (fun _ => Ok tt) eq_refl Hbegun).
Defined.

End PaceFacts.

(** ** The cache *)

Section CacheFacts.
Import Store Cache.
Context {time V : Type}.
Variable plus : time -> Z -> time.
Variable before : time -> time -> bool.

Lemma track_lookup (bump : key_stats -> key_stats) (key k : string)
  (stats : gmap string key_stats) :
  track bump key stats !! k =
  if bool_decide (k = key)
  then Some (bump (default (mk_key_stats 0 0) (stats !! key)))
  else stats !! k.
Proof.
  unfold track. destruct (bool_decide (k = key)) eqn:Hk.
  - apply bool_decide_eq_true in Hk. subst k.
    destruct (stats !! key) as [s|] eqn:Hs.
    + rewrite lookup_alter_eq, Hs. reflexivity.
    + rewrite lookup_alter_eq, lookup_insert_eq. reflexivity.
  - apply bool_decide_eq_false in Hk.
    rewrite lookup_alter_ne by (intros Heq; apply Hk; symmetry; exact Heq).
    destruct (stats !! key); [reflexivity|].
    rewrite lookup_insert_ne by (intros Heq; apply Hk; symmetry; exact Heq). reflexivity.
Qed.

(** X14: a value stored under a key is what [get] returns for that key
    until the time of expiry computed by [set] lies before the time of the
    call, and nothing from then on: that call removes the entry; [set] on
    one key changes nothing for the others. *)
Theorem get_after_set (now0 now : time) (key : string) (value : V) (ttl : option Z)
  (c : @MemoryCache time V) :
  let expiry :=
    plus now0 (match ttl with Some seconds => seconds | None => _default_ttl c end) in
  let c1 := set plus now0 key value ttl c in
  fst (get before now key c1) = (if before expiry now then None else Some value) /\
  _cache (snd (get before now key c1)) !! key
  = (if before expiry now then None else Some (value, expiry)) /\
  (forall key', key' <> key ->
     fst (get before now key' c1) = fst (get before now key' c) /\
     _cache (snd (get before now key c1)) !! key' = _cache c !! key').
Proof.
  cbv zeta. unfold get, set. cbn [_cache _default_ttl _stats].
  rewrite lookup_insert_eq.
  destruct (before _ now) eqn:Hb; cbn [fst snd _cache].
  - split; [reflexivity|]. split; [apply lookup_delete_eq|].
    intros key' Hne. rewrite lookup_insert_ne by (intros Heq; apply Hne; symmetry; exact Heq).
    split; [destruct (_cache c !! key') as [[v e]|]; [destruct (before e now)|]; reflexivity|].
    rewrite lookup_delete_ne by (intros Heq; apply Hne; symmetry; exact Heq).
    apply lookup_insert_ne. intros Heq. apply Hne. symmetry. exact Heq.
  - split; [reflexivity|]. split; [apply lookup_insert_eq|].
    intros key' Hne. rewrite lookup_insert_ne by (intros Heq; apply Hne; symmetry; exact Heq).
    split; [destruct (_cache c !! key') as [[v e]|]; [destruct (before e now)|]; reflexivity|].
    reflexivity.
Qed.

Lemma sum_Z_perm (l1 l2 : list Z) : l1 ≡ₚ l2 -> sum_Z l1 = sum_Z l2.
Proof.
  induction 1 as [|x l1 l2 _ IH|x y l|l1 l2 l3 _ IH1 _ IH2];
    unfold sum_Z in *; cbn [foldr] in *; lia.
Qed.

Lemma track_alt (bump : key_stats -> key_stats) (key : string)
  (stats : gmap string key_stats) :
  track bump key stats
  = <[key := bump (default (mk_key_stats 0 0) (stats !! key))]> (base.delete key stats).
Proof.
  apply map_eq. intros k. rewrite track_lookup.
  destruct (bool_decide (k = key)) eqn:Hk.
  - apply bool_decide_eq_true in Hk. subst k. rewrite lookup_insert_eq. reflexivity.
  - apply bool_decide_eq_false in Hk.
    rewrite lookup_insert_ne, lookup_delete_ne by (intros Heq; apply Hk; symmetry; exact Heq).
    reflexivity.
Qed.

Lemma track_sum (f : key_stats -> Z) (d : Z) (bump : key_stats -> key_stats)
  (key : string) (stats : gmap string key_stats) :
  (forall s, f (bump s) = f s + d) -> f (mk_key_stats 0 0) = 0 ->
  sum_Z (f <$> (snd <$> map_to_list (track bump key stats)))
  = sum_Z (f <$> (snd <$> map_to_list stats)) + d.
Proof.
  intros Hbump Hzero. rewrite track_alt.
  rewrite (sum_Z_perm _ (f <$> (snd <$> (key, bump (default (mk_key_stats 0 0) (stats !! key)))
                                          :: map_to_list (base.delete key stats)))).
  2:{ do 2 apply fmap_Permutation. apply map_to_list_insert, lookup_delete_eq. }
  rewrite !fmap_cons. cbn [snd sum_Z foldr]. rewrite Hbump.
  destruct (stats !! key) as [s|] eqn:Hs; cbn [default id].
  - rewrite (sum_Z_perm (f <$> (snd <$> map_to_list stats))
               (f <$> (snd <$> (key, s) :: map_to_list (base.delete key stats)))).
    2:{ do 2 apply fmap_Permutation. symmetry. apply map_to_list_delete, Hs. }
    rewrite !fmap_cons. cbn [snd sum_Z foldr]. unfold sum_Z. lia.
  - rewrite delete_id by exact Hs. rewrite Hzero. unfold sum_Z. lia.
Qed.

Lemma get_stats_of (now : time) (key : string) (c : @MemoryCache time V) :
  exists bump d_hits d_misses,
    _stats (snd (get before now key c)) = track bump key (_stats c) /\
    (forall s, hits (bump s) = hits s + d_hits) /\
    (forall s, misses (bump s) = misses s + d_misses) /\
    d_hits + d_misses = 1.
Proof.
  unfold get. destruct (_cache c !! key) as [[v e]|]; [destruct (before e now)|].
  - exists miss, 0, 1. split; [reflexivity|]. repeat split; intros; cbn; lia.
  - exists hit, 1, 0. split; [reflexivity|]. repeat split; intros; cbn; lia.
  - exists miss, 0, 1. split; [reflexivity|]. repeat split; intros; cbn; lia.
Qed.

Lemma serve_stats (c : @MemoryCache time V) (op : @call time V) :
  match op with
  | Get now key =>
      exists bump d_hits d_misses,
        _stats (serve plus before c op) = track bump key (_stats c) /\
        (forall s, hits (bump s) = hits s + d_hits) /\
        (forall s, misses (bump s) = misses s + d_misses) /\
        d_hits + d_misses = 1
  | _ => _stats (serve plus before c op) = _stats c
  end.
Proof.
  destruct op as [now key|now key value ttl|key| |now]; cbn [serve].
  - apply get_stats_of.
  - reflexivity.
  - unfold delete. destruct (_cache c !! key); reflexivity.
  - reflexivity.
  - reflexivity.
Qed.

Lemma serve_all_stats (ops : list (@call time V)) (c : @MemoryCache time V) :
  let stats := _stats c in
  let stats' := _stats (serve_all plus before c ops) in
  sum_Z (hits <$> (snd <$> map_to_list stats')) +
  sum_Z (misses <$> (snd <$> map_to_list stats'))
  = sum_Z (hits <$> (snd <$> map_to_list stats)) +
    sum_Z (misses <$> (snd <$> map_to_list stats)) + gets ops /\
  forall key, requests stats' key = requests stats key + gets_of key ops.
Proof.
  cbv zeta. revert c. induction ops as [|op ops IH]; intros c.
  - cbn. split; [lia | intros; lia].
  - unfold serve_all. cbn [fold_left]. fold (serve_all plus before (serve plus before c op) ops).
    destruct (IH (serve plus before c op)) as [IHsum IHkey].
    rewrite IHsum. pose proof (serve_stats c op) as Hop.
    destruct op as [now key|now key value ttl|key| |now];
      try (rewrite Hop; cbn [gets gets_of]; split; [lia|]; intros k; rewrite IHkey, Hop; lia).
    destruct Hop as (bump & dh & dm & Hst & Hh & Hm & Hd).
    rewrite Hst, (track_sum hits dh), (track_sum misses dm) by (assumption || reflexivity).
    cbn [gets gets_of]. split; [lia|].
    intros k. rewrite IHkey, Hst. unfold requests. rewrite track_lookup.
    destruct (decide (key = k)) as [->|Hne].
    + rewrite !bool_decide_eq_true_2 by reflexivity. rewrite Hh, Hm.
      destruct (_stats c !! k); cbn; lia.
    + rewrite (bool_decide_eq_false_2 (key = k)) by exact Hne.
      rewrite (bool_decide_eq_false_2 (k = key)) by (intros Heq; apply Hne; symmetry; exact Heq).
      lia.
Qed.

(** X15: the statistics count the calls of [get] and nothing else: on a
    cache that has served any calls since it was made, the hits and the
    misses [get_stats] reports add up to the number of calls of [get], in
    all and for every key; [set], [delete], [clear] and [clean_expired]
    leave them alone. *)
Theorem stats_count_the_calls_of_get (default_ttl : Z) (ops : list (@call time V))
  (now : time) :
  let c := serve_all plus before (MemoryCache_init default_ttl) ops in
  let report := get_stats before now c in
  total_hits report + total_misses report = gets ops /\
  (forall key,
     match keys report !! key with
     | Some r =>
         r_hits r + r_misses r = gets_of key ops /\
         r_total_requests r = gets_of key ops
     | None => gets_of key ops = 0
     end) /\
  (forall op, match op with Get _ _ => True | _ => _stats (serve plus before c op) = _stats c end).
Proof.
  cbv zeta.
  destruct (serve_all_stats ops (MemoryCache_init default_ttl)) as [Hsum Hkey].
  cbn [MemoryCache_init _stats] in Hsum, Hkey.
  rewrite map_to_list_empty in Hsum. cbn in Hsum.
  unfold get_stats. cbn [total_hits total_misses keys].
  split; [lia|]. split.
  - intros key. specialize (Hkey key). unfold requests in Hkey.
    rewrite lookup_empty in Hkey. rewrite lookup_fmap.
    destruct (_stats (serve_all plus before (MemoryCache_init default_ttl) ops) !! key);
      cbn [fmap option_fmap option_map r_hits r_misses r_total_requests]; lia.
  - intros op. pose proof (serve_stats (serve_all plus before (MemoryCache_init default_ttl) ops) op) as H.
    destruct op; [exact I | exact H..].
Qed.

(** X16: [delete] returns [False] exactly when the key was there and has
    been removed, and [True] when there was nothing to remove; either way
    the key is gone and the other entries stay. *)
Theorem delete_returns_false_when_it_removes (key : string) (c : @MemoryCache time V) :
  (fst (delete key c) = false <-> is_Some (_cache c !! key)) /\
  (fst (delete key c) = true <-> _cache c !! key = None) /\
  _cache (snd (delete key c)) !! key = None /\
  (forall key', key' <> key ->
     _cache (snd (delete key c)) !! key' = _cache c !! key') /\
  _stats (snd (delete key c)) = _stats c /\
  (forall now, fst (get before now key (snd (delete key c))) = None).
Proof.
  unfold delete. destruct (_cache c !! key) as [entry|] eqn:Hk; cbn [fst snd _cache _stats].
  - split; [split; [intros _; eexists; reflexivity | reflexivity]|].
    split; [split; discriminate|]. split; [apply lookup_delete_eq|].
    split; [intros key' Hne; apply lookup_delete_ne; intros Heq; apply Hne; symmetry; exact Heq|].
    split; [reflexivity|]. intros now. unfold get. cbn [_cache].
    rewrite lookup_delete_eq. reflexivity.
  - split; [split; [discriminate | intros [x Hx]; discriminate]|].
    split; [split; reflexivity|]. split; [exact Hk|]. split; [reflexivity|].
    split; [reflexivity|]. intros now. unfold get. rewrite Hk. reflexivity.
Qed.

Lemma foldl_delete_lookup (ks : list string) (m : gmap string (V * time)) (k : string) :
  foldl (fun entries key => base.delete key entries) m ks !! k
  = if bool_decide (k ∈ ks) then None else m !! k.
Proof.
  revert m. induction ks as [|k0 ks IH]; intros m; [reflexivity|].
  cbn [foldl]. rewrite IH.
  destruct (decide (k = k0)) as [->|Hne].
  - rewrite (bool_decide_eq_true_2 (k0 ∈ k0 :: ks)) by left.
    rewrite lookup_delete_eq. destruct (bool_decide (k0 ∈ ks)); reflexivity.
  - rewrite lookup_delete_ne by (intros Heq; apply Hne; symmetry; exact Heq).
    destruct (bool_decide (k ∈ ks)) eqn:Hin.
    + apply bool_decide_eq_true in Hin.
      rewrite bool_decide_eq_true_2 by (right; exact Hin). reflexivity.
    + apply bool_decide_eq_false in Hin. rewrite bool_decide_eq_false_2; [reflexivity|].
      intros H. apply elem_of_cons in H as [H|H]; [exact (Hne H) | exact (Hin H)].
Qed.

Lemma foldl_delete_size (ks : list string) (m : gmap string (V * time)) :
  NoDup ks -> (forall k, k ∈ ks -> is_Some (m !! k)) ->
  (size (foldl (fun entries key => base.delete key entries) m ks) + length ks = size m)%nat.
Proof.
  revert m. induction ks as [|k0 ks IH]; intros m Hnd Hin; [cbn; lia|].
  apply NoDup_cons in Hnd as [Hk0 Hnd]. cbn [foldl length].
  pose proof (map_size_delete_Some k0 m (Hin k0 ltac:(left))) as Hsz.
  assert (Hpos : (0 < size m)%nat).
  { destruct (Hin k0 ltac:(left)) as [x Hx].
    destruct (size m) eqn:Hs; [|lia].
    apply map_size_empty_inv in Hs. subst m. rewrite lookup_empty in Hx. discriminate. }
  assert (IH' : (size (foldl (fun entries key => base.delete key entries)
                         (base.delete k0 m) ks) + length ks
                 = size (base.delete k0 m))%nat).
  { apply IH; [exact Hnd|]. intros k Hk.
    rewrite lookup_delete_ne; [apply Hin; right; exact Hk|].
    intros ->. exact (Hk0 Hk). }
  lia.
Qed.

Lemma filter_snd_length (now : time) (l : list (string * (V * time))) :
  length (filter (fun entry : V * time => before (snd entry) now = true) (snd <$> l))
  = length (filter (fun item : string * (V * time) => before (snd (snd item)) now = true) l).
Proof.
  induction l as [|[k e] l IH]; [reflexivity|].
  rewrite fmap_cons. cbn [snd].
  destruct (before (snd e) now) eqn:Hb.
  - rewrite !filter_cons_True by exact Hb. cbn [length]. rewrite IH. reflexivity.
  - rewrite !filter_cons_False by (cbn [snd]; rewrite Hb; discriminate). exact IH.
Qed.

Lemma expired_keys_spec (now : time) (m : gmap string (V * time)) (k : string) :
  k ∈ fst <$> filter (fun item : string * (V * time) => before (snd (snd item)) now = true)
                (map_to_list m)
  <-> exists entry, m !! k = Some entry /\ before (snd entry) now = true.
Proof.
  split.
  - intros H. apply list_elem_of_fmap in H as ([k' entry] & -> & H).
    apply list_elem_of_filter in H as [Hb H]. apply elem_of_map_to_list in H.
    exists entry. split; [exact H | exact Hb].
  - intros (entry & Hk & Hb). apply list_elem_of_fmap. exists (k, entry).
    split; [reflexivity|]. apply list_elem_of_filter. split; [exact Hb|].
    apply elem_of_map_to_list, Hk.
Qed.

(** X17: [clean_expired] returns the number of entries [get_stats] counts
    as expired at that time; afterwards none is expired, the entries are the
    ones that were active, the statistics are untouched, and [get] returns
    for every key what it would have returned before the cleaning. *)
Theorem clean_expired_removes_the_expired (now : time) (c : @MemoryCache time V) :
  let before_cleaning := get_stats before now c in
  let out := clean_expired before now c in
  let after_cleaning := get_stats before now (snd out) in
  fst out = expired_entries before_cleaning /\
  expired_entries after_cleaning = 0 /\
  total_entries after_cleaning = active_entries before_cleaning /\
  _stats (snd out) = _stats c /\
  (forall key,
     _cache (snd out) !! key
     = match _cache c !! key with
       | Some (value, expiry) => if before expiry now then None else Some (value, expiry)
       | None => None
       end) /\
  (forall key, fst (get before now key (snd out)) = fst (get before now key c)).
Proof.
  cbv zeta. unfold clean_expired, get_stats.
  cbn [fst snd _cache _stats total_entries expired_entries active_entries].
  set (m := _cache c).
  set (ks := fst <$> filter (fun item : string * (V * time) =>
                               before (snd (snd item)) now = true) (map_to_list m)).
  set (m' := foldl (fun entries key => base.delete key entries) m ks).
  assert (Hlook : forall key,
            m' !! key
            = match m !! key with
              | Some (value, expiry) =>
                  if before expiry now then None else Some (value, expiry)
              | None => None
              end).
  { intros key. subst m'. rewrite foldl_delete_lookup.
    destruct (bool_decide (key ∈ ks)) eqn:Hin.
    - apply bool_decide_eq_true in Hin. apply expired_keys_spec in Hin as ([v e] & Hk & Hb).
      rewrite Hk. cbn [snd] in Hb. rewrite Hb. reflexivity.
    - apply bool_decide_eq_false in Hin.
      destruct (m !! key) as [[v e]|] eqn:Hk; [|reflexivity].
      destruct (before e now) eqn:Hb; [|reflexivity].
      exfalso. apply Hin. apply expired_keys_spec. exists (v, e). split; assumption. }
  assert (Hnd : NoDup ks).
  { subst ks. eapply sublist_NoDup; [apply (NoDup_fst_map_to_list m)|].
    apply fmap_sublist, sublist_filter. }
  assert (Hsize : (size m' + length ks = size m)%nat).
  { apply foldl_delete_size; [exact Hnd|]. intros k Hk.
    apply expired_keys_spec in Hk as (entry & Hk & _). eexists. exact Hk. }
  assert (Hlen : length (filter (fun entry : V * time => before (snd entry) now = true)
                           (snd <$> map_to_list m)) = length ks).
  { subst ks. rewrite length_fmap. apply filter_snd_length. }
  assert (Hnone : filter (fun entry : V * time => before (snd entry) now = true)
                    (snd <$> map_to_list m') = []).
  { apply filter_none. intros [v e] Hin Hb. cbn [snd] in Hb.
    apply list_elem_of_fmap in Hin as ([k entry] & Hentry & Hin). cbn [snd] in Hentry.
    subst entry. apply elem_of_map_to_list in Hin. rewrite Hlook in Hin.
    destruct (m !! k) as [[v0 e0]|]; [|discriminate].
    destruct (before e0 now) eqn:Hb0; [discriminate|].
    inversion Hin; subst. congruence. }
  split; [rewrite Hlen; reflexivity|]. split; [rewrite Hnone; reflexivity|].
  split; [rewrite Hlen; lia|]. split; [reflexivity|]. split; [exact Hlook|].
  intros key. unfold get. cbn [_cache]. fold m. rewrite Hlook.
  destruct (m !! key) as [[v e]|]; [|reflexivity].
  destruct (before e now) eqn:Hb; [reflexivity|]. rewrite Hb. reflexivity.
Qed.

End CacheFacts.

(** ** Registering and starting workers *)

Section RegistryFacts.
Import Clock Store Sync Scheduler Registry.

Lemma item_assign_eq {A} (name : string) (a : A) (d : list (string * A)) :
  item name (assign name a d) = Some a.
Proof.
  induction d as [|[n x] d IH]; cbn [assign item].
  - rewrite bool_decide_eq_true_2 by reflexivity. reflexivity.
  - destruct (bool_decide (n = name)) eqn:Hn; cbn [item]; rewrite Hn; [reflexivity | exact IH].
Qed.

Lemma item_assign_ne {A} (name other : string) (a : A) (d : list (string * A)) :
  other <> name -> item other (assign name a d) = item other d.
Proof.
  intros Hne. induction d as [|[n x] d IH]; cbn [assign item].
  - rewrite bool_decide_eq_false_2 by (intros Heq; apply Hne; symmetry; exact Heq). reflexivity.
  - destruct (bool_decide (n = name)) eqn:Hn; cbn [item].
    + apply bool_decide_eq_true in Hn. subst n.
      rewrite bool_decide_eq_false_2 by (intros Heq; apply Hne; symmetry; exact Heq).
      reflexivity.
    + destruct (bool_decide (n = other)); [reflexivity | exact IH].
Qed.

Lemma keys_assign {A} (name : string) (a : A) (d : list (string * A)) :
  fst <$> assign name a d
  = if bool_decide (name ∈ fst <$> d) then fst <$> d else (fst <$> d) ++ [name].
Proof.
  induction d as [|[n x] d IH]; cbn [assign].
  - rewrite bool_decide_eq_false_2 by apply not_elem_of_nil. reflexivity.
  - rewrite !fmap_cons. cbn [fst].
    destruct (bool_decide (n = name)) eqn:Hn.
    + apply bool_decide_eq_true in Hn. subst n.
      rewrite fmap_cons, bool_decide_eq_true_2 by left. reflexivity.
    + apply bool_decide_eq_false in Hn. rewrite fmap_cons, IH. cbn [fst].
      destruct (bool_decide (name ∈ fst <$> d)) eqn:Hin.
      * apply bool_decide_eq_true in Hin.
        rewrite bool_decide_eq_true_2 by (right; exact Hin). reflexivity.
      * apply bool_decide_eq_false in Hin. rewrite bool_decide_eq_false_2; [reflexivity|].
        intros H. apply elem_of_cons in H as [H|H]; [apply Hn; symmetry; exact H | exact (Hin H)].
Qed.

Lemma item_keys {A} (name : string) (d : list (string * A)) :
  name ∈ fst <$> d <-> is_Some (item name d).
Proof.
  induction d as [|[n x] d IH]; cbn [item].
  - split; [intros H; apply elem_of_nil in H; contradiction | intros [y Hy]; discriminate].
  - rewrite fmap_cons. cbn [fst]. destruct (bool_decide (n = name)) eqn:Hn.
    + apply bool_decide_eq_true in Hn. subst n. split; [eexists; reflexivity | left].
    + apply bool_decide_eq_false in Hn. rewrite <- IH. split.
      * intros H. apply elem_of_cons in H as [H|H]; [exfalso; apply Hn; symmetry; exact H | exact H].
      * intros H. right. exact H.
Qed.

(** X18: a worker registered under a name is the one [get_worker] returns
    for it, whatever was registered there before; the other names keep their
    workers; a new name goes to the end of [get_worker_names], a known one
    keeps its place, so the names stay distinct; and [get_worker] raises
    [KeyError] exactly for the names that are not registered. *)
Theorem registered_worker_is_found
  (name : string) (worker : AutosubmitSyncWorker) (m : WorkerManager) :
  let m' := register_worker name worker m in
  get_worker name m' = Found worker /\
  (forall other, other <> name -> get_worker other m' = get_worker other m) /\
  get_worker_names m'
  = (if registered name m then get_worker_names m else get_worker_names m ++ [name]) /\
  (NoDup (get_worker_names m) -> NoDup (get_worker_names m')) /\
  (forall other,
     (exists message, get_worker other m = KeyError message)
     <-> other ∉ get_worker_names m).
Proof.
  cbv zeta.
  assert (Hnames : get_worker_names (register_worker name worker m)
                   = if registered name m then get_worker_names m
                     else get_worker_names m ++ [name]).
  { unfold get_worker_names, register_worker, registered. cbn [workers].
    apply keys_assign. }
  assert (Hreg : forall other,
            registered other (register_worker name worker m)
            = if bool_decide (other = name) then true else registered other m).
  { intros other. unfold registered at 1. fold (get_worker_names (register_worker name worker m)).
    rewrite Hnames. unfold registered, get_worker_names.
    destruct (bool_decide (other = name)) eqn:Ho.
    - apply bool_decide_eq_true in Ho. subst other.
      destruct (bool_decide (name ∈ fst <$> workers m)) eqn:Hin.
      + exact Hin.
      + apply bool_decide_eq_true_2, elem_of_app. right. left.
    - apply bool_decide_eq_false in Ho.
      destruct (bool_decide (name ∈ fst <$> workers m)); [reflexivity|].
      apply bool_decide_ext. rewrite elem_of_app, list_elem_of_singleton. tauto. }
  split; [|split; [|split; [exact Hnames|split]]].
  - unfold get_worker. rewrite Hreg, bool_decide_eq_true_2 by reflexivity. cbn [negb].
    unfold register_worker. cbn [workers]. rewrite item_assign_eq. reflexivity.
  - intros other Hne. unfold get_worker. rewrite Hreg, bool_decide_eq_false_2 by exact Hne.
    unfold register_worker at 1. cbn [workers]. rewrite item_assign_ne by exact Hne.
    reflexivity.
  - intros Hnd. rewrite Hnames. unfold registered, get_worker_names in *.
    destruct (bool_decide (name ∈ fst <$> workers m)) eqn:Hin; [exact Hnd|].
    apply bool_decide_eq_false in Hin. apply NoDup_app. split; [exact Hnd|].
    split; [|apply NoDup_singleton].
    intros x Hx Hx'. apply list_elem_of_singleton in Hx'. subst x. exact (Hin Hx).
  - intros other. unfold get_worker, registered, get_worker_names.
    destruct (bool_decide (other ∈ fst <$> workers m)) eqn:Hin; cbn [negb].
    + apply bool_decide_eq_true in Hin. pose proof (proj1 (item_keys other _) Hin) as [w Hw].
      rewrite Hw. split; [intros [msg Hmsg]; discriminate | intros Hnot; contradiction].
    + apply bool_decide_eq_false in Hin. split; [intros _; exact Hin | intros _; eexists; reflexivity].
Qed.

Lemma start_fold_idle (shared : datetime) (items : list (string * AutosubmitSyncWorker))
  met ts lg :
  (forall e, e ∈ items -> startable (fst e) ts = false) ->
  fold_left (start_one shared) items (met, ts, lg) = (met ++ items, ts, lg).
Proof.
  revert met. induction items as [|e items IH]; intros met Hidle.
  - rewrite app_nil_r. reflexivity.
  - cbn [fold_left start_one]. rewrite (Hidle e) by left.
    rewrite IH by (intros e' He'; apply Hidle; right; exact He').
    rewrite <- app_assoc. destruct e. reflexivity.
Qed.

Lemma startable_insert_ne (name n : string) (t : task) (ts : gmap string task) :
  name <> n -> startable name (<[n := t]> ts) = startable name ts.
Proof.
  intros Hne. unfold startable.
  rewrite lookup_insert_ne by (intros Heq; apply Hne; symmetry; exact Heq). reflexivity.
Qed.

Lemma item_not_in {A} (name : string) (d : list (string * A)) :
  name ∉ fst <$> d -> item name d = None.
Proof.
  intros Hnot. destruct (item name d) eqn:Hi; [|reflexivity].
  exfalso. apply Hnot, item_keys. eexists. exact Hi.
Qed.

Lemma start_fold (shared : datetime) (items : list (string * AutosubmitSyncWorker))
  met ts lg :
  NoDup (fst <$> items) ->
  exists ts' lg',
    fold_left (start_one shared) items (met, ts, lg)
    = (met ++ ((fun e : string * AutosubmitSyncWorker =>
                  if startable (fst e) ts
                  then (fst e, set_timestamp shared (snd e)) else e) <$> items),
       ts', lg') /\
    forall name,
      ts' !! name
      = match item name items with
        | Some worker =>
            if startable name ts then Some (create_task (interval_seconds worker))
            else ts !! name
        | None => ts !! name
        end.
Proof.
  revert met ts lg. induction items as [|[n w] items IH]; intros met ts lg Hnd.
  - exists ts, lg. rewrite app_nil_r. split; reflexivity.
  - rewrite fmap_cons in Hnd. apply NoDup_cons in Hnd as [Hn Hnd]. cbn [fst] in Hn.
    cbn [fold_left start_one fst snd]. rewrite fmap_cons. cbn [fst snd].
    destruct (startable n ts) eqn:Hs.
    + destruct (IH (met ++ [(n, set_timestamp shared w)])
                  (<[n := create_task (interval_seconds w)]> ts)
                  (lg ++ [(INFO, "Started worker")]) Hnd) as (ts' & lg' & -> & Hts).
      exists ts', lg'. rewrite <- app_assoc. cbn [app].
      assert (Hsame : forall name, name <> n ->
                startable name (<[n := create_task (interval_seconds w)]> ts)
                = startable name ts)
        by (intros name Hne; apply startable_insert_ne, Hne).
      split.
      * f_equal. f_equal. f_equal. f_equal. apply Forall_fmap_ext, Forall_forall.
        intros e He. rewrite Hsame; [reflexivity|]. intros Heq. apply Hn. rewrite <- Heq.
        apply list_elem_of_fmap. exists e. split; [reflexivity | exact He].
      * intros name. rewrite Hts. cbn [item].
        destruct (bool_decide (n = name)) eqn:Hname.
        -- apply bool_decide_eq_true in Hname. subst name.
           rewrite (item_not_in n items Hn), Hs. apply lookup_insert_eq.
        -- apply bool_decide_eq_false in Hname.
           rewrite Hsame by (intros Heq; apply Hname; symmetry; exact Heq).
           rewrite lookup_insert_ne by exact Hname. reflexivity.
    + destruct (IH (met ++ [(n, w)]) ts lg Hnd) as (ts' & lg' & -> & Hts).
      exists ts', lg'. rewrite <- app_assoc. split; [reflexivity|].
      intros name. rewrite Hts. cbn [item].
      destruct (bool_decide (n = name)) eqn:Hname; [|reflexivity].
      apply bool_decide_eq_true in Hname. subst name.
      rewrite (item_not_in n items Hn), Hs. reflexivity.
Qed.

Lemma item_started (now : datetime) (ts : gmap string task) (name : string)
  (d : list (string * AutosubmitSyncWorker)) :
  item name ((fun e : string * AutosubmitSyncWorker =>
                if startable (fst e) ts
                then (fst e, set_timestamp now (snd e)) else e) <$> d)
  = (fun w => if startable name ts then set_timestamp now w else w) <$> item name d.
Proof.
  induction d as [|[n w] d IH]; [reflexivity|].
  rewrite fmap_cons. cbn [fst snd]. destruct (bool_decide (n = name)) eqn:Hname.
  - apply bool_decide_eq_true in Hname. subst n.
    destruct (startable name ts); cbn [item];
      rewrite bool_decide_eq_true_2 by reflexivity; reflexivity.
  - destruct (startable n ts); cbn [item]; rewrite Hname; exact IH.
Qed.

Lemma item_of_elem {A} (name : string) (a : A) (d : list (string * A)) :
  NoDup (fst <$> d) -> (name, a) ∈ d -> item name d = Some a.
Proof.
  induction d as [|[n0 a0] d IH]; intros Hnd He; [apply elem_of_nil in He; contradiction|].
  rewrite fmap_cons in Hnd. apply NoDup_cons in Hnd as [Hn0 Hnd]. cbn [item].
  apply elem_of_cons in He as [He|He].
  - inversion He; subst. rewrite bool_decide_eq_true_2 by reflexivity. reflexivity.
  - rewrite bool_decide_eq_false_2; [exact (IH Hnd He)|].
    intros ->. apply Hn0. apply list_elem_of_fmap. exists (name, a).
    split; [reflexivity | exact He].
Qed.

(** X19: [start_workers] keeps the names, records the timestamp it
    generated, and deals with each registered worker by its task: a worker
    without a task, or whose task is done, gets the timestamp and a new
    task; a worker whose task is still there keeps both its timestamp and
    its task. The tasks of names that are not registered are not touched. A
    second call straight after starts nothing and hands its timestamp to no
    worker. *)
Theorem start_workers_starts_what_is_not_running (now : datetime) (m : WorkerManager) :
  NoDup (get_worker_names m) ->
  let m' := start_workers now m in
  current_timestamp m' = Some now /\
  get_worker_names m' = get_worker_names m /\
  (forall name worker, get_worker name m = Found worker ->
     if startable name (tasks m)
     then get_worker name m' = Found (set_timestamp now worker) /\
          tasks m' !! name = Some (create_task (interval_seconds worker))
     else get_worker name m' = Found worker /\ tasks m' !! name = tasks m !! name) /\
  (forall name, name ∉ get_worker_names m -> tasks m' !! name = tasks m !! name) /\
  (forall later,
     workers (start_workers later m') = workers m' /\
     tasks (start_workers later m') = tasks m').
Proof.
  intros Hnd m'.
  destruct (start_fold now (workers m) [] (tasks m)
              ((log m ++ [(INFO, "Starting all workers")]) ++
               [(INFO, "Generated shared timestamp for all workers")]) Hnd)
    as (ts' & lg' & Hfold & Hts).
  set (g := fun e : string * AutosubmitSyncWorker =>
              if startable (fst e) (tasks m)
              then (fst e, set_timestamp now (snd e)) else e) in *.
  assert (Hm' : m' = mk_registry (g <$> workers m) ts' (Some now) lg').
  { subst m'. unfold start_workers. rewrite Hfold. reflexivity. }
  clearbody m'. subst m'. cbn [current_timestamp workers tasks get_worker_names].
  assert (Hkeys : fst <$> (g <$> workers m) = fst <$> workers m).
  { rewrite <- list_fmap_compose. apply Forall_fmap_ext, Forall_forall.
    intros e _. unfold g, compose. destruct (startable (fst e) (tasks m)); reflexivity. }
  split; [reflexivity|]. split; [exact Hkeys|]. split; [|split].
  - intros name worker Hget. unfold get_worker, registered in Hget |- *.
    cbn [workers tasks]. rewrite Hkeys.
    destruct (bool_decide (name ∈ fst <$> workers m)); cbn [negb] in *; [|discriminate].
    destruct (item name (workers m)) as [w|] eqn:Hw; [|discriminate].
    inversion Hget; subst w. unfold g. rewrite item_started, Hw, Hts, Hw. cbn.
    destruct (startable name (tasks m)); split; reflexivity.
  - intros name Hnot. rewrite Hts, (item_not_in name _ Hnot). reflexivity.
  - intros later. unfold start_workers. cbn [workers tasks log].
    rewrite start_fold_idle; [split; reflexivity|].
    intros e He. apply list_elem_of_fmap in He as ([n w] & -> & He).
    assert (Hw : item n (workers m) = Some w) by (apply item_of_elem; assumption).
    assert (Hfst : fst (g (n, w)) = n) by (unfold g; cbn [fst]; destruct (startable n (tasks m)); reflexivity).
    rewrite Hfst. unfold startable at 1. rewrite Hts, Hw.
    destruct (startable n (tasks m)) eqn:Hs; [reflexivity|].
    unfold startable in Hs. destruct (tasks m !! n); [exact Hs | discriminate].
Qed.

Lemma start_workers_starts_what_is_not_running_witness :
  let m := register_default_workers 3600 (date 2024 5 1) WorkerManager_init in
  NoDup (get_worker_names m) /\
  get_worker_names (start_workers (date 2024 5 2) m) = ["autosubmit_sync"] /\
  tasks (start_workers (date 2024 5 3) (start_workers (date 2024 5 2) m))
  = tasks (start_workers (date 2024 5 2) m).
Proof.
  cbv zeta.
  assert (Hnd : NoDup (get_worker_names
                         (register_default_workers 3600 (date 2024 5 1) WorkerManager_init))).
  { apply NoDup_singleton. }
  split; [exact Hnd|].
  destruct (start_workers_starts_what_is_not_running (date 2024 5 2) _ Hnd)
    as (_ & Hnames & _ & _ & Hagain).
  split; [exact Hnames | apply (Hagain (date 2024 5 3))].
Defined.

End RegistryFacts.

(** ** The two tables agree on the number of experiments of a model *)

Section CountFacts.
Import Names Clock Store Sync Laws Integrity.

Lemma insert_experiments_fresh rows tbl tbl' :
  insert_experiments rows tbl = Ok tbl' ->
  NoDup (e_id <$> rows) ->
  (forall r, r ∈ rows -> e_id r ∉ e_id <$> tbl) ->
  tbl' = tbl ++ rows.
Proof.
  revert tbl. induction rows as [|r rows IH]; intros tbl H Hnd Hnew; cbn in H.
  - inversion H. rewrite app_nil_r. reflexivity.
  - rewrite fmap_cons in Hnd. apply NoDup_cons in Hnd as [Hr Hnd].
    rewrite bool_decide_eq_false_2 in H by (apply Hnew; left).
    destruct (bool_decide (e_name r ∈ e_name <$> tbl)); [discriminate|].
    rewrite (IH _ H Hnd), <- app_assoc; [reflexivity|].
    intros r' Hr' Hin. rewrite fmap_app in Hin. apply elem_of_app in Hin as [Hin|Hin].
    + exact (Hnew r' ltac:(right; exact Hr') Hin).
    + apply list_elem_of_singleton in Hin. apply Hr. rewrite <- Hin.
      apply list_elem_of_fmap. exists r'. split; [reflexivity | exact Hr'].
Qed.

Lemma count_model_app m tbl1 tbl2 :
  count_model m (tbl1 ++ tbl2) = count_model m tbl1 + count_model m tbl2.
Proof. unfold count_model. rewrite filter_app, length_app. lia. Qed.

Lemma count_model_rows m model_name (xs : list exp_entry) :
  count_model m (experiment_row model_name <$> xs)
  = if decide (model_name = m) then Z.of_nat (length xs) else 0.
Proof.
  unfold count_model. induction xs as [|x xs IH]; [destruct (decide _); reflexivity|].
  rewrite fmap_cons. destruct (decide (model_name = m)) as [Hm|Hm].
  - rewrite filter_cons_True by exact Hm. cbn [length]. lia.
  - rewrite filter_cons_False by exact Hm. exact IH.
Qed.

Lemma count_model_others m (rows : list ExperimentTimeDB) :
  (forall r, r ∈ rows -> e_model r <> m) -> count_model m rows = 0.
Proof.
  intros H. unfold count_model.
  rewrite (filter_none (fun r => e_model r = m) rows H). reflexivity.
Qed.

Lemma id_text_NoDup (l : list Z) : NoDup l -> NoDup (id_text <$> l).
Proof.
  induction 1 as [|n l Hn Hnd IH]; [constructor|].
  rewrite fmap_cons. constructor; [|exact IH].
  intros Hin. apply list_elem_of_fmap in Hin as (n' & Heq & Hn').
  apply id_text_inj in Heq. subst n'. exact (Hn Hn').
Qed.

(** One group keeps the two tables in step on a model, when the day of the
    group has a popularity row of the model exactly when its experiments
    were in the table at the start; [db0] is the store at the start. *)
Lemma update_group_counted E current_time keys st (item : key * model_info) s st' s' m
  (db0 : timescaledb) :
  update_group E current_time keys st item s = (Ok st', s') ->
  (forall i, i ∈ ids_of (pending s) ->
     i ∈ ids_of db0 \/ exists n, i = id_text n /\ IntId n ∈ existing_experiment_ids st) ->
  (forall i, i ∈ ids_of db0 -> i ∈ ids_of (pending s)) ->
  NoDup (x_id <$> mi_experiments (snd item)) ->
  (snd (fst item) = m -> forall x, x ∈ mi_experiments (snd item) ->
     (fst item ∈ keys <-> id_text (x_id x) ∈ ids_of db0)) ->
  (forall i, i ∈ ids_of (pending s') ->
     i ∈ ids_of db0 \/ exists n, i = id_text n /\ IntId n ∈ existing_experiment_ids st') /\
  (forall i, i ∈ ids_of db0 -> i ∈ ids_of (pending s')) /\
  count_model m (experiments (pending s')) - sum_count m (new_model_popularity_entries st')
  = count_model m (experiments (pending s)) - sum_count m (new_model_popularity_entries st).
Proof.
  intros H Hfrom Hkept Hnd Hkey.
  apply update_group_ok in H as (-> & _ & _ & Hins).
  pose proof (group_effect_ids (metric_models_popularity (pending s)) keys current_time
                st item) as [Hgrow Hseen].
  set (new := new_experiments_of (existing_experiment_ids st) (snd item)) in *.
  assert (Hnew : forall x, x ∈ new ->
                   x ∈ mi_experiments (snd item) /\
                   (IntId (x_id x) ∉ existing_experiment_ids st)).
  { intros x Hx. apply list_elem_of_filter in Hx as [Hx1 Hx2]. split; assumption. }
  destruct (insert_experiments_ok _ _ _ Hins) as (added & Htbl & Hadded & _).
  split; [|split].
  - intros i Hi. unfold ids_of in Hi. rewrite Htbl, fmap_app in Hi.
    apply elem_of_app in Hi as [Hi|Hi].
    + destruct (Hfrom i Hi) as [H0|(n & -> & Hn)]; [left; exact H0|].
      right. exists n. split; [reflexivity | apply Hgrow, Hn].
    + right. apply list_elem_of_fmap in Hi as (r & -> & Hr).
      apply Hadded, list_elem_of_fmap in Hr as (x & -> & Hx).
      exists (x_id x). split; [reflexivity|]. apply Hseen, (Hnew x Hx).
  - intros i Hi. unfold ids_of. rewrite Htbl, fmap_app. apply elem_of_app. left.
    apply Hkept, Hi.
  - destruct (decide (snd (fst item) = m)) as [Hm|Hm].
    + destruct (decide (fst item ∈ keys)) as [Hin|Hout].
      * assert (Hsame : experiments (pending s') = experiments (pending s)).
        { rewrite insert_experiments_known in Hins; [injection Hins as <-; reflexivity|].
          intros r Hr. apply list_elem_of_fmap in Hr as (x & -> & Hx).
          apply (Hkept (id_text (x_id x))). apply (Hkey Hm x); [|exact Hin].
          apply (Hnew x Hx). }
        rewrite Hsame. unfold group_effect. fold new.
        destruct (Z.of_nat (length new) =? 0); [reflexivity|].
        cbn [new_model_popularity_entries].
        rewrite bool_decide_eq_false_2 by (intros Hn; exact (Hn Hin)).
        rewrite app_nil_r. reflexivity.
      * assert (Hall : experiments (pending s')
                       = experiments (pending s) ++ (experiment_row (snd (fst item)) <$> new)).
        { apply (insert_experiments_fresh _ _ _ Hins).
          - rewrite <- list_fmap_compose.
            change (e_id ∘ experiment_row (snd (fst item))) with (id_text ∘ x_id).
            rewrite list_fmap_compose. apply id_text_NoDup.
            eapply sublist_NoDup; [exact Hnd|]. apply fmap_sublist, sublist_filter.
          - intros r Hr Hin. apply list_elem_of_fmap in Hr as (x & -> & Hx).
            destruct (Hnew x Hx) as [Hx1 Hx2].
            destruct (Hfrom _ Hin) as [H0|(n & Heq & Hn)].
            + apply Hout, (Hkey Hm x Hx1), H0.
            + apply id_text_inj in Heq. cbn in Heq. rewrite Heq in Hx2. exact (Hx2 Hn). }
        rewrite Hall, count_model_app, count_model_rows.
        rewrite decide_True by exact Hm.
        unfold group_effect. fold new.
        destruct (Z.of_nat (length new) =? 0) eqn:Hcount.
        -- apply Z.eqb_eq in Hcount. lia.
        -- cbn [new_model_popularity_entries].
           rewrite bool_decide_eq_true_2 by exact Hout.
           rewrite sum_count_app. unfold sum_count at 2, rows_of_model.
           rewrite filter_cons_True by exact Hm. cbn. lia.
    + rewrite Htbl, count_model_app.
      rewrite (count_model_others m added).
      2:{ intros r Hr. apply Hadded, list_elem_of_fmap in Hr as (x & -> & _). exact Hm. }
      unfold group_effect. fold new.
      destruct (Z.of_nat (length new) =? 0); [lia|].
      cbn [new_model_popularity_entries]. rewrite sum_count_app.
      destruct (bool_decide (fst item ∉ keys)).
      * unfold sum_count at 2, rows_of_model.
        rewrite filter_cons_False by exact Hm. cbn. lia.
      * unfold sum_count at 2, rows_of_model. cbn. lia.
Qed.

Lemma update_groups_counted E current_time keys (items : dict) st s st' s' m
  (db0 : timescaledb) :
  update_groups E current_time keys items st s = (Ok st', s') ->
  (forall i, i ∈ ids_of (pending s) ->
     i ∈ ids_of db0 \/ exists n, i = id_text n /\ IntId n ∈ existing_experiment_ids st) ->
  (forall i, i ∈ ids_of db0 -> i ∈ ids_of (pending s)) ->
  (forall item : key * model_info, item ∈ items ->
     NoDup (x_id <$> mi_experiments (snd item))) ->
  (forall item : key * model_info, item ∈ items -> snd (fst item) = m ->
     forall x, x ∈ mi_experiments (snd item) ->
       (fst item ∈ keys <-> id_text (x_id x) ∈ ids_of db0)) ->
  count_model m (experiments (pending s')) - sum_count m (new_model_popularity_entries st')
  = count_model m (experiments (pending s)) - sum_count m (new_model_popularity_entries st).
Proof.
  revert st s. induction items as [|item rest IH]; intros st s H Hfrom Hkept Hnd Hkeys;
    cbn [update_groups] in H.
  - inversion H; subst. reflexivity.
  - apply bind_inv_ok in H as (st1 & s1 & H1 & H2).
    destruct (update_group_counted _ _ _ _ _ _ _ _ m db0 H1 Hfrom Hkept
                (Hnd item ltac:(left)) (Hkeys item ltac:(left)))
      as (Hfrom1 & Hkept1 & Hcount1).
    rewrite <- Hcount1. apply (IH st1 s1 H2 Hfrom1 Hkept1).
    + intros it Hit. apply Hnd. right. exact Hit.
    + intros it Hit. apply Hkeys. right. exact Hit.
Qed.

Lemma update_statements_counted E (models_data : dict) current_time s s' m :
  update_statements E models_data current_time s = (Ok tt, s') ->
  NoDup (fst <$> models_data) ->
  (forall item : key * model_info, item ∈ models_data ->
     NoDup (x_id <$> mi_experiments (snd item))) ->
  (forall item : key * model_info, item ∈ models_data -> snd (fst item) = m ->
     forall x, x ∈ mi_experiments (snd item) ->
       (fst item ∈ popularity_key <$> metric_models_popularity (pending s) <->
        id_text (x_id x) ∈ ids_of (pending s))) ->
  counted m (pending s) -> counted m (pending s').
Proof.
  intros H Hkeysnd Hnd Hkeys Hcounted.
  pose proof (update_statements_ok _ _ _ _ _ H) as (Hpop & _).
  unfold update_statements in H.
  apply bind_inv_ok in H as [ids [s1 [H1 H]]]. apply read_ok in H1 as [-> [Hp1 Hc1]].
  apply bind_inv_ok in H as [keys [s2 [H2 H]]]. apply read_ok in H2 as [-> [Hp2 Hc2]].
  apply bind_inv_ok in H as [st [s3 [H3 H]]].
  pose proof (update_groups_ok _ _ _ _ _ _ _ _ H3) as (Hst & _).
  apply (update_groups_counted _ _ _ _ _ _ _ _ m (pending s)) in H3.
  - apply insert_popularity_batches_ok in H as (_ & Hexp & _).
    rewrite Hp2, Hp1 in *. cbn [new_model_popularity_entries] in H3.
    unfold counted. rewrite Hexp, Hpop.
    destruct (fold_effect_entries (metric_models_popularity (pending s))
                (select_popularity_keys (pending s)) current_time models_data
                (mk_locals (select_experiment_ids (pending s)) ∅ []))
      as (added & Heq & Hsub & Hprop).
    unfold final_locals. rewrite Heq. cbn [new_model_popularity_entries app].
    rewrite insert_popularity_fresh.
    + rewrite sum_count_app. rewrite Hst, Heq in H3. cbn [new_model_popularity_entries app] in H3.
      unfold counted in Hcounted. change (sum_count m []) with 0 in H3. lia.
    + eapply sublist_NoDup; [exact Hkeysnd | exact Hsub].
    + intros b Hb Hin. destruct (Hprop b Hb) as (_ & Hkey & _). apply Hkey.
      unfold select_popularity_keys. apply elem_of_list_to_set. exact Hin.
  - rewrite Hp2, Hp1. intros i Hi. left. exact Hi.
  - rewrite Hp2, Hp1. intros i Hi. exact Hi.
  - exact Hnd.
  - intros item Hitem Hm x Hx. rewrite Hp1.
    unfold select_popularity_keys. rewrite elem_of_list_to_set.
    exact (Hkeys item Hitem Hm x Hx).
Qed.

Lemma entries_ids (l : list exp_data) :
  (x_id <$> omap entry_of l) `sublist_of` (exp_id <$> l).
Proof.
  induction l as [|exp l IH]; [constructor|].
  rewrite fmap_cons.
  change (omap entry_of (exp :: l))
    with (match entry_of exp with
          | Some y => y :: omap entry_of l
          | None => omap entry_of l
          end).
  destruct (entry_of exp) as [y|] eqn:Hy.
  - rewrite fmap_cons. destruct (entry_of_fields exp y Hy) as [-> _].
    apply sublist_skip, IH.
  - apply sublist_cons, IH.
Qed.

(** X20: the two tables agree on a model after a cycle if they did before:
    the counts of the popularity rows of the model add up to the number of
    its experiments in [experiments]. This needs the ids of the source to
    be distinct, and every extracted experiment of the model to be in
    [experiments], under its id as text, exactly when its day has a
    popularity row of the model. It holds whatever fails in the course of
    the cycle. *)
Theorem counts_add_up_to_the_experiments w E src W model_name :
  counted model_name (tsdb W) ->
  NoDup (d_exp_id <$> src) ->
  (forall exps exp k,
     _extract_autosubmit_experiments w E src = Ok exps ->
     exp ∈ exps -> model exp = model_name -> key_of exp = Some k ->
     (k ∈ popularity_key <$> metric_models_popularity (tsdb W) <->
      id_text (exp_id exp) ∈ ids_of (tsdb W))) ->
  counted model_name (tsdb (snd (execute_task w E src W))).
Proof.
  intros Hcounted Hsrc Hdays.
  destruct (cycle_store w E src W)
    as [-> | (x & rest & models_data & s & Hex & Hpr & _ & Hst & ->)];
    [exact Hcounted|].
  pose proof (process_experiments_grouped (x :: rest) models_data Hpr) as Hgr.
  assert (Hids : NoDup (exp_id <$> x :: rest)).
  { rewrite (extract_ids w E src _ Hex).
    eapply sublist_NoDup; [exact Hsrc|]. apply fmap_sublist, sublist_filter. }
  apply (update_statements_counted _ _ _ _ _ model_name Hst).
  - apply Hgr.
  - intros item Hitem. destruct Hgr as (_ & _ & Hitems & _).
    destruct (Hitems item Hitem) as (_ & _ & -> & _).
    eapply sublist_NoDup; [exact Hids|].
    etransitivity; [apply entries_ids|]. apply fmap_sublist, sublist_filter.
  - cbn [pending]. intros item Hitem Hm x0 Hx0.
    destruct Hgr as (_ & _ & Hitems & _).
    destruct (Hitems item Hitem) as (_ & _ & Hxs & _). rewrite Hxs in Hx0.
    apply list_elem_of_omap in Hx0 as (exp & Hexp & Hx0).
    apply list_elem_of_filter in Hexp as [Hkey Hexp].
    destruct (entry_of_fields exp x0 Hx0) as [-> _].
    apply (Hdays (x :: rest) exp (fst item) Hex Hexp); [|exact Hkey].
    rewrite <- Hm. unfold key_of in Hkey.
    destruct (credated exp); [|discriminate Hkey].
    cbn in Hkey. injection Hkey as Hkey. rewrite <- Hkey. reflexivity.
  - exact Hcounted.
Qed.

Lemma counts_add_up_to_the_experiments_witness :
  let W := Scenarios.after Scenarios.worker healthy Scenarios.src_A empty_world in
  let W' := snd (execute_task Scenarios.worker_later healthy Scenarios.src_B W) in
  counted "EC-Earth" (tsdb W) /\
  NoDup (d_exp_id <$> Scenarios.src_B) /\
  counted "EC-Earth" (tsdb W') /\
  count_model "EC-Earth" (experiments (tsdb W')) = 3.
Proof.
  cbv zeta.
  assert (HW : tsdb (Scenarios.after Scenarios.worker healthy Scenarios.src_A empty_world)
               = mk_db [ mk_experiment "1" "a001" "EC-Earth" (date 2023 1 1);
                         mk_experiment "2" "a002" "EC-Earth" (date 2023 1 1) ]
                       [ Scenarios.bucket_A (date 2024 5 1) ])
    by (vm_compute; reflexivity).
  assert (Hc : counted "EC-Earth"
                 (tsdb (Scenarios.after Scenarios.worker healthy Scenarios.src_A empty_world))).
  { rewrite HW. reflexivity. }
  assert (Hnd : NoDup (d_exp_id <$> Scenarios.src_B)).
  { apply (bool_decide_unpack _). vm_compute. exact I. }
  split; [exact Hc|]. split; [exact Hnd|]. split; [|vm_compute; reflexivity].
  apply (counts_add_up_to_the_experiments Scenarios.worker_later healthy Scenarios.src_B
           _ "EC-Earth" Hc Hnd).
  intros exps exp k Hex Hexp _ Hk. rewrite HW.
  assert (Hexps : exps
          = [ mk_exp_data 1 "alice" "EC-Earth" "main" "marenostrum" (Some (date 2023 1 1)) "a001";
              mk_exp_data 2 "bob" "EC-Earth" "main" "marenostrum" (Some (date 2023 1 1)) "a002";
              mk_exp_data 3 "carol" "EC-Earth" "main" "marenostrum" (Some (date 2023 1 2)) "a003" ]).
  { vm_compute in Hex. injection Hex as <-. reflexivity. }
  subst exps.
  apply (bool_decide_unpack _).
  repeat (apply elem_of_cons in Hexp as [->|Hexp];
          [vm_compute in Hk; injection Hk as <-; vm_compute; exact I|]).
  apply elem_of_nil in Hexp. contradiction.
Defined.

End CountFacts.

(** ** The read path *)

Section ApiFacts.
Import Clock Store Sync Laws Integrity Cache Api.
Context {driver_error : Type}.
Variable fails : nat -> option driver_error.
Variable unpopulated : driver_error.

Lemma insert_desc_perm (x : string * Z) (l : list (string * Z)) :
  insert_desc x l ≡ₚ x :: l.
Proof.
  induction l as [|y l IH]; cbn [insert_desc]; [reflexivity|].
  destruct (snd y <? snd x); [reflexivity|].
  rewrite IH. apply Permutation_swap.
Qed.

Lemma order_by_total_desc_perm (l : list (string * Z)) : order_by_total_desc l ≡ₚ l.
Proof.
  induction l as [|x l IH]; [reflexivity|].
  unfold order_by_total_desc in *. cbn [foldr].
  rewrite insert_desc_perm, IH. reflexivity.
Qed.

Lemma insert_desc_descending (x : string * Z) (l : list (string * Z)) :
  descending l -> descending (insert_desc x l).
Proof.
  induction l as [|y l IH]; intros Hl; cbn [insert_desc].
  - split; [constructor | exact I].
  - destruct Hl as [Hy Hl]. destruct (snd y <? snd x) eqn:Hlt.
    + apply Z.ltb_lt in Hlt. split; [|split; assumption].
      constructor; [lia|]. eapply Forall_impl; [exact Hy|]. intros z Hz. cbn in Hz. lia.
    + apply Z.ltb_ge in Hlt. split; [|apply IH, Hl].
      rewrite insert_desc_perm. constructor; [exact Hlt | exact Hy].
Qed.

Lemma order_by_total_desc_descending (l : list (string * Z)) :
  descending (order_by_total_desc l).
Proof.
  induction l as [|x l IH]; [exact I|].
  unfold order_by_total_desc in *. cbn [foldr]. apply insert_desc_descending, IH.
Qed.

Lemma remove_dups_NoDup {A} `{EqDecision A} (l : list A) : NoDup l -> remove_dups l = l.
Proof.
  induction 1 as [|x l Hx _ IH]; [reflexivity|].
  cbn [remove_dups]. destruct (decide_rel elem_of x l) as [Hin|_]; [contradiction|].
  rewrite IH. reflexivity.
Qed.

Lemma view_models (rows : list ModelPopularityTimeDB) :
  mv_model <$> popular_models_view rows = models_of rows.
Proof.
  unfold popular_models_view. rewrite <- list_fmap_compose. apply fmap_fixed. reflexivity.
Qed.

Lemma view_rows_of (rows : list ModelPopularityTimeDB) (m : string) :
  m ∈ models_of rows ->
  sum_Z (mv_count <$> filter (fun r => mv_model r = m) (popular_models_view rows))
  = sum_count m rows.
Proof.
  unfold popular_models_view.
  assert (Hnd : NoDup (models_of rows)) by apply NoDup_remove_dups.
  induction (models_of rows) as [|m0 l IH]; intros Hm; [apply elem_of_nil in Hm; contradiction|].
  apply NoDup_cons in Hnd as [Hm0 Hnd]. rewrite fmap_cons.
  destruct (decide (m0 = m)) as [->|Hne].
  - rewrite filter_cons_True by reflexivity.
    rewrite (filter_none (fun r => mv_model r = m)).
    + cbn. lia.
    + intros r Hr Heq. apply list_elem_of_fmap in Hr as (m' & -> & Hm'). cbn in Heq.
      subst m'. exact (Hm0 Hm').
  - rewrite filter_cons_False by exact Hne. apply IH; [exact Hnd|].
    apply elem_of_cons in Hm as [Hm|Hm]; [exfalso; apply Hne; symmetry; exact Hm | exact Hm].
Qed.

Lemma group_by_model_view (rows : list ModelPopularityTimeDB) :
  group_by_model (popular_models_view rows)
  = (fun m => (m, sum_count m rows)) <$> models_of rows.
Proof.
  unfold group_by_model. rewrite view_models.
  rewrite (remove_dups_NoDup (models_of rows)) by apply NoDup_remove_dups.
  apply Forall_fmap_ext, Forall_forall. intros m Hm. f_equal. apply view_rows_of, Hm.
Qed.

Lemma get_all_models_refreshed (n : nat) (W : world)
  (rows : list ModelPopularityTimeDB) :
  mv W = Some (popular_models_view rows) -> fails n = None ->
  exists models_data,
    _get_all_models fails unpopulated n W = Done models_data /\
    models_data ≡ₚ (fun m => (m, sum_count m rows)) <$> models_of rows /\
    NoDup (fst <$> models_data) /\
    descending models_data.
Proof.
  intros Hmv Hn. unfold _get_all_models, execute. rewrite Hn, Hmv. cbn [fmap option_fmap option_map].
  eexists. split; [reflexivity|]. rewrite group_by_model_view.
  split; [apply order_by_total_desc_perm|]. split; [|apply order_by_total_desc_descending].
  rewrite order_by_total_desc_perm, <- list_fmap_compose.
  rewrite (fmap_fixed _ (models_of rows)) by reflexivity. apply NoDup_remove_dups.
Qed.

(** X21: on a view that has been refreshed, [_get_all_models] returns one
    pair for each model of the popularity table, the model with the sum of
    its counts, the greatest sum first. *)
Theorem get_all_models_lists_every_model_once (n : nat) (W : world)
  (rows : list ModelPopularityTimeDB) :
  mv W = Some (popular_models_view rows) -> fails n = None ->
  exists models_data,
    _get_all_models fails unpopulated n W = Done models_data /\
    models_data ≡ₚ (fun m => (m, sum_count m rows)) <$> models_of rows /\
    NoDup (fst <$> models_data) /\
    descending models_data.
Proof. apply get_all_models_refreshed. Qed.

Lemma domain_models_done (n : nat) (W : world) (last_updated : date_value)
  (models_data : list (string * Z)) :
  (forall k, fails k = None) -> Forall (fun p => 0 <= snd p) models_data ->
  domain_models fails unpopulated n W last_updated models_data
  = Done ((fun p : string * Z =>
             mk_Model (fst p) (snd p) (experiments_of (fst p) (tsdb W)) last_updated)
          <$> models_data).
Proof.
  intros Hup. revert n. induction models_data as [|[m c] rest IH]; intros n Hpos;
    cbn [domain_models].
  - rewrite Hup. reflexivity.
  - apply Forall_cons in Hpos as [Hc Hpos]. cbn [snd] in Hc.
    unfold _get_experiments, execute. rewrite Hup.
    destruct (c <? 0) eqn:Hneg; [apply Z.ltb_lt in Hneg; lia|].
    rewrite (IH (S n) Hpos). reflexivity.
Qed.

Lemma count_model_nonneg (m : string) (tbl : list ExperimentTimeDB) : 0 <= count_model m tbl.
Proof. unfold count_model. lia. Qed.

(** X22: when the view is the one computed from the popularity table, the
    two tables agree on every model and no call of the session fails,
    [get_aggregated_popular_models] returns one [Model] for each model of
    the popularity table, the greatest count first; each carries the
    experiments of [experiments] with its name, in the order of the table,
    and its count is their number. *)
Theorem listed_experiments_match_the_count (today : date_value) (W : world) :
  (forall n, fails n = None) ->
  mv W = Some (popular_models_view (metric_models_popularity (tsdb W))) ->
  (forall m, counted m (tsdb W)) ->
  exists models,
    get_aggregated_popular_models fails unpopulated today W = Done models /\
    m_name <$> models ≡ₚ models_of (metric_models_popularity (tsdb W)) /\
    descending ((fun M => (m_name M, m_count M)) <$> models) /\
    forall M, M ∈ models ->
      m_experiments M = experiments_of (m_name M) (tsdb W) /\
      m_count M = Z.of_nat (length (m_experiments M)).
Proof.
  intros Hup Hmv Hcounted.
  destruct (get_all_models_refreshed 1%nat W _ Hmv (Hup 1%nat))
    as (models_data & Hall & Hperm & _ & Hdesc).
  unfold get_aggregated_popular_models, execute. rewrite Hup, Hmv, Hall.
  cbn [fmap option_fmap option_map].
  assert (Hsum : forall p, p ∈ models_data ->
            snd p = count_model (fst p) (experiments (tsdb W))).
  { intros p Hp. rewrite Hperm in Hp. apply list_elem_of_fmap in Hp as (m & -> & _).
    cbn [fst snd]. apply Hcounted. }
  rewrite domain_models_done; [|exact Hup|].
  2:{ apply Forall_forall. intros p Hp. rewrite (Hsum p Hp). apply count_model_nonneg. }
  eexists. split; [reflexivity|]. split; [|split].
  - rewrite <- list_fmap_compose.
    change (m_name ∘ _) with (fst : string * Z -> string).
    rewrite Hperm, <- list_fmap_compose. rewrite (fmap_fixed _ (models_of _)); reflexivity.
  - rewrite <- list_fmap_compose.
    rewrite (fmap_fixed _ models_data); [exact Hdesc|]. intros [m c] _. reflexivity.
  - intros M HM. apply list_elem_of_fmap in HM as (p & -> & Hp).
    cbn [m_experiments m_name m_count]. split; [reflexivity|].
    rewrite (Hsum p Hp). unfold experiments_of, count_model. rewrite length_fmap. reflexivity.
Qed.

Context {time : Type}.
Variable plus : time -> Z -> time.
Variable before : time -> time -> bool.

Lemma on_exception_database :
  on_exception
    (DatabaseException "Error while fetching aggregated popular models from the database")
  = DatabaseException "Error while fetching aggregated popular models from the database".
Proof. vm_compute. reflexivity. Qed.

Lemma on_exception_index :
  on_exception (IndexError "list index out of range")
  = IndexError "list index out of range".
Proof. vm_compute. reflexivity. Qed.

(** X23: the route never raises [ServiceUnavailableException]: the test for
    a connection error or a timeout looks at exceptions that the transaction
    has already replaced by its own [DatabaseException]. What the route
    raises, on a cache miss only, is that [DatabaseException] when the
    controller fails, whatever the failure was, and [IndexError] when there
    is no model to answer with; both are answered with status 500, and
    nothing is put in the cache. *)
Theorem route_never_answers_service_unavailable (now later : time) (today : date_value)
  (limit : option Z) (W : world)
  (cache : @MemoryCache time AggregatedPopularModelsResponse) :
  let out := get_aggregated_popular_models_route fails unpopulated plus before
               now later today limit W cache in
  match fst out with
  | Done response => True
  | Raised e =>
      (forall message, e <> ServiceUnavailableException message) /\
      fst (global_exception_handler e) = 500 /\
      fst (get before now "models:aggregated" cache) = None /\
      snd out = snd (get before now "models:aggregated" cache) /\
      ((exists failure,
          get_aggregated_popular_models fails unpopulated today W = Raised failure /\
          e = DatabaseException
                "Error while fetching aggregated popular models from the database") \/
       (exists result,
          get_aggregated_popular_models fails unpopulated today W = Done result /\
          match limit with Some n => slice_to n result | None => result end = [] /\
          e = IndexError "list index out of range"))
  end.
Proof.
  cbv zeta. unfold get_aggregated_popular_models_route.
  destruct (get before now "models:aggregated" cache) as [[response|] cache1];
    [exact I|]. cbn [fst snd].
  unfold TrPopularModelsAggregated_execute.
  destruct (get_aggregated_popular_models fails unpopulated today W) as [result|failure].
  - unfold initialize.
    destruct (match limit with Some n => slice_to n result | None => result end)
      as [|first rest] eqn:Hsl; [|exact I].
    cbn [fst snd]. rewrite on_exception_index.
    split; [discriminate|]. split; [reflexivity|]. split; [reflexivity|].
    split; [reflexivity|]. right. exists result. split; [reflexivity|].
    split; [exact Hsl | reflexivity].
  - cbn [fst snd]. rewrite on_exception_database.
    split; [discriminate|]. split; [reflexivity|]. split; [reflexivity|].
    split; [reflexivity|]. left. exists failure. split; reflexivity.
Qed.

(** X24: a response put in the cache by a request answers every request
    that comes before its expiry, cut to the limit of that request, whatever
    the store holds by then. The response cached is the one of the first
    request, cut to its limit: a later request without a limit gets no more
    models than the first one asked for. *)
Theorem cached_response_answers_until_expiry
  (now later now' later' : time) (today today' : date_value) (limit limit' : option Z)
  (W W' : world) (cache : @MemoryCache time AggregatedPopularModelsResponse)
  (response : AggregatedPopularModelsResponse) :
  fst (get before now "models:aggregated" cache) = None ->
  fst (get_aggregated_popular_models_route fails unpopulated plus before
         now later today limit W cache) = Done response ->
  before (plus later (_default_ttl cache)) now' = false ->
  (exists result,
     get_aggregated_popular_models fails unpopulated today W = Done result /\
     ar_models response
     = from_domain <$> match limit with Some n => slice_to n result | None => result end) /\
  fst (get_aggregated_popular_models_route fails unpopulated plus before
         now' later' today' limit' W'
         (snd (get_aggregated_popular_models_route fails unpopulated plus before
                 now later today limit W cache)))
  = Done match limit' with
         | Some n => mk_aggregated (ar_last_extracted response)
                       (slice_to n (ar_models response))
         | None => response
         end.
Proof.
  intros Hmiss. unfold get_aggregated_popular_models_route at 1 3.
  destruct (get before now "models:aggregated" cache) as [cached cache1] eqn:Hget.
  cbn [fst] in Hmiss. subst cached.
  assert (Httl : _default_ttl cache1 = _default_ttl cache).
  { unfold get in Hget. destruct (_cache cache !! "models:aggregated") as [[v e]|];
      [destruct (before e now)|]; inversion Hget; reflexivity. }
  unfold TrPopularModelsAggregated_execute.
  destruct (get_aggregated_popular_models fails unpopulated today W) as [result|failure];
    [|discriminate].
  unfold initialize.
  destruct (match limit with Some n => slice_to n result | None => result end)
    as [|first rest] eqn:Hsl; [discriminate|].
  cbn [fst snd]. intros [= <-] Hlive.
  split; [exists result; split; [reflexivity | rewrite Hsl; reflexivity]|].
  unfold get_aggregated_popular_models_route, get, set. cbn [_cache _default_ttl _stats].
  rewrite lookup_insert_eq, Httl, Hlive. reflexivity.
Qed.

Lemma run_finds_nothing (actions : list action) (w : AutosubmitSyncWorker) (W : world) :
  Forall (finds_nothing w) actions -> mv (snd (run (w, W) actions)) = mv W.
Proof.
  revert w W. induction actions as [|a actions IH]; intros w W Hall; [reflexivity|].
  apply Forall_cons in Hall as [Ha Hall]. unfold run. cbn [fold_left].
  destruct a as [E src|t]; cbn [act fst snd].
  - fold (run (w, snd (execute_task w E src W)) actions). rewrite (IH _ _ Hall).
    apply (idle_cycle w E src W Ha).
  - fold (run (set_timestamp t w, W) actions). apply IH.
    eapply Forall_impl; [exact Hall|]. intros a Ha'. destruct a; exact Ha'.
Qed.

(** X25: as long as every cycle of the worker has found the source
    unreadable or without a valid experiment, the view has never been
    refreshed, and a request for the aggregated models that finds nothing
    in the cache is answered with the transaction's [DatabaseException],
    status 500, whatever the limit. *)
Theorem no_answer_before_the_first_refresh
  (w : AutosubmitSyncWorker) (actions : list action)
  (now later : time) (today : date_value) (limit : option Z)
  (cache : @MemoryCache time AggregatedPopularModelsResponse) :
  Forall (finds_nothing w) actions ->
  fst (get before now "models:aggregated" cache) = None ->
  let W := snd (run (w, empty_world) actions) in
  mv W = None /\
  fst (get_aggregated_popular_models_route fails unpopulated plus before
         now later today limit W cache)
  = Raised (DatabaseException
              "Error while fetching aggregated popular models from the database") /\
  global_exception_handler
    (DatabaseException "Error while fetching aggregated popular models from the database")
  = (500, "Error while fetching aggregated popular models from the database").
Proof.
  intros Hall Hmiss. cbv zeta.
  pose proof (run_finds_nothing actions w empty_world Hall) as Hmv. cbn [mv empty_world] in Hmv.
  split; [exact Hmv|]. split; [|reflexivity].
  unfold get_aggregated_popular_models_route.
  destruct (get before now "models:aggregated" cache) as [cached cache1].
  cbn [fst] in Hmiss. subst cached.
  unfold TrPopularModelsAggregated_execute, get_aggregated_popular_models, execute.
  rewrite Hmv. cbn [fmap option_fmap option_map].
  destruct (fails 0%nat); cbn [fst]; rewrite on_exception_database; reflexivity.
Qed.

End ApiFacts.

(** The read path after the first synchronisation of scenario A, with a
    driver that never fails and a clock that counts seconds. *)

Section ApiExamples.
Import Clock Store Sync Laws Integrity Cache Api.

Lemma scenario_A_store :
  tsdb (Scenarios.after Scenarios.worker healthy Scenarios.src_A empty_world)
  = mk_db [ mk_experiment "1" "a001" "EC-Earth" (date 2023 1 1);
            mk_experiment "2" "a002" "EC-Earth" (date 2023 1 1) ]
          [ Scenarios.bucket_A (date 2024 5 1) ].
Proof. vm_compute. reflexivity. Qed.

Lemma scenario_A_view :
  mv (Scenarios.after Scenarios.worker healthy Scenarios.src_A empty_world)
  = Some (popular_models_view
            (metric_models_popularity
               (tsdb (Scenarios.after Scenarios.worker healthy Scenarios.src_A empty_world)))).
Proof. vm_compute. reflexivity. Qed.

Lemma scenario_A_counted (m : string) :
  counted m (tsdb (Scenarios.after Scenarios.worker healthy Scenarios.src_A empty_world)).
Proof.
  rewrite scenario_A_store. unfold counted, sum_count, rows_of_model, count_model.
  unfold Scenarios.bucket_A. cbn [metric_models_popularity experiments].
  rewrite !filter_cons, !filter_nil. cbn [p_model e_model].
  destruct (decide ("EC-Earth" = m)); reflexivity.
Qed.

Lemma get_all_models_lists_every_model_once_witness :
  let W := Scenarios.after Scenarios.worker healthy Scenarios.src_A empty_world in
  mv W = Some (popular_models_view (metric_models_popularity (tsdb W))) /\
  exists models_data,
    _get_all_models (fun _ => None) tt 1 W = Done models_data /\
    models_data ≡ₚ (fun m => (m, sum_count m (metric_models_popularity (tsdb W))))
                   <$> models_of (metric_models_popularity (tsdb W)) /\
    NoDup (fst <$> models_data) /\
    descending models_data.
Proof.
  cbv zeta. split; [exact scenario_A_view|].
  apply (get_all_models_lists_every_model_once (fun _ => None) tt 1 _ _ scenario_A_view).
  reflexivity.
Defined.

Lemma listed_experiments_match_the_count_witness :
  let W := Scenarios.after Scenarios.worker healthy Scenarios.src_A empty_world in
  (forall m, counted m (tsdb W)) /\
  exists models,
    get_aggregated_popular_models (fun _ => None) tt (2024, 5, 2)%nat W = Done models /\
    m_name <$> models ≡ₚ models_of (metric_models_popularity (tsdb W)) /\
    descending ((fun M => (m_name M, m_count M)) <$> models) /\
    forall M, M ∈ models ->
      m_experiments M = experiments_of (m_name M) (tsdb W) /\
      m_count M = Z.of_nat (length (m_experiments M)).
Proof.
  cbv zeta. split; [exact scenario_A_counted|].
  apply (listed_experiments_match_the_count (fun _ => None) tt (2024, 5, 2)%nat _
           (fun _ => eq_refl) scenario_A_view scenario_A_counted).
Defined.

Lemma cached_response_answers_until_expiry_witness :
  let W := Scenarios.after Scenarios.worker healthy Scenarios.src_A empty_world in
  let W' := Scenarios.after Scenarios.worker_later healthy Scenarios.src_D W in
  let cache := MemoryCache_init 3600 in
  let response := mk_aggregated (2024, 5, 1)%nat
                    [mk_popular_model "EC-Earth" 2 ["a001"; "a002"]] in
  let first_request :=
    get_aggregated_popular_models_route (fun _ => None) tt Z.add Z.ltb
      0 1 (2024, 5, 2)%nat (Some 1) W cache in
  fst (get Z.ltb 0 "models:aggregated" cache) = None /\
  fst first_request = Done response /\
  Z.ltb (1 + _default_ttl cache) 3000 = false /\
  fst (get_aggregated_popular_models_route (fun _ => None) tt Z.add Z.ltb
         3000 3001 (2024, 5, 2)%nat None W' (snd first_request))
  = Done response.
Proof.
  cbv zeta.
  assert (Hmiss : fst (get Z.ltb 0 "models:aggregated"
                         (MemoryCache_init (V := AggregatedPopularModelsResponse) 3600))
                  = None) by reflexivity.
  assert (Hfirst : fst (get_aggregated_popular_models_route (fun _ => None) tt Z.add Z.ltb
                          0 1 (2024, 5, 2)%nat (Some 1)
                          (Scenarios.after Scenarios.worker healthy Scenarios.src_A empty_world)
                          (MemoryCache_init 3600))
                   = Done (mk_aggregated (2024, 5, 1)%nat
                             [mk_popular_model "EC-Earth" 2 ["a001"; "a002"]]))
    by (vm_compute; reflexivity).
  split; [exact Hmiss|]. split; [exact Hfirst|]. split; [reflexivity|].
  apply (cached_response_answers_until_expiry (fun _ => None) tt Z.add Z.ltb
           0 1 3000 3001 (2024, 5, 2)%nat (2024, 5, 2)%nat (Some 1) None _ _ _ _
           Hmiss Hfirst eq_refl).
Defined.

Lemma no_answer_before_the_first_refresh_witness :
  Forall (finds_nothing (AutosubmitSyncWorker_init 3600 (date 2024 5 1) None))
    [Cycle healthy [mk_detail 7 "erin" "2023-03-01" "NA" "main" "marenostrum" "a007"];
     Cycle Scenarios.source_down Scenarios.src_A] /\
  fst (get_aggregated_popular_models_route (fun _ => None) tt Z.add Z.ltb
         0 1 (2024, 5, 2)%nat None
         (snd (run (AutosubmitSyncWorker_init 3600 (date 2024 5 1) None, empty_world)
                 [Cycle healthy
                    [mk_detail 7 "erin" "2023-03-01" "NA" "main" "marenostrum" "a007"];
                  Cycle Scenarios.source_down Scenarios.src_A]))
         (MemoryCache_init 3600))
  = Raised (DatabaseException
              "Error while fetching aggregated popular models from the database").
Proof.
  assert (Hall : Forall (finds_nothing (AutosubmitSyncWorker_init 3600 (date 2024 5 1) None))
                   [Cycle healthy
                      [mk_detail 7 "erin" "2023-03-01" "NA" "main" "marenostrum" "a007"];
                    Cycle Scenarios.source_down Scenarios.src_A]).
  { constructor; [|constructor; [left; reflexivity | constructor]].
    right. intros d Hd. apply list_elem_of_singleton in Hd. subst d. left. }
  split; [exact Hall|].
  apply (no_answer_before_the_first_refresh (fun _ => None) tt Z.add Z.ltb _ _
           0 1 (2024, 5, 2)%nat None (MemoryCache_init 3600) Hall eq_refl).
Defined.

End ApiExamples.

(** ** Duplicate log records *)

Section LoggingFacts.
Import Logging.
Context {time : Type}.
Variable within_window : time -> time -> bool.

Lemma handle_remembers (st : gmap (Z * string) time * list (@LogRecord time))
  (record : @LogRecord time) :
  remembers st -> remembers (handle within_window st record).
Proof.
  intros Hinv. unfold handle, DuplicateFilter_filter.
  destruct (fst st !! log_key record) as [last_time|] eqn:Hlast;
    [destruct (within_window (created record) last_time)|]; cbn [fst snd];
    try exact Hinv;
    intros key; cbn [fst snd]; rewrite List.filter_app; cbn [List.filter];
    (destruct (decide (log_key record = key)) as [Hk|Hk];
     [rewrite bool_decide_eq_true_2 by exact Hk; rewrite last_snoc, <- Hk, lookup_insert_eq;
      reflexivity
     |rewrite bool_decide_eq_false_2 by exact Hk; rewrite app_nil_r, lookup_insert_ne by exact Hk;
      apply Hinv]).
Qed.

Lemma handle_emitted (st : gmap (Z * string) time * list (@LogRecord time))
  (record : @LogRecord time) :
  remembers st ->
  (exists added, snd (handle within_window st record) = snd st ++ added /\
     added `sublist_of` [record]) /\
  (record ∈ snd (handle within_window st record) \/
   exists twin, twin ∈ snd st /\ log_key twin = log_key record /\
     within_window (created record) (created twin) = true).
Proof.
  intros Hinv. unfold handle, DuplicateFilter_filter.
  destruct (fst st !! log_key record) as [last_time|] eqn:Hlast;
    [destruct (within_window (created record) last_time) eqn:Hw|]; cbn [fst snd].
  - split; [exists []; rewrite app_nil_r; split; [reflexivity | apply sublist_nil_l]|].
    right. rewrite Hinv in Hlast.
    destruct (last (List.filter (fun r => bool_decide (log_key r = log_key record)) (snd st)))
      as [twin|] eqn:Htwin; [|discriminate].
    inversion Hlast; subst last_time. apply last_Some in Htwin as [l' Htwin].
    assert (Hin : In twin (List.filter (fun r => bool_decide (log_key r = log_key record)) (snd st)))
      by (rewrite Htwin; apply in_or_app; right; left; reflexivity).
    apply List.filter_In in Hin as [Hin Hkey]. apply bool_decide_eq_true in Hkey.
    exists twin. split; [apply list_elem_of_In; exact Hin|]. split; [exact Hkey | exact Hw].
  - split; [exists [record]; split; reflexivity|]. left. apply elem_of_app. right. left.
  - split; [exists [record]; split; reflexivity|]. left. apply elem_of_app. right. left.
Qed.

Lemma handle_all_from (records : list (@LogRecord time))
  (st : gmap (Z * string) time * list (@LogRecord time)) :
  remembers st ->
  remembers (fold_left (handle within_window) records st) /\
  (exists added,
     snd (fold_left (handle within_window) records st) = snd st ++ added /\
     added `sublist_of` records) /\
  (forall r, r ∈ records ->
     r ∈ snd (fold_left (handle within_window) records st) \/
     exists twin,
       twin ∈ snd (fold_left (handle within_window) records st) /\
       log_key twin = log_key r /\
       within_window (created r) (created twin) = true).
Proof.
  revert st. induction records as [|r records IH]; intros st Hinv.
  - split; [exact Hinv|]. split; [exists []; rewrite app_nil_r; split; [reflexivity | constructor]|].
    intros r Hr. apply elem_of_nil in Hr. contradiction.
  - cbn [fold_left].
    destruct (handle_emitted st r Hinv) as [(added1 & Heq1 & Hsub1) Hr].
    destruct (IH _ (handle_remembers st r Hinv)) as (Hinv' & (added & Heq & Hsub) & Hall).
    split; [exact Hinv'|]. split.
    + exists (added1 ++ added). rewrite Heq, Heq1, <- app_assoc. split; [reflexivity|].
      change (r :: records) with ([r] ++ records). apply sublist_app; assumption.
    + intros r0 Hr0. apply elem_of_cons in Hr0 as [->|Hr0]; [|exact (Hall r0 Hr0)].
      rewrite Heq. destruct Hr as [Hr|(twin & Htwin & Hkey & Hw)].
      * left. apply elem_of_app. left. exact Hr.
      * right. exists twin. split; [|split; assumption].
        apply elem_of_app. left. rewrite Heq1. apply elem_of_app. left. exact Htwin.
Qed.

(** X26: the handler emits the records in the order they come and drops a
    record only when a record of the same level and message has been
    emitted for which the test of the window holds, so that no message is
    lost altogether; the first record always goes through; and the
    dictionary holds for every key the time of the last record emitted, a
    dropped record leaving it as it is. *)
Theorem a_dropped_record_has_an_emitted_twin (records : list (@LogRecord time)) :
  let out := handle_all within_window records in
  snd out `sublist_of` records /\
  (forall r, r ∈ records ->
     r ∈ snd out \/
     exists twin, twin ∈ snd out /\ log_key twin = log_key r /\
       within_window (created r) (created twin) = true) /\
  head (snd out) = head records /\
  remembers out.
Proof.
  cbv zeta. unfold handle_all.
  assert (H0 : remembers ((∅, []) : gmap (Z * string) time * list (@LogRecord time))).
  { intros key. cbn. apply lookup_empty. }
  destruct (handle_all_from records _ H0) as (Hinv & (added & Heq & Hsub) & Hall).
  cbn [snd app] in Heq. split; [rewrite Heq; exact Hsub|]. split; [exact Hall|].
  split; [|exact Hinv].
  destruct records as [|r records]; [reflexivity|]. cbn [fold_left head].
  assert (Hfirst : handle within_window (∅, []) r = (<[log_key r := created r]> ∅, [r])).
  { unfold handle, DuplicateFilter_filter. cbn [fst snd]. rewrite lookup_empty. reflexivity. }
  rewrite Hfirst.
  destruct (handle_all_from records (<[log_key r := created r]> ∅, [r]))
    as (_ & (added' & -> & _) & _); [|reflexivity].
  rewrite <- Hfirst. apply handle_remembers, H0.
Qed.

End LoggingFacts.

(** ** The two copies of the cleaning *)

Section ControllerFacts.
Import Names.

(** X27: the data controller and the synchronisation worker clean every
    model name to the same string: the test for an empty name that only the
    worker makes changes nothing for a string. *)
Theorem controller_cleans_as_the_worker (model_name : string) :
  Controller._clean_model_name model_name = _clean_model_name model_name.
Proof.
  unfold Controller._clean_model_name, _clean_model_name.
  destruct model_name as [|c r]; reflexivity.
Qed.

End ControllerFacts.
